(** * GlobalPlatform secure-channel engine ([src/crypto.c]): a shallow embedding

    The C file is translated function by function.  Bytes are integers
    ([Z], a [BYTE] holds [0..255]); buffers are lists of bytes; wrap-around of
    [BYTE], [DWORD] and [int] arithmetic is written out.  The OpenSSL calls the
    file makes ([EVP_Encrypt*], [CMAC_*]) are modelled after the standards they
    implement: DES and two-key triple DES (FIPS 46-3), AES-128 (FIPS 197) and
    CMAC (NIST SP 800-38B). *)

From Stdlib Require Import ZArith List Bool Lia.
Import ListNotations.
Open Scope Z_scope.

(* ================================================================== *)
(** ** Byte strings *)

Module Bytes.

(** Big-endian integer held by a byte string. *)
Definition to_Z (bs : list Z) : Z :=
  fold_left (fun acc b => Z.lor (Z.shiftl acc 8) (Z.land b 255)) bs 0.

(** The [n] low bytes of [x], most significant first. *)
Fixpoint of_Z (n : nat) (x : Z) : list Z :=
  match n with
  | O => []
  | S m => Z.land (Z.shiftr x (8 * Z.of_nat m)) 255 :: of_Z m x
  end.

Fixpoint xor (a b : list Z) : list Z :=
  match a, b with
  | x :: a', y :: b' => Z.lxor x y :: xor a' b'
  | _, _ => []
  end.

Definition len (bs : list Z) : Z := Z.of_nat (length bs).

(** Equality of two byte strings, the test [memcmp(a, b, n) == 0] makes on
    two strings of [n] bytes. *)
Fixpoint eqb (a b : list Z) : bool :=
  match a, b with
  | [], [] => true
  | x :: a', y :: b' => (x =? y) && eqb a' b'
  | _, _ => false
  end.

End Bytes.

(* ================================================================== *)
(** ** DES (FIPS 46-3) *)

Module DES.

Definition IP : list Z :=
  [58;50;42;34;26;18;10;2; 60;52;44;36;28;20;12;4;
   62;54;46;38;30;22;14;6; 64;56;48;40;32;24;16;8;
   57;49;41;33;25;17;9;1;  59;51;43;35;27;19;11;3;
   61;53;45;37;29;21;13;5; 63;55;47;39;31;23;15;7].

Definition FP : list Z :=
  [40;8;48;16;56;24;64;32; 39;7;47;15;55;23;63;31;
   38;6;46;14;54;22;62;30; 37;5;45;13;53;21;61;29;
   36;4;44;12;52;20;60;28; 35;3;43;11;51;19;59;27;
   34;2;42;10;50;18;58;26; 33;1;41;9;49;17;57;25].

Definition E : list Z :=
  [32;1;2;3;4;5; 4;5;6;7;8;9; 8;9;10;11;12;13; 12;13;14;15;16;17;
   16;17;18;19;20;21; 20;21;22;23;24;25; 24;25;26;27;28;29; 28;29;30;31;32;1].

Definition P : list Z :=
  [16;7;20;21;29;12;28;17; 1;15;23;26;5;18;31;10;
   2;8;24;14;32;27;3;9;    19;13;30;6;22;11;4;25].

Definition PC1 : list Z :=
  [57;49;41;33;25;17;9;  1;58;50;42;34;26;18;
   10;2;59;51;43;35;27;  19;11;3;60;52;44;36;
   63;55;47;39;31;23;15; 7;62;54;46;38;30;22;
   14;6;61;53;45;37;29;  21;13;5;28;20;12;4].

Definition PC2 : list Z :=
  [14;17;11;24;1;5;   3;28;15;6;21;10;
   23;19;12;4;26;8;   16;7;27;20;13;2;
   41;52;31;37;47;55; 30;40;51;45;33;48;
   44;49;39;56;34;53; 46;42;50;36;29;32].

Definition SHIFTS : list Z := [1;1;2;2;2;2;2;2;1;2;2;2;2;2;2;1].

Definition SBOX : list (list Z) :=
  [ [14;4;13;1;2;15;11;8;3;10;6;12;5;9;0;7;
     0;15;7;4;14;2;13;1;10;6;12;11;9;5;3;8;
     4;1;14;8;13;6;2;11;15;12;9;7;3;10;5;0;
     15;12;8;2;4;9;1;7;5;11;3;14;10;0;6;13];
    [15;1;8;14;6;11;3;4;9;7;2;13;12;0;5;10;
     3;13;4;7;15;2;8;14;12;0;1;10;6;9;11;5;
     0;14;7;11;10;4;13;1;5;8;12;6;9;3;2;15;
     13;8;10;1;3;15;4;2;11;6;7;12;0;5;14;9];
    [10;0;9;14;6;3;15;5;1;13;12;7;11;4;2;8;
     13;7;0;9;3;4;6;10;2;8;5;14;12;11;15;1;
     13;6;4;9;8;15;3;0;11;1;2;12;5;10;14;7;
     1;10;13;0;6;9;8;7;4;15;14;3;11;5;2;12];
    [7;13;14;3;0;6;9;10;1;2;8;5;11;12;4;15;
     13;8;11;5;6;15;0;3;4;7;2;12;1;10;14;9;
     10;6;9;0;12;11;7;13;15;1;3;14;5;2;8;4;
     3;15;0;6;10;1;13;8;9;4;5;11;12;7;2;14];
    [2;12;4;1;7;10;11;6;8;5;3;15;13;0;14;9;
     14;11;2;12;4;7;13;1;5;0;15;10;3;9;8;6;
     4;2;1;11;10;13;7;8;15;9;12;5;6;3;0;14;
     11;8;12;7;1;14;2;13;6;15;0;9;10;4;5;3];
    [12;1;10;15;9;2;6;8;0;13;3;4;14;7;5;11;
     10;15;4;2;7;12;9;5;6;1;13;14;0;11;3;8;
     9;14;15;5;2;8;12;3;7;0;4;10;1;13;11;6;
     4;3;2;12;9;5;15;10;11;14;1;7;6;0;8;13];
    [4;11;2;14;15;0;8;13;3;12;9;7;5;10;6;1;
     13;0;11;7;4;9;1;10;14;3;5;12;2;15;8;6;
     1;4;11;13;12;3;7;14;10;15;6;8;0;5;9;2;
     6;11;13;8;1;4;10;7;9;5;0;15;14;2;3;12];
    [13;2;8;4;6;15;11;1;10;9;3;14;5;0;12;7;
     1;15;13;8;10;3;7;4;12;5;6;11;0;14;9;2;
     7;11;4;1;9;12;14;2;0;6;10;13;15;3;5;8;
     2;1;14;7;4;10;8;13;15;12;9;0;3;5;6;11] ].

(** Bit [p] of a [width]-bit word, counted from 1 at the most significant
    end as the standard does, for each entry [p] of the table. *)
Definition permute (width : Z) (tbl : list Z) (x : Z) : Z :=
  fold_left
    (fun acc p => Z.lor (Z.shiftl acc 1) (Z.b2z (Z.testbit x (width - p))))
    tbl 0.

Definition rotl28 (x n : Z) : Z :=
  Z.land (Z.lor (Z.shiftl x n) (Z.shiftr x (28 - n))) (Z.ones 28).

Fixpoint subkeys (shifts : list Z) (c d : Z) : list Z :=
  match shifts with
  | [] => []
  | s :: rest =>
      let c' := rotl28 c s in
      let d' := rotl28 d s in
      permute 56 PC2 (Z.lor (Z.shiftl c' 28) d') :: subkeys rest c' d'
  end.

Definition key_schedule (key : Z) : list Z :=
  let cd := permute 64 PC1 key in
  subkeys SHIFTS (Z.shiftr cd 28) (Z.land cd (Z.ones 28)).

Definition sbox (box : list Z) (six : Z) : Z :=
  let row := Z.lor (Z.shiftl (Z.land (Z.shiftr six 5) 1) 1) (Z.land six 1) in
  let col := Z.land (Z.shiftr six 1) 15 in
  nth (Z.to_nat (16 * row + col)) box 0.

Fixpoint substitute (boxes : list (list Z)) (pos : Z) (x acc : Z) : Z :=
  match boxes with
  | [] => acc
  | b :: rest =>
      substitute rest (pos - 6) x
        (Z.lor (Z.shiftl acc 4) (sbox b (Z.land (Z.shiftr x pos) 63)))
  end.

Definition feistel (r k : Z) : Z :=
  permute 32 P (substitute SBOX 42 (Z.lxor (permute 32 E r) k) 0).

Definition rounds (ks : list Z) (lr : Z * Z) : Z * Z :=
  fold_left (fun st k => (snd st, Z.lxor (fst st) (feistel (snd st) k))) ks lr.

Definition crypt (ks : list Z) (block : Z) : Z :=
  let x := permute 64 IP block in
  let lr := rounds ks (Z.shiftr x 32, Z.land x (Z.ones 32)) in
  permute 64 FP (Z.lor (Z.shiftl (snd lr) 32) (fst lr)).

Definition encrypt (key block : Z) : Z := crypt (key_schedule key) block.
Definition decrypt (key block : Z) : Z := crypt (rev (key_schedule key)) block.

(** Single DES on 8-byte strings. *)
Definition encrypt_block (key block : list Z) : list Z :=
  Bytes.of_Z 8 (encrypt (Bytes.to_Z key) (Bytes.to_Z block)).

(** Two-key triple DES (EDE): the 16-byte key is [K1 ‖ K2] and the third
    key is [K1] again. *)
Definition ede_encrypt_block (key block : list Z) : list Z :=
  let k1 := Bytes.to_Z (firstn 8 key) in
  let k2 := Bytes.to_Z (firstn 8 (skipn 8 key)) in
  Bytes.of_Z 8 (encrypt k1 (decrypt k2 (encrypt k1 (Bytes.to_Z block)))).

End DES.

(* ================================================================== *)
(** ** AES-128 (FIPS 197) and CMAC (NIST SP 800-38B) *)

Module AES.

Definition xtime (b : Z) : Z :=
  let s := Z.shiftl b 1 in
  if Z.testbit s 8 then Z.lxor (Z.land s 255) 27 else s.

(** Product in GF(2^8) modulo x^8 + x^4 + x^3 + x + 1. *)
Fixpoint gmul_aux (n : nat) (a b acc : Z) : Z :=
  match n with
  | O => acc
  | S m =>
      gmul_aux m (xtime a) (Z.shiftr b 1)
        (if Z.testbit b 0 then Z.lxor acc a else acc)
  end.

Definition gmul (a b : Z) : Z := gmul_aux 8 a b 0.

Fixpoint gpow (n : nat) (a : Z) : Z :=
  match n with
  | O => 1
  | S m => gmul a (gpow m a)
  end.

Definition rotl8 (b n : Z) : Z :=
  Z.land (Z.lor (Z.shiftl b n) (Z.shiftr b (8 - n))) 255.

(** The S-box: multiplicative inverse followed by the affine map. *)
Definition sbox_of (b : Z) : Z :=
  let i := gpow 254 b in
  Z.lxor (Z.lxor (Z.lxor (Z.lxor (Z.lxor i (rotl8 i 1)) (rotl8 i 2)) (rotl8 i 3))
            (rotl8 i 4)) 99.

Definition SBOX : list Z :=
  Eval vm_compute in map (fun n => sbox_of (Z.of_nat n)) (seq 0 256).

Definition sub_byte (b : Z) : Z := nth (Z.to_nat (Z.land b 255)) SBOX 0.

Definition sub_bytes (st : list Z) : list Z := map sub_byte st.

(** The state is the 16 input bytes in order: byte [r + 4c] is row [r],
    column [c]. *)
Definition shift_rows (st : list Z) : list Z :=
  map (fun i => nth ((i mod 4 + 4 * ((i / 4 + i mod 4) mod 4))%nat) st 0)
      (seq 0 16).

Definition mix_column (a0 a1 a2 a3 : Z) : list Z :=
  [ Z.lxor (Z.lxor (Z.lxor (gmul 2 a0) (gmul 3 a1)) a2) a3;
    Z.lxor (Z.lxor (Z.lxor a0 (gmul 2 a1)) (gmul 3 a2)) a3;
    Z.lxor (Z.lxor (Z.lxor a0 a1) (gmul 2 a2)) (gmul 3 a3);
    Z.lxor (Z.lxor (Z.lxor (gmul 3 a0) a1) a2) (gmul 2 a3) ].

Fixpoint mix_columns (st : list Z) : list Z :=
  match st with
  | a0 :: a1 :: a2 :: a3 :: rest => mix_column a0 a1 a2 a3 ++ mix_columns rest
  | _ => []
  end.

(** Key expansion: from one 16-byte round key and its round constant to the
    next round key. *)
Definition next_round_key (rk : list Z) (rcon : Z) : list Z :=
  let w0 := firstn 4 rk in
  let w1 := firstn 4 (skipn 4 rk) in
  let w2 := firstn 4 (skipn 8 rk) in
  let w3 := firstn 4 (skipn 12 rk) in
  let t := Bytes.xor (map sub_byte (skipn 1 w3 ++ firstn 1 w3)) [rcon; 0; 0; 0] in
  let n0 := Bytes.xor w0 t in
  let n1 := Bytes.xor w1 n0 in
  let n2 := Bytes.xor w2 n1 in
  let n3 := Bytes.xor w3 n2 in
  n0 ++ n1 ++ n2 ++ n3.

Definition RCON : list Z := [1; 2; 4; 8; 16; 32; 64; 128; 27; 54].

Fixpoint expand (rcons : list Z) (rk : list Z) : list (list Z) :=
  match rcons with
  | [] => []
  | rc :: rest => let rk' := next_round_key rk rc in rk' :: expand rest rk'
  end.

Definition round (st rk : list Z) : list Z :=
  Bytes.xor (mix_columns (shift_rows (sub_bytes st))) rk.

Definition final_round (st rk : list Z) : list Z :=
  Bytes.xor (shift_rows (sub_bytes st)) rk.

Definition encrypt_block (key block : list Z) : list Z :=
  let rks := expand RCON key in
  let st := fold_left round (firstn 9 rks) (Bytes.xor (map (fun b => Z.land b 255) block) (map (fun b => Z.land b 255) key)) in
  final_round st (nth 9 rks []).

(** Doubling in GF(2^128) used for the CMAC subkeys. *)
Definition dbl (b : list Z) : list Z :=
  let x := Bytes.to_Z b in
  let s := Z.land (Z.shiftl x 1) (Z.ones 128) in
  Bytes.of_Z 16 (if Z.testbit x 127 then Z.lxor s 135 else s).

Fixpoint cbc_mac (fuel : nat) (key x msg : list Z) (k1 k2 : list Z) : list Z :=
  match fuel with
  | O => x
  | S f =>
      if (length msg <=? 16)%nat then
        let last :=
          if (length msg =? 16)%nat then Bytes.xor msg k1
          else Bytes.xor (msg ++ 128 :: repeat 0 (15 - length msg)) k2 in
        encrypt_block key (Bytes.xor x last)
      else
        cbc_mac f key (encrypt_block key (Bytes.xor x (firstn 16 msg)))
                (skipn 16 msg) k1 k2
  end.

(** AES-128-CMAC of [msg], a 16-byte tag. *)
Definition cmac (key msg : list Z) : list Z :=
  let l := encrypt_block key (repeat 0 16) in
  let k1 := dbl l in
  let k2 := dbl k1 in
  cbc_mac (S (length msg / 16)) key (repeat 0 16) msg k1 k2.

End AES.

(* ================================================================== *)
(** ** Status codes and the outcome of a call *)

(** The error codes of [errorcodes.h] that [crypto.c] raises. *)
Inductive error_code : Type :=
| OPGP_ERROR_CRYPT
| OPGP_ERROR_INSUFFICIENT_BUFFER
| OPGP_ERROR_UNRECOGNIZED_APDU_COMMAND
| OPGP_ERROR_COMMAND_SECURE_MESSAGING_TOO_LARGE
| OPGP_ERROR_SCP03_SECURITY_LEVEL_3_NOT_SUPPORTED
| OPGP_ERROR_VALIDATION_FAILED
| GP211_ERROR_VALIDATION_R_MAC.

(** [OPGP_ERROR_STATUS]: what [OPGP_ERROR_CREATE_NO_ERROR] and
    [OPGP_ERROR_CREATE_ERROR] build. *)
Inductive OPGP_ERROR_STATUS : Type :=
| OPGP_ERROR_STATUS_SUCCESS
| OPGP_ERROR_STATUS_FAILURE (e : error_code).

(** A C function that returns a status and writes through its
    out-parameters either returns, with the out-parameters as it left
    them, or runs into behaviour the C standard leaves undefined: an access
    outside a buffer, or the use of bytes nobody has written. *)
Inductive result (A : Type) : Type :=
| Success (out : A)
| Failure (e : error_code) (out : A)
| Undefined.
Arguments Success {A} out.
Arguments Failure {A} e out.
Arguments Undefined {A}.

(** The errors a call can return are among [P]. *)
Definition fails_with {A} (P : error_code -> Prop) (r : result A) : Prop :=
  forall e out, r = Failure e out -> P e.

(** Statements [s1; s2] over a memory [S]: [Fail] is [goto end] with an
    error status set. *)
Module Stmt.
Section Stmt.
Context {Mem : Type}.

Inductive outcome (A : Type) : Type :=
| Val (a : A) (s : Mem)
| Fail (e : error_code) (s : Mem)
| Undef.
Arguments Val {A} a s.
Arguments Fail {A} e s.
Arguments Undef {A}.

Definition M (A : Type) : Type := Mem -> outcome A.

Definition ret {A} (a : A) : M A := fun s => Val a s.
Definition bind {A B} (m : M A) (f : A -> M B) : M B :=
  fun s => match m s with
           | Val a s' => f a s'
           | Fail e s' => Fail e s'
           | Undef => Undef
           end.
Definition fail {A} (e : error_code) : M A := fun s => Fail e s.
Definition undef {A} : M A := fun _ => Undef.
Definition get : M Mem := fun s => Val s s.
Definition put (s : Mem) : M unit := fun _ => Val tt s.

(** The errors a statement can raise are among [P]. *)
Definition raises {A} (P : error_code -> Prop) (m : M A) : Prop :=
  forall s e s', m s = Fail e s' -> P e.

(** A statement leaves the part [f] of the memory as it is, whether it
    ends or raises an error. *)
Definition keeps {A X} (f : Mem -> X) (m : M A) : Prop :=
  forall s, match m s with
            | Val _ s' | Fail _ s' => f s' = f s
            | Undef => True
            end.

(** A statement that raises an error has left the part [f] of the memory
    as it was. *)
Definition keeps_on_error {A X} (f : Mem -> X) (m : M A) : Prop :=
  forall s e s', m s = Fail e s' -> f s' = f s.

(** A value that exists only when an access was in bounds. *)
Definition defined {A} (o : option A) : M A :=
  match o with Some a => ret a | None => undef end.

(** The status of a callee is tested and the error passed on:
    [status = f(...); if (OPGP_ERROR_CHECK(status)) goto end;]. *)
Definition call {A} (r : result A) : M A :=
  match r with
  | Success a => ret a
  | Failure e _ => fail e
  | Undefined => undef
  end.

(** [for (i = i0; i < i0 + n; i++) a = body(i, a)], the locals the body
    changes being [a]. *)
Fixpoint for_loop {A} (n : nat) (i : Z) (body : Z -> A -> M A) (a : A) : M A :=
  match n with
  | O => ret a
  | S n' => bind (body i a) (fun a' => for_loop n' (i + 1) body a')
  end.
End Stmt.
Arguments outcome : clear implicits.
Arguments M : clear implicits.
Arguments Val {Mem A} a s.
Arguments Fail {Mem A} e s.
Arguments Undef {Mem A}.
End Stmt.
Import Stmt.

Declare Scope stmt_scope.
Delimit Scope stmt_scope with stmt.
Notation "x <- m ;; k" := (bind m (fun x => k))
  (at level 61, m at next level, right associativity) : stmt_scope.
Notation "m ;; k" := (bind m (fun _ => k))
  (at level 61, right associativity) : stmt_scope.
Open Scope stmt_scope.

(* ================================================================== *)
(** ** Integer types and buffers of C *)

Module C.

Definition DWORD (x : Z) : Z := x mod 2 ^ 32.
Definition BYTE (x : Z) : Z := x mod 256.

(** Conversion of a [DWORD] to [int] (two's complement). *)
Definition to_int (x : Z) : Z :=
  let y := x mod 2 ^ 32 in if y <? 2 ^ 31 then y else y - 2 ^ 32.

(** Conversion of an [int] to [size_t]. *)
Definition to_size_t (x : Z) : Z := x mod 2 ^ 64.

Definition len := Bytes.len.

(** [p + off]: the bytes a pointer into a buffer can reach. *)
Definition at_offset (buf : list Z) (off : Z) : option (list Z) :=
  if (0 <=? off) && (off <=? len buf) then Some (skipn (Z.to_nat off) buf)
  else None.

(** The [n] bytes at [p]; nothing when they are not all there. *)
Definition read (buf : list Z) (n : Z) : option (list Z) :=
  if (0 <=? n) && (n <=? len buf) then Some (firstn (Z.to_nat n) buf)
  else None.

(** [buf[i]]. *)
Definition load (buf : list Z) (i : Z) : option Z :=
  if 0 <=? i then nth_error buf (Z.to_nat i) else None.

(** [memcpy(buf + off, data, |data|)] into a buffer of fixed size. *)
Definition store (buf : list Z) (off : Z) (data : list Z) : option (list Z) :=
  if (0 <=? off) && (off + len data <=? len buf) then
    Some (firstn (Z.to_nat off) buf ++ data
            ++ skipn (Z.to_nat (off + len data)) buf)
  else None.

(** A local array is held as the bytes written to it so far (none when it
    is declared); [overwrite] is a write at its start. *)
Definition overwrite (buf data : list Z) : list Z :=
  data ++ skipn (length data) buf.

(** A block returned by [malloc]: every byte indeterminate until written. *)
Definition block : Type := list (option Z).
Definition malloc (n : Z) : block := repeat None (Z.to_nat n).

Definition block_store (b : block) (off : Z) (data : list Z) : option block :=
  if (0 <=? off) && (off + len data <=? Z.of_nat (length b)) then
    Some (firstn (Z.to_nat off) b ++ map Some data
            ++ skipn (Z.to_nat (off + len data)) b)
  else None.

(** The content of a block, when all of it has been written. *)
Fixpoint block_bytes (b : block) : option (list Z) :=
  match b with
  | [] => Some []
  | Some x :: b' =>
      match block_bytes b' with Some l => Some (x :: l) | None => None end
  | None :: _ => None
  end.

End C.

(* ================================================================== *)
(** ** OpenSSL: the EVP cipher interface and CMAC *)

Module OpenSSL.

Inductive EVP_CIPHER : Type :=
| EVP_des_ecb | EVP_des_cbc | EVP_des_ede | EVP_des_ede_cbc.

Definition key_length (c : EVP_CIPHER) : Z :=
  match c with
  | EVP_des_ecb | EVP_des_cbc => 8
  | EVP_des_ede | EVP_des_ede_cbc => 16
  end.

Definition chained (c : EVP_CIPHER) : bool :=
  match c with
  | EVP_des_cbc | EVP_des_ede_cbc => true
  | EVP_des_ecb | EVP_des_ede => false
  end.

Definition encrypt_block (c : EVP_CIPHER) (key blk : list Z) : list Z :=
  match c with
  | EVP_des_ecb | EVP_des_cbc => DES.encrypt_block key blk
  | EVP_des_ede | EVP_des_ede_cbc => DES.ede_encrypt_block key blk
  end.

(** A cipher context with padding switched off
    ([EVP_CIPHER_CTX_set_padding(&ctx, 0)]): the key, the chaining block
    and the input bytes that do not fill a block yet. *)
Record EVP_CIPHER_CTX : Type := mkCTX {
  ctx_cipher : EVP_CIPHER;
  ctx_key : list Z;
  ctx_iv : list Z;
  ctx_buf : list Z
}.

(** What a call returns: 1 with its effect, 0, or nothing defined. *)
Inductive returned (A : Type) : Type :=
| One (a : A)
| Zero
| Wild.
Arguments One {A} a.
Arguments Zero {A}.
Arguments Wild {A}.

(** [EVP_EncryptInit_ex(&ctx, c, NULL, key, iv)]; ECB ciphers ignore [iv]. *)
Definition EVP_EncryptInit_ex (c : EVP_CIPHER) (key iv : list Z)
  : returned EVP_CIPHER_CTX :=
  match C.read key (key_length c), (if chained c then C.read iv 8 else Some []) with
  | Some k, Some v => One (mkCTX c k v [])
  | _, _ => Wild
  end.

(** Encryption of the whole blocks of [data], [n] of them. *)
Fixpoint encrypt_blocks (n : nat) (c : EVP_CIPHER) (key iv data : list Z)
  : list Z * list Z :=
  match n with
  | O => ([], iv)
  | S n' =>
      let blk := firstn 8 data in
      let ct := encrypt_block c key (if chained c then Bytes.xor blk iv else blk) in
      let r := encrypt_blocks n' c key (if chained c then ct else iv) (skipn 8 data) in
      (ct ++ fst r, snd r)
  end.

(** [EVP_EncryptUpdate(&ctx, out, &outl, in, inl)]: the new context and the
    [outl] bytes written to [out].  A negative [inl] makes the call return 0;
    [in] must hold [inl] bytes. *)
Definition EVP_EncryptUpdate (ctx : EVP_CIPHER_CTX) (input : list Z) (inl : Z)
  : returned (EVP_CIPHER_CTX * list Z) :=
  if inl <? 0 then Zero
  else
    match C.read input inl with
    | None => Wild
    | Some bytes =>
        let data := ctx_buf ctx ++ bytes in
        let n := (length data / 8)%nat in
        let r := encrypt_blocks n (ctx_cipher ctx) (ctx_key ctx) (ctx_iv ctx) data in
        One (mkCTX (ctx_cipher ctx) (ctx_key ctx) (snd r) (skipn (8 * n) data),
             fst r)
    end.

(** [EVP_EncryptFinal_ex(&ctx, out, &outl)] without padding: no output,
    and 0 is returned when a partial block is left. *)
Definition EVP_EncryptFinal_ex (ctx : EVP_CIPHER_CTX) : returned (list Z) :=
  match ctx_buf ctx with
  | [] => One []
  | _ :: _ => Zero
  end.

(** A CMAC context for AES-128: the key and the message fed so far. *)
Record CMAC_CTX : Type := mkCMAC {
  cmac_key : list Z;
  cmac_data : list Z
}.

(** [CMAC_Init(ctx, key, 16, EVP_aes_128_cbc(), NULL)]. *)
Definition CMAC_Init (key : list Z) : returned CMAC_CTX :=
  match C.read key 16 with
  | Some k => One (mkCMAC k [])
  | None => Wild
  end.

(** [CMAC_Update(ctx, data, dlen)], [dlen] a [size_t]. *)
Definition CMAC_Update (ctx : CMAC_CTX) (data : list Z) (dlen : Z) : returned CMAC_CTX :=
  match C.read data dlen with
  | Some bytes => One (mkCMAC (cmac_key ctx) (cmac_data ctx ++ bytes))
  | None => Wild
  end.

(** [CMAC_Final(ctx, mac, &outl)]: the 16-byte tag. *)
Definition CMAC_Final (ctx : CMAC_CTX) : returned (list Z) :=
  One (AES.cmac (cmac_key ctx) (cmac_data ctx)).

End OpenSSL.

(* ================================================================== *)
(** ** [crypto.c] *)

Module GP.
Import C OpenSSL.

(** *** Constants of the headers *)

(** Modelled from the spec: [globalplatform.h] is not part of the sources.
    The protocol numbers are those of SCP01, SCP02 and SCP03; an
    implementation option [iXY] is the byte [0xXY] its name spells; the
    security levels are the bit sets of the GlobalPlatform card
    specification (C-MAC [0x01], C-DEC [0x02], R-MAC [0x10]). *)
Definition GP211_SCP01 : Z := 0x01.
Definition GP211_SCP02 : Z := 0x02.
Definition GP211_SCP03 : Z := 0x03.

Definition GP211_SCP01_IMPL_i15 : Z := 0x15.
Definition GP211_SCP02_IMPL_i04 : Z := 0x04.
Definition GP211_SCP02_IMPL_i05 : Z := 0x05.
Definition GP211_SCP02_IMPL_i0A : Z := 0x0A.
Definition GP211_SCP02_IMPL_i0B : Z := 0x0B.
Definition GP211_SCP02_IMPL_i14 : Z := 0x14.
Definition GP211_SCP02_IMPL_i15 : Z := 0x15.
Definition GP211_SCP02_IMPL_i1A : Z := 0x1A.
Definition GP211_SCP02_IMPL_i1B : Z := 0x1B.
Definition GP211_SCP02_IMPL_i44 : Z := 0x44.
Definition GP211_SCP02_IMPL_i45 : Z := 0x45.
Definition GP211_SCP02_IMPL_i54 : Z := 0x54.
Definition GP211_SCP02_IMPL_i55 : Z := 0x55.
Definition GP211_SCP03_IMPL_i00 : Z := 0x00.

Definition GP211_SCP01_SECURITY_LEVEL_NO_SECURE_MESSAGING : Z := 0x00.
Definition GP211_SCP01_SECURITY_LEVEL_C_MAC : Z := 0x01.
Definition GP211_SCP01_SECURITY_LEVEL_C_DEC_C_MAC : Z := 0x03.
Definition GP211_SCP02_SECURITY_LEVEL_NO_SECURE_MESSAGING : Z := 0x00.
Definition GP211_SCP02_SECURITY_LEVEL_C_MAC : Z := 0x01.
Definition GP211_SCP02_SECURITY_LEVEL_C_DEC_C_MAC : Z := 0x03.
Definition GP211_SCP02_SECURITY_LEVEL_R_MAC : Z := 0x10.
Definition GP211_SCP02_SECURITY_LEVEL_C_MAC_R_MAC : Z := 0x11.
Definition GP211_SCP02_SECURITY_LEVEL_C_DEC_C_MAC_R_MAC : Z := 0x13.
Definition GP211_SCP03_SECURITY_LEVEL_NO_SECURE_MESSAGING : Z := 0x00.
Definition GP211_SCP03_SECURITY_LEVEL_C_MAC : Z := 0x01.
Definition GP211_SCP03_SECURITY_LEVEL_C_DEC_C_MAC : Z := 0x03.

(** Modelled from the spec: the two byte arrays of [crypto.h], "the fixed
    8-byte zero ICV" and the "8-byte [0x80 00 00 00 00 00 00 00] padding
    prefix". *)
Definition icv : list Z := [0; 0; 0; 0; 0; 0; 0; 0].
Definition padding : list Z := [0x80; 0; 0; 0; 0; 0; 0; 0].

(** Modelled from the spec: [convert_byte] of [util.h] widens a [BYTE] to
    its unsigned value. *)
Definition convert_byte (b : Z) : Z := Z.land b 255.

(** Modelled from the spec: [GP211_SECURITY_INFO] of [globalplatform.h],
    with the fields [crypto.c] uses; each key is a 16-byte array,
    [lastC_MAC] has the 16 bytes SCP03 chains and [lastR_MAC] 8. *)
Record GP211_SECURITY_INFO : Type := mkSecInfo {
  securityLevel : Z;
  secureChannelProtocol : Z;
  secureChannelProtocolImpl : Z;
  C_MACSessionKey : list Z;
  R_MACSessionKey : list Z;
  encryptionSessionKey : list Z;
  dataEncryptionSessionKey : list Z;
  lastC_MAC : list Z;
  lastR_MAC : list Z
}.

Definition set_lastC_MAC (si : GP211_SECURITY_INFO) (v : list Z) :=
  mkSecInfo (securityLevel si) (secureChannelProtocol si)
    (secureChannelProtocolImpl si) (C_MACSessionKey si) (R_MACSessionKey si)
    (encryptionSessionKey si) (dataEncryptionSessionKey si) v (lastR_MAC si).

Definition set_lastR_MAC (si : GP211_SECURITY_INFO) (v : list Z) :=
  mkSecInfo (securityLevel si) (secureChannelProtocol si)
    (secureChannelProtocolImpl si) (C_MACSessionKey si) (R_MACSessionKey si)
    (encryptionSessionKey si) (dataEncryptionSessionKey si) (lastC_MAC si) v.

(** *** Calls into OpenSSL *)

(** [result = f(...); if (result != 1) { OPGP_ERROR_CRYPT; goto end; }] *)
Definition evp {Mem A} (r : OpenSSL.returned A) : M Mem A :=
  match r with
  | One a => ret a
  | Zero => fail OPGP_ERROR_CRYPT
  | Wild => undef
  end.

(** The out-parameter of a function is the memory of its body; the function
    returns it with the status reached at [end:]. *)
Definition returns {Mem} (body : M Mem unit) (out : Mem) : result Mem :=
  match body out with
  | Val _ s => Success s
  | Fail e s => Failure e s
  | Undef => Undefined
  end.

(** [EVP_EncryptUpdate(&ctx, encryption + *encryptionLength, &outl, in, inl);
    *encryptionLength += outl;] *)
Definition update_encryption (ctx : EVP_CIPHER_CTX) (input : option (list Z))
    (inl : Z) : M (list Z) EVP_CIPHER_CTX :=
  bytes <- defined input ;;
  r <- evp (EVP_EncryptUpdate ctx bytes inl) ;;
  encryption <- get ;;
  put (encryption ++ snd r) ;;
  ret (fst r).

(** [EVP_EncryptUpdate(&ctx, mac, &outl, in, inl);] *)
Definition update_mac (ctx : EVP_CIPHER_CTX) (input : option (list Z))
    (inl : Z) : M (list Z) EVP_CIPHER_CTX :=
  bytes <- defined input ;;
  r <- evp (EVP_EncryptUpdate ctx bytes inl) ;;
  mac <- get ;;
  put (overwrite mac (snd r)) ;;
  ret (fst r).

(** [for (i=0; i<messageLength/8; i++)]: the number of rounds. *)
Definition whole_blocks (messageLength : Z) : nat :=
  Z.to_nat (Z.quot messageLength 8).

(** *** Encryption *)

(** [calculate_enc_cbc_SCP02]: the returned list is [encryption], of
    length [*encryptionLength]. *)
Definition calculate_enc_cbc_SCP02 (key message : list Z) (messageLength : Z)
  : result (list Z) :=
  returns (
    ctx <- evp (EVP_EncryptInit_ex EVP_des_ede_cbc key icv) ;;
    ctx <- for_loop (whole_blocks messageLength) 0
             (fun i ctx => update_encryption ctx (at_offset message (i * 8)) 8) ctx ;;
    let i := Z.of_nat (whole_blocks messageLength) in
    ctx <- (if negb (Z.rem messageLength 8 =? 0)
            then update_encryption ctx (at_offset message (i * 8)) (Z.rem messageLength 8)
            else ret ctx) ;;
    ctx <- update_encryption ctx (Some padding) (8 - Z.rem messageLength 8) ;;
    final <- evp (EVP_EncryptFinal_ex ctx) ;;
    encryption <- get ;;
    put (encryption ++ final)
  ) [].

(** The body shared, up to the cipher, by [calculate_enc_ecb_two_key_triple_des],
    [calculate_enc_ecb_single_des] and [calculate_enc_cbc]: padding is added
    only to a message that does not end on a block. *)
Definition encrypt_padding_if_needed (cipher : EVP_CIPHER) (key iv message : list Z)
    (messageLength : Z) : result (list Z) :=
  returns (
    ctx <- evp (EVP_EncryptInit_ex cipher key iv) ;;
    ctx <- for_loop (whole_blocks messageLength) 0
             (fun i ctx => update_encryption ctx (at_offset message (i * 8)) 8) ctx ;;
    let i := Z.of_nat (whole_blocks messageLength) in
    ctx <- (if negb (Z.rem messageLength 8 =? 0)
            then
              ctx <- update_encryption ctx (at_offset message (i * 8))
                       (Z.rem messageLength 8) ;;
              update_encryption ctx (Some padding) (8 - Z.rem messageLength 8)
            else ret ctx) ;;
    final <- evp (EVP_EncryptFinal_ex ctx) ;;
    encryption <- get ;;
    put (encryption ++ final)
  ) [].

Definition calculate_enc_ecb_two_key_triple_des (key message : list Z)
    (messageLength : Z) : result (list Z) :=
  encrypt_padding_if_needed EVP_des_ede key icv message messageLength.

Definition calculate_enc_ecb_single_des (key message : list Z)
    (messageLength : Z) : result (list Z) :=
  encrypt_padding_if_needed EVP_des_ecb key [] message messageLength.

Definition calculate_enc_cbc (key message : list Z) (messageLength : Z)
  : result (list Z) :=
  encrypt_padding_if_needed EVP_des_ede_cbc key icv message messageLength.

(** *** Message authentication codes *)

(** [calculate_MAC]: triple DES in CBC mode over the whole padded message;
    the returned list is [mac]. *)
Definition calculate_MAC (sessionKey message : list Z) (messageLength : Z)
    (icv : list Z) : result (list Z) :=
  returns (
    ctx <- evp (EVP_EncryptInit_ex EVP_des_ede_cbc sessionKey icv) ;;
    ctx <- for_loop (whole_blocks messageLength) 0
             (fun i ctx => update_mac ctx (at_offset message (i * 8)) 8) ctx ;;
    let i := Z.of_nat (whole_blocks messageLength) in
    ctx <- (if negb (Z.rem messageLength 8 =? 0)
            then update_mac ctx (at_offset message (i * 8)) (Z.rem messageLength 8)
            else ret ctx) ;;
    ctx <- update_mac ctx (Some padding) (8 - Z.rem messageLength 8) ;;
    final <- evp (EVP_EncryptFinal_ex ctx) ;;
    mac <- get ;;
    put (overwrite mac final)
  ) [].

(** [calculate_MAC_des_3des]: single DES in CBC mode under the left half of
    the key over the whole blocks, then triple DES over the rest and the
    padding.  [initialICV] is never [NULL] at the calls of this file. *)
Definition calculate_MAC_des_3des (_3des_key message : list Z)
    (messageLength : Z) (initialICV : list Z) : result (list Z) :=
  returns (
    _icv <- defined (read initialICV 8) ;;
    put _icv ;;
    des_key <- defined (read _3des_key 8) ;;
    ctx <- evp (EVP_EncryptInit_ex EVP_des_cbc des_key _icv) ;;
    ctx <- for_loop (whole_blocks messageLength) 0
             (fun i ctx => update_mac ctx (at_offset message (i * 8)) 8) ctx ;;
    let i := Z.of_nat (whole_blocks messageLength) in
    final <- evp (EVP_EncryptFinal_ex ctx) ;;
    mac <- get ;;
    put (overwrite mac final) ;;
    mac <- get ;;
    ctx <- evp (EVP_EncryptInit_ex EVP_des_ede_cbc _3des_key mac) ;;
    ctx <- (if negb (Z.rem messageLength 8 =? 0)
            then update_mac ctx (at_offset message (i * 8)) (Z.rem messageLength 8)
            else ret ctx) ;;
    ctx <- update_mac ctx (Some padding) (8 - Z.rem messageLength 8) ;;
    final <- evp (EVP_EncryptFinal_ex ctx) ;;
    mac <- get ;;
    put (overwrite mac final)
  ) [].

(** [calculate_MAC_aes]: AES-128 CMAC of the message. *)
Definition calculate_MAC_aes (key message : list Z) (messageLength : Z)
  : result (list Z) :=
  returns (
    ctx <- evp (CMAC_Init key) ;;
    ctx <- evp (CMAC_Update ctx message (to_size_t messageLength)) ;;
    mac <- evp (CMAC_Final ctx) ;;
    put mac
  ) [].

(** [calculate_CMAC_aes]: AES-128 CMAC of the chaining value followed by the
    message. *)
Definition calculate_CMAC_aes (sMacKey message : list Z) (messageLength : Z)
    (chainingValue : list Z) : result (list Z) :=
  returns (
    ctx <- evp (CMAC_Init sMacKey) ;;
    ctx <- evp (CMAC_Update ctx chainingValue 16) ;;
    ctx <- evp (CMAC_Update ctx message (to_size_t messageLength)) ;;
    mac <- evp (CMAC_Final ctx) ;;
    put mac
  ) [].

(** The callee writes through the out-parameter it was handed, whatever
    status it returns. *)
Definition call_out (r : result (list Z)) : M (list Z) unit :=
  match r with
  | Success a => out <- get ;; put (overwrite out a)
  | Failure e a => out <- get ;; put (overwrite out a) ;; fail e
  | Undefined => undef
  end.

(** [memcpy(blk + off, src, n)] into a local array or a [malloc] block. *)
Definition memcpy_block {Mem} (blk : block) (off : Z) (src : list Z) (n : Z)
  : M Mem block :=
  bytes <- defined (read src n) ;;
  defined (block_store blk off bytes).

(** *** Cryptograms and session keys *)

(** [calculate_card_cryptogram_SCP02]: the returned list is
    [cardCryptogram]. *)
Definition calculate_card_cryptogram_SCP02
    (S_ENCSessionKey sequenceCounter cardChallenge hostChallenge : list Z)
  : result (list Z) :=
  returns (
    let message := malloc 16 in
    message <- memcpy_block message 0 hostChallenge 8 ;;
    message <- memcpy_block message 8 sequenceCounter 2 ;;
    message <- memcpy_block message 10 cardChallenge 6 ;;
    message <- defined (block_bytes message) ;;
    call_out (calculate_MAC S_ENCSessionKey message 16 icv)
  ) [].

(** [create_session_key_SCP03]: the returned list is [sessionKey]. *)
Definition create_session_key_SCP03
    (key : list Z) (derivationConstant : Z) (cardChallenge hostChallenge : list Z)
  : result (list Z) :=
  returns (
    let derivation_data := malloc 32 in
    derivation_data <- defined (block_store derivation_data 0 (repeat 0 11)) ;;
    derivation_data <- defined (block_store derivation_data 11 [derivationConstant]) ;;
    derivation_data <- defined (block_store derivation_data 12 [0x00]) ;;
    derivation_data <- defined (block_store derivation_data 13 [0x00]) ;;
    derivation_data <- defined (block_store derivation_data 14 [0x80]) ;;
    derivation_data <- defined (block_store derivation_data 15 [0x01]) ;;
    derivation_data <- memcpy_block derivation_data 16 hostChallenge 8 ;;
    derivation_data <- memcpy_block derivation_data 24 cardChallenge 8 ;;
    derivation_data <- defined (block_bytes derivation_data) ;;
    call_out (calculate_MAC_aes key derivation_data 32)
  ) [].

(** *** The other cryptograms and session keys *)

(** [calculate_card_cryptogram_SCP01]: the returned list is
    [cardCryptogram]. *)
Definition calculate_card_cryptogram_SCP01
    (S_ENCSessionKey cardChallenge hostChallenge : list Z) : result (list Z) :=
  returns (
    let message := malloc 16 in
    message <- memcpy_block message 0 hostChallenge 8 ;;
    message <- memcpy_block message 8 cardChallenge 8 ;;
    message <- defined (block_bytes message) ;;
    call_out (calculate_MAC S_ENCSessionKey message 16 icv)
  ) [].

(** [calculate_host_cryptogram_SCP01]: the returned list is
    [hostCryptogram]. *)
Definition calculate_host_cryptogram_SCP01
    (S_ENCSessionKey cardChallenge hostChallenge : list Z) : result (list Z) :=
  returns (
    let message := malloc 16 in
    message <- memcpy_block message 0 cardChallenge 8 ;;
    message <- memcpy_block message 8 hostChallenge 8 ;;
    message <- defined (block_bytes message) ;;
    call_out (calculate_MAC S_ENCSessionKey message 16 icv)
  ) [].

(** [calculate_host_cryptogram_SCP02]: the returned list is
    [hostCryptogram]. *)
Definition calculate_host_cryptogram_SCP02
    (S_ENCSessionKey sequenceCounter cardChallenge hostChallenge : list Z)
  : result (list Z) :=
  returns (
    let message := malloc 16 in
    message <- memcpy_block message 0 sequenceCounter 2 ;;
    message <- memcpy_block message 2 cardChallenge 6 ;;
    message <- memcpy_block message 8 hostChallenge 8 ;;
    message <- defined (block_bytes message) ;;
    call_out (calculate_MAC S_ENCSessionKey message 16 icv)
  ) [].

(** Lines 241 to 249 and 387 to 395: the 32 bytes of [derivation_data] of a
    cryptogram of SCP03, [constant] being the byte written at index 11. *)
Definition cryptogram_derivation_data_SCP03 {Mem} (constant : Z)
    (cardChallenge hostChallenge : list Z) : M Mem (list Z) :=
  let derivation_data := malloc 32 in
  derivation_data <- defined (block_store derivation_data 0 (repeat 0 11)) ;;
  derivation_data <- defined (block_store derivation_data 11 [constant]) ;;
  derivation_data <- defined (block_store derivation_data 12 [0x00]) ;;
  derivation_data <- defined (block_store derivation_data 13 [0x00]) ;;
  derivation_data <- defined (block_store derivation_data 14 [0x40]) ;;
  derivation_data <- defined (block_store derivation_data 15 [0x01]) ;;
  derivation_data <- memcpy_block derivation_data 16 hostChallenge 8 ;;
  derivation_data <- memcpy_block derivation_data 24 cardChallenge 8 ;;
  defined (block_bytes derivation_data).

(** [status = calculate_MAC_aes(...); if (OPGP_ERROR_CHECK(status)) goto end;
    memcpy(out, mac, 8);] with [mac] a local array: the out-parameter is
    written only when the call succeeds. *)
Definition first_8_bytes_of_MAC_aes (key message : list Z) (messageLength : Z)
  : M (list Z) unit :=
  mac <- call (calculate_MAC_aes key message messageLength) ;;
  mac8 <- defined (read mac 8) ;;
  out <- get ;;
  put (overwrite out mac8).

(** [calculate_card_cryptogram_SCP03]: the returned list is
    [cardCryptogram]. *)
Definition calculate_card_cryptogram_SCP03
    (S_MACSessionKey cardChallenge hostChallenge : list Z) : result (list Z) :=
  returns (
    derivation_data <-
      cryptogram_derivation_data_SCP03 0x00 cardChallenge hostChallenge ;;
    first_8_bytes_of_MAC_aes S_MACSessionKey derivation_data 32
  ) [].

(** [calculate_host_cryptogram_SCP03]: the returned list is
    [hostCryptogram]. *)
Definition calculate_host_cryptogram_SCP03
    (S_MACSessionKey cardChallenge hostChallenge : list Z) : result (list Z) :=
  returns (
    derivation_data <-
      cryptogram_derivation_data_SCP03 0x01 cardChallenge hostChallenge ;;
    first_8_bytes_of_MAC_aes S_MACSessionKey derivation_data 32
  ) [].

(** [calculate_card_challenge_SCP03]: the returned list is [cardChallenge];
    [invokingAIDLength] is the length of [invokingAID].  [derivation_data]
    has 35 bytes, of which the first [derivation_data_length] are read. *)
Definition calculate_card_challenge_SCP03
    (S_ENC sequenceCounter invokingAID : list Z) : result (list Z) :=
  let invokingAIDLength := len invokingAID in
  returns (
    let derivation_data := malloc 35 in
    derivation_data <- defined (block_store derivation_data 0 (repeat 0 11)) ;;
    derivation_data <- defined (block_store derivation_data 11 [0x02]) ;;
    derivation_data <- defined (block_store derivation_data 12 [0x00]) ;;
    derivation_data <- defined (block_store derivation_data 13 [0x00]) ;;
    derivation_data <- defined (block_store derivation_data 14 [0x40]) ;;
    derivation_data <- defined (block_store derivation_data 15 [0x01]) ;;
    derivation_data <- memcpy_block derivation_data 16 sequenceCounter 3 ;;
    derivation_data <-
      memcpy_block derivation_data 19 invokingAID invokingAIDLength ;;
    let derivation_data_length := DWORD (19 + invokingAIDLength) in
    message <-
      defined (block_bytes
                 (firstn (Z.to_nat derivation_data_length) derivation_data)) ;;
    first_8_bytes_of_MAC_aes S_ENC message (to_int derivation_data_length)
  ) [].

(** [create_session_key_SCP01]: the returned list is [sessionKey]. *)
Definition create_session_key_SCP01 (key cardChallenge hostChallenge : list Z)
  : result (list Z) :=
  returns (
    let derivation_data := malloc 16 in
    cardChallenge_4 <- defined (at_offset cardChallenge 4) ;;
    derivation_data <- memcpy_block derivation_data 0 cardChallenge_4 4 ;;
    derivation_data <- memcpy_block derivation_data 4 hostChallenge 4 ;;
    derivation_data <- memcpy_block derivation_data 8 cardChallenge 4 ;;
    hostChallenge_4 <- defined (at_offset hostChallenge 4) ;;
    derivation_data <- memcpy_block derivation_data 12 hostChallenge_4 4 ;;
    derivation_data <- defined (block_bytes derivation_data) ;;
    call_out (calculate_enc_ecb_two_key_triple_des key derivation_data 16)
  ) [].

(** [create_session_key_SCP02]: the returned list is [sessionKey]. *)
Definition create_session_key_SCP02 (key constant sequenceCounter : list Z)
  : result (list Z) :=
  returns (
    let derivation_data := malloc 16 in
    derivation_data <- memcpy_block derivation_data 0 constant 2 ;;
    derivation_data <- memcpy_block derivation_data 2 sequenceCounter 2 ;;
    derivation_data <-
      for_loop 12 4
        (fun i derivation_data => defined (block_store derivation_data i [0x00]))
        derivation_data ;;
    derivation_data <- defined (block_bytes derivation_data) ;;
    call_out (calculate_enc_cbc key derivation_data 16)
  ) [].

(** [calculate_MAC_right_des_3des]: single DES in CBC mode under the right
    half of the key over the whole blocks, then triple DES, started again
    from [icv], over the rest and the padding; the returned list is [mac]. *)
Definition calculate_MAC_right_des_3des (key message : list Z)
    (messageLength : Z) : result (list Z) :=
  returns (
    key_8 <- defined (at_offset key 8) ;;
    des_key <- defined (read key_8 8) ;;
    ctx <- evp (EVP_EncryptInit_ex EVP_des_cbc des_key icv) ;;
    ctx <- for_loop (whole_blocks messageLength) 0
             (fun i ctx => update_mac ctx (at_offset message (i * 8)) 8) ctx ;;
    let i := Z.of_nat (whole_blocks messageLength) in
    final <- evp (EVP_EncryptFinal_ex ctx) ;;
    mac <- get ;;
    put (overwrite mac final) ;;
    ctx <- evp (EVP_EncryptInit_ex EVP_des_ede_cbc key icv) ;;
    ctx <- (if negb (Z.rem messageLength 8 =? 0)
            then update_mac ctx (at_offset message (i * 8)) (Z.rem messageLength 8)
            else ret ctx) ;;
    ctx <- update_mac ctx (Some padding) (8 - Z.rem messageLength 8) ;;
    final <- evp (EVP_EncryptFinal_ex ctx) ;;
    mac <- get ;;
    put (overwrite mac final)
  ) [].

(** *** Receipts *)

(** [validate_receipt]; there is no out-parameter. *)
Definition validate_receipt (validationData : list Z) (validationDataLength : Z)
    (receipt receiptKey : list Z) : result unit :=
  returns (
    mac <- call (calculate_MAC_des_3des receiptKey validationData
                   (to_int validationDataLength) icv) ;;
    mac8 <- defined (read mac 8) ;;
    receipt8 <- defined (read receipt 8) ;;
    if negb (Bytes.eqb mac8 receipt8) then fail OPGP_ERROR_VALIDATION_FAILED
    else ret tt
  ) tt.

(** The block [validate_delete_receipt] fills before it calls
    [validate_receipt]: lines 988 to 1003, [malloc] taken to succeed.
    [cardUniqueDataLength] and [AIDLength] are the lengths of the two
    buffers. *)
Definition delete_receipt_validation_data {Mem} (confirmationCounter : Z)
    (cardUniqueData AID : list Z) : M Mem block :=
  let cardUniqueDataLength := len cardUniqueData in
  let AIDLength := len AID in
  let i := 0 in
  let validationDataLength :=
    DWORD (1 + 2 + 1 + cardUniqueDataLength + 1 + AIDLength) in
  let validationData := malloc validationDataLength in
  validationData <- defined (block_store validationData i [2]) ;;
  let i := i + 1 in
  validationData <-
    defined (block_store validationData i
               [BYTE (Z.shiftr (Z.land confirmationCounter 0x0000FF00) 8)]) ;;
  let i := i + 1 in
  validationData <-
    defined (block_store validationData i
               [BYTE (Z.land confirmationCounter 0x000000FF)]) ;;
  let i := i + 1 in
  validationData <-
    defined (block_store validationData i [BYTE cardUniqueDataLength]) ;;
  let i := i + 1 in
  validationData <-
    memcpy_block validationData 0 cardUniqueData cardUniqueDataLength ;;
  let i := DWORD (i + cardUniqueDataLength) in
  validationData <- defined (block_store validationData i [BYTE AIDLength]) ;;
  let i := DWORD (i + 1) in
  validationData <- memcpy_block validationData 0 AID AIDLength ;;
  ret validationData.

(** [validate_delete_receipt]; [receipt] is [receiptData.receipt]. *)
Definition validate_delete_receipt (confirmationCounter : Z)
    (cardUniqueData receiptKey receipt AID : list Z) : result unit :=
  let validationDataLength :=
    DWORD (1 + 2 + 1 + len cardUniqueData + 1 + len AID) in
  returns (
    validationData <-
      delete_receipt_validation_data confirmationCounter cardUniqueData AID ;;
    validationData <- defined (block_bytes validationData) ;;
    call (validate_receipt validationData validationDataLength receipt receiptKey)
  ) tt.

(** The block [validate_install_receipt] fills before it calls
    [validate_receipt]: lines 1453 to 1471, [malloc] taken to succeed. *)
Definition install_receipt_validation_data {Mem} (confirmationCounter : Z)
    (cardUniqueData executableLoadFileAID applicationAID : list Z)
  : M Mem block :=
  let cardUniqueDataLength := len cardUniqueData in
  let executableLoadFileAIDLength := len executableLoadFileAID in
  let applicationAIDLength := len applicationAID in
  let i := 0 in
  let validationDataLength :=
    DWORD (1 + 2 + 1 + cardUniqueDataLength + 1 + executableLoadFileAIDLength
           + 1 + applicationAIDLength) in
  let validationData := malloc validationDataLength in
  validationData <- defined (block_store validationData i [2]) ;;
  let i := i + 1 in
  validationData <-
    defined (block_store validationData i
               [BYTE (Z.shiftr (Z.land confirmationCounter 0x0000FF00) 8)]) ;;
  let i := i + 1 in
  validationData <-
    defined (block_store validationData i
               [BYTE (Z.land confirmationCounter 0x000000FF)]) ;;
  let i := i + 1 in
  validationData <-
    defined (block_store validationData i [BYTE cardUniqueDataLength]) ;;
  let i := i + 1 in
  validationData <-
    memcpy_block validationData 0 cardUniqueData cardUniqueDataLength ;;
  let i := DWORD (i + cardUniqueDataLength) in
  validationData <-
    defined (block_store validationData i [BYTE executableLoadFileAIDLength]) ;;
  let i := DWORD (i + 1) in
  validationData <-
    memcpy_block validationData 0 executableLoadFileAID
      executableLoadFileAIDLength ;;
  let i := DWORD (i + executableLoadFileAIDLength) in
  validationData <-
    defined (block_store validationData i [BYTE applicationAIDLength]) ;;
  let i := DWORD (i + 1) in
  validationData <-
    memcpy_block validationData 0 applicationAID applicationAIDLength ;;
  ret validationData.

(** [validate_install_receipt]; [receipt] is [receiptData.receipt]. *)
Definition validate_install_receipt (confirmationCounter : Z)
    (cardUniqueData receiptKey receipt executableLoadFileAID applicationAID
       : list Z) : result unit :=
  let validationDataLength :=
    DWORD (1 + 2 + 1 + len cardUniqueData + 1 + len executableLoadFileAID
           + 1 + len applicationAID) in
  returns (
    validationData <-
      install_receipt_validation_data confirmationCounter cardUniqueData
        executableLoadFileAID applicationAID ;;
    validationData <- defined (block_bytes validationData) ;;
    call (validate_receipt validationData validationDataLength receipt receiptKey)
  ) tt.

(** The block [validate_load_receipt] fills: lines 1497 to 1515, [malloc]
    taken to succeed. *)
Definition load_receipt_validation_data {Mem} (confirmationCounter : Z)
    (cardUniqueData executableLoadFileAID securityDomainAID : list Z)
  : M Mem block :=
  let cardUniqueDataLength := len cardUniqueData in
  let executableLoadFileAIDLength := len executableLoadFileAID in
  let securityDomainAIDLength := len securityDomainAID in
  let i := 0 in
  let validationDataLength :=
    DWORD (1 + 2 + 1 + cardUniqueDataLength + 1 + executableLoadFileAIDLength
           + 1 + securityDomainAIDLength) in
  let validationData := malloc validationDataLength in
  validationData <- defined (block_store validationData i [2]) ;;
  let i := i + 1 in
  validationData <-
    defined (block_store validationData i
               [BYTE (Z.shiftr (Z.land confirmationCounter 0x0000FF00) 8)]) ;;
  let i := i + 1 in
  validationData <-
    defined (block_store validationData i
               [BYTE (Z.land confirmationCounter 0x000000FF)]) ;;
  let i := i + 1 in
  validationData <-
    defined (block_store validationData i [BYTE cardUniqueDataLength]) ;;
  let i := i + 1 in
  validationData <-
    memcpy_block validationData 0 cardUniqueData cardUniqueDataLength ;;
  let i := DWORD (i + cardUniqueDataLength) in
  validationData <-
    defined (block_store validationData i [BYTE executableLoadFileAIDLength]) ;;
  let i := DWORD (i + 1) in
  validationData <-
    memcpy_block validationData 0 executableLoadFileAID
      executableLoadFileAIDLength ;;
  let i := DWORD (i + executableLoadFileAIDLength) in
  validationData <-
    defined (block_store validationData i [BYTE securityDomainAIDLength]) ;;
  let i := DWORD (i + 1) in
  validationData <-
    memcpy_block validationData 0 securityDomainAID securityDomainAIDLength ;;
  ret validationData.

(** [validate_load_receipt]; [receipt] is [receiptData.receipt]. *)
Definition validate_load_receipt (confirmationCounter : Z)
    (cardUniqueData receiptKey receipt executableLoadFileAID securityDomainAID
       : list Z) : result unit :=
  let validationDataLength :=
    DWORD (1 + 2 + 1 + len cardUniqueData + 1 + len executableLoadFileAID
           + 1 + len securityDomainAID) in
  returns (
    validationData <-
      load_receipt_validation_data confirmationCounter cardUniqueData
        executableLoadFileAID securityDomainAID ;;
    validationData <- defined (block_bytes validationData) ;;
    call (validate_receipt validationData validationDataLength receipt receiptKey)
  ) tt.

(** *** R-MAC *)

(** [GP211_calculate_R_MAC]: the returned list is [mac]; [malloc] is taken
    to succeed. *)
Definition GP211_calculate_R_MAC (commandHeader commandData : list Z)
    (commandDataLength : Z) (responseData : list Z) (responseDataLength : Z)
    (statusWord : list Z) (secInfo : GP211_SECURITY_INFO) : result (list Z) :=
  returns (
    let offset := 0 in
    let r_MacDataLength :=
      DWORD (4 + 1 + commandDataLength + 1 + responseDataLength + 2) in
    let r_MacData := malloc r_MacDataLength in
    r_MacData <- memcpy_block r_MacData 0 commandHeader 4 ;;
    let offset := offset + 4 in
    r_MacData <- defined (block_store r_MacData offset [BYTE commandDataLength]) ;;
    let offset := offset + 1 in
    r_MacData <- memcpy_block r_MacData offset commandData commandDataLength ;;
    let offset := DWORD (offset + commandDataLength) in
    r_MacData <- defined (block_store r_MacData offset [BYTE (responseDataLength mod 256)]) ;;
    let offset := DWORD (offset + 1) in
    r_MacData <- memcpy_block r_MacData offset responseData responseDataLength ;;
    let offset := DWORD (offset + responseDataLength) in
    r_MacData <- memcpy_block r_MacData offset statusWord 2 ;;
    r_MacData <- defined (block_bytes r_MacData) ;;
    call_out (calculate_MAC_des_3des (R_MACSessionKey secInfo) r_MacData
                (to_int r_MacDataLength) (lastR_MAC secInfo))
  ) [].

Inductive apdu_case : Type := Case1 | Case2 | Case3 | Case4.

(** Lines 1615 to 1642 of [GP211_check_R_MAC]: the two operands of the
    final [memcmp], that is the first 8 bytes of [mac] as
    [GP211_calculate_R_MAC] left them, whose status is not looked at, and
    the 8 bytes of the response before its status word. *)
Definition check_R_MAC_operands {Mem} (apduCommand responseData : list Z)
    (si : GP211_SECURITY_INFO) : M Mem (list Z * list Z) :=
  let apduCommandLength := len apduCommand in
  let responseDataLength := len responseData in
  lc <- (if apduCommandLength =? 4 then ret 0
         else if apduCommandLength =? 5 then ret 0
         else
           lc <- defined (load apduCommand 4) ;;
           if convert_byte lc + 5 =? apduCommandLength then ret lc
           else if convert_byte lc + 5 + 1 =? apduCommandLength then ret lc
           else fail OPGP_ERROR_UNRECOGNIZED_APDU_COMMAND) ;;
  let le := DWORD (responseDataLength - 2) in
  statusWord <- defined (at_offset responseData (responseDataLength - 2)) ;;
  mac <- match GP211_calculate_R_MAC apduCommand apduCommand lc
                 responseData le statusWord si with
         | Success mac | Failure _ mac => ret mac
         | Undefined => undef
         end ;;
  computed <- defined (read mac 8) ;;
  received <- defined (at_offset responseData (responseDataLength - 10)) ;;
  received <- defined (read received 8) ;;
  ret (computed, received).

(** [GP211_check_R_MAC]: the out-parameter is [*secInfo] ([None] for a
    [NULL] pointer). *)
Definition GP211_check_R_MAC (apduCommand responseData : list Z)
    (secInfo : option GP211_SECURITY_INFO)
  : result (option GP211_SECURITY_INFO) :=
  match secInfo with
  | None => Success None
  | Some si =>
    returns (
      if negb (securityLevel si =? GP211_SCP02_SECURITY_LEVEL_C_DEC_C_MAC_R_MAC)
         && negb (securityLevel si =? GP211_SCP02_SECURITY_LEVEL_R_MAC)
         && negb (securityLevel si =? GP211_SCP02_SECURITY_LEVEL_C_MAC_R_MAC)
      then ret tt
      else
        operands <- check_R_MAC_operands apduCommand responseData si ;;
        if negb (Bytes.eqb (fst operands) (snd operands))
        then fail GP211_ERROR_VALIDATION_R_MAC
        else
          last <- defined (store (lastR_MAC si) 0 (fst operands)) ;;
          put (Some (set_lastR_MAC si last))
    ) (Some si)
  end.

(** *** Wrapping a command APDU *)

(** The memory [wrap_command] writes: the caller's output buffer, whose size
    the caller passes in [*wrappedApduCommandLength], and [*secInfo]. *)
Record wrap_mem : Type := mkMem {
  buffer : list Z;                 (* [wrappedApduCommand] *)
  sec : GP211_SECURITY_INFO        (* [*secInfo] *)
}.

(** [wrappedApduCommand[i]] *)
Definition peek (i : Z) : M wrap_mem Z :=
  m <- get ;; defined (load (buffer m) i).

(** [memcpy(wrappedApduCommand + off, data, |data|)] *)
Definition copy_out (off : Z) (data : list Z) : M wrap_mem unit :=
  m <- get ;;
  buf <- defined (store (buffer m) off data) ;;
  put (mkMem buf (sec m)).

(** [wrappedApduCommand[i] = v] *)
Definition poke (i v : Z) : M wrap_mem unit := copy_out i [v].

(** [memcpy(secInfo->lastC_MAC, mac, n)] *)
Definition save_lastC_MAC (mac : list Z) (n : Z) : M wrap_mem unit :=
  m <- get ;;
  bytes <- defined (read mac n) ;;
  last <- defined (store (lastC_MAC (sec m)) 0 bytes) ;;
  put (mkMem (buffer m) (set_lastC_MAC (sec m) last)).

(** Lines 1138 to 1163: [caseAPDU], [wrappedLength], [le] and
    [apduCommandLength], which Case 4 decrements. *)
Definition classify_apdu (apduCommand : list Z) : M wrap_mem (apdu_case * Z * Z * Z) :=
  let apduCommandLength := len apduCommand in
  if apduCommandLength =? 4 then ret (Case1, 4, 0, apduCommandLength)
  else if apduCommandLength =? 5 then
    le <- defined (load apduCommand 4) ;;
    ret (Case2, 4, le, apduCommandLength)
  else
    lc <- defined (load apduCommand 4) ;;
    if convert_byte lc + 5 =? apduCommandLength then
      ret (Case3, convert_byte lc + 5, 0, apduCommandLength)
    else if convert_byte lc + 5 + 1 =? apduCommandLength then
      le <- defined (load apduCommand (apduCommandLength - 1)) ;;
      ret (Case4, convert_byte lc + 5, le, apduCommandLength - 1)
    else fail OPGP_ERROR_UNRECOGNIZED_APDU_COMMAND.

(** Lines 1175 to 1229: the two checks of the maximum length. *)
Definition check_max_length (si : GP211_SECURITY_INFO) (caseAPDU : apdu_case)
    (apduCommandLength : Z) : M wrap_mem unit :=
  (if (securityLevel si =? GP211_SCP01_SECURITY_LEVEL_C_DEC_C_MAC)
      || (securityLevel si =? GP211_SCP02_SECURITY_LEVEL_C_DEC_C_MAC)
      || (securityLevel si =? GP211_SCP02_SECURITY_LEVEL_C_DEC_C_MAC_R_MAC)
      || (securityLevel si =? GP211_SCP03_SECURITY_LEVEL_C_DEC_C_MAC)
   then
     match caseAPDU with
     | Case3 =>
         let max_APDU_cLength :=
           if negb (secureChannelProtocol si =? GP211_SCP03)
           then 239 + 8 + 5 else 231 + 8 + 5 in
         if apduCommandLength >? max_APDU_cLength
         then fail OPGP_ERROR_COMMAND_SECURE_MESSAGING_TOO_LARGE else ret tt
     | Case4 =>
         let max_APDU_cLength :=
           if negb (secureChannelProtocol si =? GP211_SCP03)
           then 239 + 8 + 5 + 1 else 231 + 8 + 5 + 1 in
         if apduCommandLength >? max_APDU_cLength
         then fail OPGP_ERROR_COMMAND_SECURE_MESSAGING_TOO_LARGE else ret tt
     | _ => ret tt
     end
   else ret tt) ;;
  (if (securityLevel si =? GP211_SCP01_SECURITY_LEVEL_C_MAC)
      || (securityLevel si =? GP211_SCP02_SECURITY_LEVEL_C_MAC)
      || (securityLevel si =? GP211_SCP02_SECURITY_LEVEL_C_MAC_R_MAC)
      || (securityLevel si =? GP211_SCP03_SECURITY_LEVEL_C_MAC)
   then
     match caseAPDU with
     | Case3 =>
         if apduCommandLength >? 247 + 8 + 5
         then fail OPGP_ERROR_COMMAND_SECURE_MESSAGING_TOO_LARGE else ret tt
     | Case4 =>
         if apduCommandLength >? 247 + 8 + 5 + 1
         then fail OPGP_ERROR_COMMAND_SECURE_MESSAGING_TOO_LARGE else ret tt
     | _ => ret tt
     end
   else ret tt).

(** The [switch (caseAPDU)] that makes room for the MAC and the line that
    sets the class byte; the source has this text twice (lines 1246 to 1268
    and 1342 to 1361).  [avail] is [*wrappedApduCommandLength]; the new
    [wrappedLength] is returned. *)
Definition make_room_for_mac (apduCommand : list Z) (avail : Z)
    (caseAPDU : apdu_case) (apduCommandLength wrappedLength : Z) : M wrap_mem Z :=
  wrappedLength <-
    match caseAPDU with
    | Case1 | Case2 =>
        if avail <? apduCommandLength + 8 + 1
        then fail OPGP_ERROR_INSUFFICIENT_BUFFER
        else poke 4 0x08 ;; ret (wrappedLength + (8 + 1))
    | Case3 | Case4 =>
        if avail <? apduCommandLength + 8
        then fail OPGP_ERROR_INSUFFICIENT_BUFFER
        else lc <- peek 4 ;; poke 4 (BYTE (lc + 8)) ;; ret (wrappedLength + 8)
    end ;;
  cla <- defined (load apduCommand 0) ;;
  poke 0 (Z.lor cla 0x04) ;;
  ret wrappedLength.

(** The implementation options that compute the C-MAC on the modified APDU. *)
Definition mac_on_modified_apdu (si : GP211_SECURITY_INFO) : bool :=
  (secureChannelProtocolImpl si =? GP211_SCP02_IMPL_i04)
  || (secureChannelProtocolImpl si =? GP211_SCP02_IMPL_i05)
  || (secureChannelProtocolImpl si =? GP211_SCP02_IMPL_i14)
  || (secureChannelProtocolImpl si =? GP211_SCP02_IMPL_i15)
  || (secureChannelProtocolImpl si =? GP211_SCP02_IMPL_i55)
  || (secureChannelProtocolImpl si =? GP211_SCP02_IMPL_i45)
  || (secureChannelProtocolImpl si =? GP211_SCP02_IMPL_i54)
  || (secureChannelProtocolImpl si =? GP211_SCP02_IMPL_i44)
  || ((secureChannelProtocolImpl si =? GP211_SCP03_IMPL_i00)
      && (secureChannelProtocol si =? GP211_SCP03)).

(** The implementation options that compute it on the unmodified APDU. *)
Definition mac_on_unmodified_apdu (si : GP211_SECURITY_INFO) : bool :=
  (secureChannelProtocolImpl si =? GP211_SCP02_IMPL_i0A)
  || (secureChannelProtocolImpl si =? GP211_SCP02_IMPL_i0B)
  || (secureChannelProtocolImpl si =? GP211_SCP02_IMPL_i1A)
  || (secureChannelProtocolImpl si =? GP211_SCP02_IMPL_i1B).

(** The SCP02 options whose ICV is the encrypted last C-MAC. *)
Definition icv_encrypted_SCP02 (si : GP211_SECURITY_INFO) : bool :=
  (secureChannelProtocolImpl si =? GP211_SCP02_IMPL_i14)
  || (secureChannelProtocolImpl si =? GP211_SCP02_IMPL_i15)
  || (secureChannelProtocolImpl si =? GP211_SCP02_IMPL_i1A)
  || (secureChannelProtocolImpl si =? GP211_SCP02_IMPL_i1B)
  || (secureChannelProtocolImpl si =? GP211_SCP02_IMPL_i54)
  || (secureChannelProtocolImpl si =? GP211_SCP02_IMPL_i55).

(** Lines 1271 to 1302, "ICV encryption": the content of [C_MAC_ICV], which
    stays unwritten for a protocol other than SCP01 and SCP02. *)
Definition compute_C_MAC_ICV (si : GP211_SECURITY_INFO) : M wrap_mem (list Z) :=
  if secureChannelProtocol si =? GP211_SCP02 then
    if icv_encrypted_SCP02 si then
      call (calculate_enc_ecb_single_des (C_MACSessionKey si) (lastC_MAC si) 8)
    else defined (read (lastC_MAC si) 8)
  else if secureChannelProtocol si =? GP211_SCP01 then
    if secureChannelProtocolImpl si =? GP211_SCP01_IMPL_i15 then
      call (calculate_enc_ecb_two_key_triple_des (C_MACSessionKey si) (lastC_MAC si) 8)
    else defined (read (lastC_MAC si) 8)
  else ret [].

(** Lines 1304 to 1328, "MAC calculation": the content of [mac].  The
    status of [calculate_CMAC_aes] is not looked at. *)
Definition compute_C_MAC (si : GP211_SECURITY_INFO) (wrappedLength : Z)
    (C_MAC_ICV : list Z) : M wrap_mem (list Z) :=
  m <- get ;;
  let messageLength := to_int (DWORD (wrappedLength - 8)) in
  if secureChannelProtocol si =? GP211_SCP02 then
    call (calculate_MAC_des_3des (C_MACSessionKey si) (buffer m)
            messageLength C_MAC_ICV)
  else if secureChannelProtocol si =? GP211_SCP01 then
    call (calculate_MAC (C_MACSessionKey si) (buffer m)
            messageLength C_MAC_ICV)
  else if secureChannelProtocol si =? GP211_SCP03 then
    if securityLevel si =? GP211_SCP03_SECURITY_LEVEL_C_MAC then
      match calculate_CMAC_aes (C_MACSessionKey si) (buffer m)
              messageLength (lastC_MAC si) with
      | Success mac | Failure _ mac => ret mac
      | Undefined => undef
      end
    else ret []
  else ret [].

(** The call that encrypts the data field into [encryption[240]], lines
    1383 to 1418; [tail] is 0 for Case 1 and 3 and 1, the [Le] byte, for
    Case 2 and 4. *)
Definition encrypt_data_field (si : GP211_SECURITY_INFO) (wrappedLength tail : Z)
  : M wrap_mem (list Z) :=
  m <- get ;;
  encryption <-
    (if secureChannelProtocol si =? GP211_SCP02 then
       message <- defined (at_offset (buffer m) 5) ;;
       call (calculate_enc_cbc_SCP02 (encryptionSessionKey si) message
               (to_int (DWORD (wrappedLength - 5 - 8 - tail))))
     else
       message <- defined (at_offset (buffer m) 4) ;;
       call (calculate_enc_cbc (encryptionSessionKey si) message
               (to_int (DWORD (wrappedLength - 4 - 8 - tail))))) ;;
  if len encryption >? 240 then undef else ret encryption.

(** Lines 1166 to 1432: the body for an active security level; the final
    [wrappedLength] is returned.  [si] is [*secInfo] on entry: the only
    field the body writes is [lastC_MAC], and nothing reads it afterwards. *)
Definition wrap_secured (apduCommand : list Z) (avail : Z)
    (si : GP211_SECURITY_INFO) (caseAPDU : apdu_case)
    (apduCommandLength wrappedLength le : Z) : M wrap_mem Z :=
  check_max_length si caseAPDU apduCommandLength ;;
  wrappedLength <-
    (if mac_on_modified_apdu si
     then make_room_for_mac apduCommand avail caseAPDU apduCommandLength wrappedLength
     else ret wrappedLength) ;;
  C_MAC_ICV <- compute_C_MAC_ICV si ;;
  mac <- compute_C_MAC si wrappedLength C_MAC_ICV ;;
  wrappedLength <-
    (if mac_on_unmodified_apdu si
     then make_room_for_mac apduCommand avail caseAPDU apduCommandLength wrappedLength
     else ret wrappedLength) ;;
  (if negb (secureChannelProtocol si =? GP211_SCP03) then save_lastC_MAC mac 8
   else if securityLevel si =? GP211_SCP03_SECURITY_LEVEL_C_MAC
        then save_lastC_MAC mac 16
        else ret tt) ;;
  mac8 <- defined (read mac 8) ;;
  copy_out (wrappedLength - 8) mac8 ;;
  wrappedLength <-
    (match caseAPDU with
     | Case2 | Case4 => poke wrappedLength le ;; ret (wrappedLength + 1)
     | _ => ret wrappedLength
     end) ;;
  if (securityLevel si =? GP211_SCP01_SECURITY_LEVEL_C_DEC_C_MAC)
     || (securityLevel si =? GP211_SCP02_SECURITY_LEVEL_C_DEC_C_MAC)
     || (securityLevel si =? GP211_SCP02_SECURITY_LEVEL_C_DEC_C_MAC_R_MAC)
  then
    lc <- peek 4 ;;
    poke 4 (BYTE (lc - 8)) ;;
    encryption <-
      (match caseAPDU with
       | Case1 | Case3 => encrypt_data_field si wrappedLength 0
       | Case2 | Case4 => encrypt_data_field si wrappedLength 1
       end) ;;
    let encryptionLength := len encryption in
    let wrappedLength := DWORD (encryptionLength + 4 + 1 + 8) in
    if avail <? wrappedLength then fail OPGP_ERROR_INSUFFICIENT_BUFFER
    else
      copy_out 5 encryption ;;
      poke 4 (BYTE (encryptionLength + 8)) ;;
      copy_out (encryptionLength + 5) mac8 ;;
      match caseAPDU with
      | Case2 | Case4 =>
          if avail <? wrappedLength + 1 then fail OPGP_ERROR_INSUFFICIENT_BUFFER
          else poke wrappedLength le ;; ret (wrappedLength + 1)
      | _ => ret wrappedLength
      end
  else ret wrappedLength.

(** What [wrap_command] leaves in its out-parameters. *)
Record wrapped : Type := mkWrapped {
  wrapped_bytes : list Z;      (* the buffer [wrappedApduCommand] *)
  wrapped_length : Z;          (* [*wrappedApduCommandLength] *)
  wrapped_secInfo : option GP211_SECURITY_INFO   (* [*secInfo] *)
}.

(** The only error of the cipher functions, and the errors of the steps of
    [wrap_command] that come after its length check. *)
Definition only_crypt (e : error_code) : Prop := e = OPGP_ERROR_CRYPT.

Definition buffer_or_crypt (e : error_code) : Prop :=
  e = OPGP_ERROR_INSUFFICIENT_BUFFER \/ e = OPGP_ERROR_CRYPT.

Definition no_secure_messaging (si : GP211_SECURITY_INFO) : bool :=
  (securityLevel si =? GP211_SCP02_SECURITY_LEVEL_NO_SECURE_MESSAGING)
  || (securityLevel si =? GP211_SCP01_SECURITY_LEVEL_NO_SECURE_MESSAGING)
  || (securityLevel si =? GP211_SCP03_SECURITY_LEVEL_NO_SECURE_MESSAGING).

(** [wrap_command]: [wrappedApduCommand] is the caller's buffer as it is
    before the call and [*wrappedApduCommandLength] its size;
    [apduCommandLength] is the length of [apduCommand]; [secInfo] is [None]
    for a [NULL] pointer. *)
Definition wrap_command (apduCommand wrappedApduCommand : list Z)
    (secInfo : option GP211_SECURITY_INFO) : result wrapped :=
  let apduCommandLength := len apduCommand in
  let wrappedApduCommandLength := len wrappedApduCommand in
  if wrappedApduCommandLength <? apduCommandLength then
    Failure OPGP_ERROR_INSUFFICIENT_BUFFER
      (mkWrapped wrappedApduCommand wrappedApduCommandLength secInfo)
  else
    match store wrappedApduCommand 0 apduCommand with
    | None => Undefined
    | Some copied =>
      match secInfo with
      | None => Success (mkWrapped copied apduCommandLength None)
      | Some si =>
        if no_secure_messaging si then
          Success (mkWrapped copied apduCommandLength (Some si))
        else if (secureChannelProtocol si =? GP211_SCP03)
                && (securityLevel si =? GP211_SCP03_SECURITY_LEVEL_C_DEC_C_MAC)
        then
          Failure OPGP_ERROR_SCP03_SECURITY_LEVEL_3_NOT_SUPPORTED
            (mkWrapped copied wrappedApduCommandLength (Some si))
        else
          match
            (shape <- classify_apdu apduCommand ;;
             let '(caseAPDU, wrappedLength, le, apduCommandLength) := shape in
             if negb (no_secure_messaging si) then
               wrap_secured apduCommand wrappedApduCommandLength si caseAPDU
                 apduCommandLength wrappedLength le
             else ret wrappedApduCommandLength) (mkMem copied si)
          with
          | Val wrappedLength m =>
              Success (mkWrapped (buffer m) wrappedLength (Some (sec m)))
          | Fail e m =>
              Failure e (mkWrapped (buffer m) wrappedApduCommandLength
                           (Some (sec m)))
          | Undef => Undefined
          end
      end
    end.

(** *** The data field of a key *)

(** What [get_key_data_field] writes: the buffer [keyDataField],
    [*keyDataFieldLength] and [keyCheckValue]. *)
Record key_field : Type := mkKeyField {
  field_bytes : list Z;
  field_length : Z;
  check_value : list Z
}.

(** [memcpy(keyDataField + i, data, |data|)] *)
Definition write_field (i : Z) (data : list Z) : M key_field unit :=
  m <- get ;;
  buf <- defined (store (field_bytes m) i data) ;;
  put (mkKeyField buf (field_length m) (check_value m)).

(** The key is encrypted with CBC and padding under these options, in ECB
    mode under the others. *)
Definition key_encrypted_cbc (si : GP211_SECURITY_INFO) : bool :=
  (secureChannelProtocolImpl si =? GP211_SCP02_IMPL_i0B)
  || (secureChannelProtocolImpl si =? GP211_SCP02_IMPL_i1B)
  || (secureChannelProtocolImpl si =? GP211_SCP02_IMPL_i1A)
  || (secureChannelProtocolImpl si =? GP211_SCP02_IMPL_i0A).

(** A callee that writes into a local array of [size] bytes. *)
Definition call_into {Mem} (size : Z) (r : result (list Z)) : M Mem (list Z) :=
  bytes <- call r ;;
  if len bytes >? size then undef else ret bytes.

(** The end of [get_key_data_field], from [keyDataField[i++] = 0x03] on:
    the length of the key check value, then the key check value, which is
    copied to [keyCheckValue] as well. *)
Definition write_key_check_value (keyData : list Z) (i : Z) : M key_field unit :=
  let keyCheckTest := [0x00; 0x00; 0x00; 0x00; 0x00; 0x00; 0x00; 0x00] in
  write_field i [0x03] ;;
  let i := DWORD (i + 1) in
  dummy <-
    call_into 16 (calculate_enc_ecb_two_key_triple_des keyData keyCheckTest 8) ;;
  dummy3 <- defined (read dummy 3) ;;
  write_field i dummy3 ;;
  m <- get ;;
  check <- defined (store (check_value m) 0 dummy3) ;;
  let i := DWORD (i + 3) in
  put (mkKeyField (field_bytes m) i check).

(** [get_key_data_field]: [keyDataLength] is the length of [keyData],
    [keyDataField] the caller's buffer and [keyDataFieldLength] the value of
    [*keyDataFieldLength] on entry; [secInfo] is [None] for a [NULL]
    pointer.  [encrypted_key] has 24 bytes and [dummy] 16. *)
Definition get_key_data_field (secInfo : option GP211_SECURITY_INFO)
    (keyData : list Z) (keyType isSensitive : Z)
    (keyDataField : list Z) (keyDataFieldLength : Z) (keyCheckValue : list Z)
  : result key_field :=
  let keyDataLength := len keyData in
  returns (
    let sizeNeeded := DWORD (1 + 1 + keyDataLength + 1) in
    let sizeNeeded :=
      if negb (isSensitive =? 0) then DWORD (sizeNeeded + 3) else sizeNeeded in
    m <- get ;;
    if sizeNeeded >? field_length m
    then fail OPGP_ERROR_INSUFFICIENT_BUFFER
    else
      let i := 0 in
      write_field i [keyType] ;;
      let i := i + 1 in
      write_field i [BYTE keyDataLength] ;;
      let i := i + 1 in
      (if negb (isSensitive =? 0) then
         si <- defined secInfo ;;
         encrypted_key <-
           call_into 24
             (if key_encrypted_cbc si
              then calculate_enc_cbc_SCP02 (dataEncryptionSessionKey si)
                     keyData (to_int keyDataLength)
              else calculate_enc_ecb_two_key_triple_des
                     (dataEncryptionSessionKey si) keyData
                     (to_int keyDataLength)) ;;
         bytes <- defined (read encrypted_key keyDataLength) ;;
         write_field i bytes
       else
         bytes <- defined (read keyData keyDataLength) ;;
         write_field i bytes) ;;
      let i := DWORD (i + keyDataLength) in
      write_key_check_value keyData i
  ) (mkKeyField keyDataField keyDataFieldLength keyCheckValue).

End GP.

(* ================================================================== *)
(** ** The algorithms as the specification words them *)

Module Spec.

(** "Pad with [0x80 00…] to multiple of 8 (always append)". *)
Definition pad (msg : list Z) : list Z :=
  msg ++ 0x80 :: repeat 0 (7 - length msg mod 8).

(** The message cut into 8-byte blocks. *)
Fixpoint blocks (n : nat) (msg : list Z) : list (list Z) :=
  match n with
  | O => []
  | S n' => firstn 8 msg :: blocks n' (skipn 8 msg)
  end.

Definition blocks_of (msg : list Z) : list (list Z) :=
  blocks (length msg / 8) msg.

(** CBC chaining of a block cipher [enc] from [iv]: the last cipher block. *)
Definition cbc_last (enc : list Z -> list Z) (iv : list Z) (bs : list (list Z))
  : list Z :=
  fold_left (fun chain b => enc (Bytes.xor b chain)) bs iv.

(** CBC encryption of the blocks: the cipher blocks one after the other. *)
Fixpoint cbc_encrypt (enc : list Z -> list Z) (iv : list Z) (bs : list (list Z))
  : list Z :=
  match bs with
  | [] => []
  | b :: bs' => let ct := enc (Bytes.xor b iv) in ct ++ cbc_encrypt enc ct bs'
  end.

(** SCP02 CBC encrypt: 2-key-3DES-CBC from the zero IV, where "padding
    [0x80] + zeros is always appended, even if [|msg|] is already a
    multiple of 8". *)
Definition SCP02_CBC_encrypt (key msg : list Z) : list Z :=
  cbc_encrypt (DES.ede_encrypt_block key) (repeat 0 8) (blocks_of (pad msg)).

(** Retail-MAC (ISO 9797-1 algorithm 3): "Run all blocks except the last
    through single-DES-CBC under the left half-key; run the last block
    through 2-key-3DES-CBC.  Output is the final 8-byte ciphertext block." *)
Definition Retail_MAC (key iv msg : list Z) : list Z :=
  let bs := blocks_of (pad msg) in
  let chain := cbc_last (DES.encrypt_block (firstn 8 key)) iv (removelast bs) in
  DES.ede_encrypt_block key (Bytes.xor (last bs []) chain).

(** Single-3DES-CBC MAC: "Plain 3DES-CBC with [0x80 00…] padding; output is
    last block." *)
Definition TDES_CBC_MAC (key iv msg : list Z) : list Z :=
  cbc_last (DES.ede_encrypt_block key) iv (blocks_of (pad msg)).

(** The 32-byte derivation block of SCP03: "11 zero bytes, then
    [derivationConstant], then [0x00 0x00 0x80 0x01], then
    [hostChallenge ‖ cardChallenge]". *)
Definition SCP03_derivation_block (derivationConstant : Z)
    (hostChallenge cardChallenge : list Z) : list Z :=
  repeat 0 11 ++ [derivationConstant] ++ [0x00; 0x00; 0x80; 0x01]
    ++ hostChallenge ++ cardChallenge.

(** The validation data of a delete receipt:
    "[0x02, ctrHi, ctrLo, |uid|, uid, |AID|, AID]". *)
Definition delete_receipt_layout (confirmationCounter : Z)
    (cardUniqueData AID : list Z) : list Z :=
  [0x02; Z.land (Z.shiftr confirmationCounter 8) 255;
   Z.land confirmationCounter 255; Bytes.len cardUniqueData]
    ++ cardUniqueData ++ [Bytes.len AID] ++ AID.

(** The comment of [calculate_enc_cbc] and of the two ECB functions: "Pads
    the message with 0x80 and additional 0x00 if message length is not a
    multiple of 8". *)
Definition pad_if_needed (msg : list Z) : list Z :=
  if (length msg mod 8 =? 0)%nat then msg else pad msg.

(** ECB encryption of the blocks: every block on its own. *)
Definition ecb_encrypt (enc : list Z -> list Z) (bs : list (list Z)) : list Z :=
  concat (map enc bs).

(** The R-MAC of a response: "Build [rData = commandHeader(4) ‖ Lc(1) ‖
    commandData ‖ (responseLength mod 256)(1) ‖ responseData ‖
    statusWord(2)]" and "[mac = Retail-MAC(R_MACSessionKey, iv=lastRMAC,
    rData)]". *)
Definition rData (commandHeader : list Z) (Lc : Z)
    (commandData responseData statusWord : list Z) : list Z :=
  commandHeader ++ [Lc] ++ commandData
    ++ [Z.of_nat (length responseData) mod 256] ++ responseData ++ statusWord.

Definition R_MAC (R_MACSessionKey lastRMAC commandHeader : list Z) (Lc : Z)
    (commandData responseData statusWord : list Z) : list Z :=
  Retail_MAC R_MACSessionKey lastRMAC
    (rData commandHeader Lc commandData responseData statusWord).

End Spec.

(* ================================================================== *)
(** ** Sessions and commands used as examples *)

Module Examples.
Import GP.

Definition key_40_4F : list Z :=
  [0x40; 0x41; 0x42; 0x43; 0x44; 0x45; 0x46; 0x47;
   0x48; 0x49; 0x4A; 0x4B; 0x4C; 0x4D; 0x4E; 0x4F].

(** A session just opened: all four keys [40..4F], both chaining values
    zero. *)
Definition session (level protocol impl : Z) : GP211_SECURITY_INFO :=
  mkSecInfo level protocol impl key_40_4F key_40_4F key_40_4F key_40_4F
    (repeat 0 16) (repeat 0 8).

Definition SCP02_i15_C_DEC_C_MAC : GP211_SECURITY_INFO :=
  session GP211_SCP02_SECURITY_LEVEL_C_DEC_C_MAC GP211_SCP02 GP211_SCP02_IMPL_i15.

Definition SCP03_C_DEC_C_MAC : GP211_SECURITY_INFO :=
  session GP211_SCP03_SECURITY_LEVEL_C_DEC_C_MAC GP211_SCP03 GP211_SCP03_IMPL_i00.

Definition SCP02_i15_R_MAC : GP211_SECURITY_INFO :=
  session GP211_SCP02_SECURITY_LEVEL_R_MAC GP211_SCP02 GP211_SCP02_IMPL_i15.

Definition SCP02_i15_C_MAC : GP211_SECURITY_INFO :=
  session GP211_SCP02_SECURITY_LEVEL_C_MAC GP211_SCP02 GP211_SCP02_IMPL_i15.

(** GET DATA, Case 1. *)
Definition get_data : list Z := [0x80; 0xCA; 0x00; 0x66].

(** STORE DATA with [n] zero data bytes, Case 3. *)
Definition store_data (n : nat) : list Z :=
  [0x80; 0xE2; 0x00; 0x00; Z.of_nat n] ++ repeat 0 n.

(** STORE DATA with the 8 data bytes [01..08], Case 3. *)
Definition store_data_8 : list Z :=
  [0x80; 0xE2; 0x00; 0x00; 0x08; 1; 2; 3; 4; 5; 6; 7; 8].

End Examples.

(* ================================================================== *)
(** ** Buffers: basic facts *)

Import GP.


Lemma bytes_eqb_eq (a b : list Z) : Bytes.eqb a b = true <-> a = b.
Proof.
  revert b; induction a as [|x a IH]; intros [|y b]; simpl;
    try (split; [discriminate | congruence]); try tauto.
  rewrite andb_true_iff, Z.eqb_eq, IH.
  split; [intros [-> ->]; reflexivity | intros H; inversion H; auto].
Qed.

Lemma bytes_eqb_neq (a b : list Z) : Bytes.eqb a b = false <-> a <> b.
Proof.
  rewrite <- bytes_eqb_eq. destruct (Bytes.eqb a b); split; congruence.
Qed.

Lemma store_at_start (buf data : list Z) :
  C.len data <= C.len buf ->
  C.store buf 0 data = Some (data ++ skipn (length data) buf).
Proof.
  unfold C.store, C.len, Bytes.len; intros H.
  replace (0 <=? 0) with true by reflexivity.
  replace (0 + Z.of_nat (length data) <=? Z.of_nat (length buf)) with true
    by (symmetry; apply Z.leb_le; lia).
  simpl. rewrite Nat2Z.id. reflexivity.
Qed.

Lemma store_whole (buf data : list Z) :
  length data = length buf -> C.store buf 0 data = Some data.
Proof.
  intros H. rewrite store_at_start by (unfold C.len, Bytes.len; lia).
  rewrite H, skipn_all, app_nil_r. reflexivity.
Qed.

(* ================================================================== *)
(** ** The block ciphers *)

Lemma encrypt_block_length (c : OpenSSL.EVP_CIPHER) (key blk : list Z) :
  length (OpenSSL.encrypt_block c key blk) = 8%nat.
Proof. destruct c; reflexivity. Qed.

(** Two-key triple DES reads 16 bytes of its key. *)
Lemma ede_key_prefix (key blk : list Z) :
  DES.ede_encrypt_block (firstn 16 key) blk = DES.ede_encrypt_block key blk.
Proof.
  unfold DES.ede_encrypt_block.
  rewrite firstn_firstn, skipn_firstn_comm, firstn_firstn. reflexivity.
Qed.

(** The ciphers stay folded in the proofs below. *)
Opaque DES.encrypt_block DES.ede_encrypt_block.

(* ================================================================== *)
(** ** The primitives against the specification *)

Lemma len_app (a b : list Z) : C.len (a ++ b) = C.len a + C.len b.
Proof. unfold C.len, Bytes.len. rewrite length_app. lia. Qed.

Lemma len_nonneg (a : list Z) : 0 <= C.len a.
Proof. unfold C.len, Bytes.len. lia. Qed.

Lemma read_firstn (buf : list Z) (n : Z) :
  0 <= n <= C.len buf -> C.read buf n = Some (firstn (Z.to_nat n) buf).
Proof.
  intros [H0 H1]. unfold C.read.
  replace (0 <=? n) with true by (symmetry; apply Z.leb_le; lia).
  replace (n <=? C.len buf) with true by (symmetry; apply Z.leb_le; lia).
  reflexivity.
Qed.

Lemma read_all (a : list Z) (n : Z) : n = C.len a -> C.read a n = Some a.
Proof.
  intros ->. rewrite read_firstn by (pose proof (len_nonneg a); lia).
  unfold C.len, Bytes.len. rewrite Nat2Z.id, firstn_all. reflexivity.
Qed.

Lemma read_app (a b : list Z) (n : Z) : n = C.len a -> C.read (a ++ b) n = Some a.
Proof.
  intros ->. rewrite read_firstn
    by (rewrite len_app; pose proof (len_nonneg a); pose proof (len_nonneg b); lia).
  unfold C.len, Bytes.len.
  rewrite Nat2Z.id, firstn_app, Nat.sub_diag, firstn_all. simpl.
  rewrite app_nil_r. reflexivity.
Qed.

Lemma at_offset_skipn (buf : list Z) (off : Z) :
  0 <= off <= C.len buf -> C.at_offset buf off = Some (skipn (Z.to_nat off) buf).
Proof.
  intros [H0 H1]. unfold C.at_offset.
  replace (0 <=? off) with true by (symmetry; apply Z.leb_le; lia).
  replace (off <=? C.len buf) with true by (symmetry; apply Z.leb_le; lia).
  reflexivity.
Qed.

(** One step of a sequence whose first statement is known. *)
Lemma step {Mem A B} (m : M Mem A) (f : A -> M Mem B) (s s' : Mem) (a : A) :
  m s = Val a s' -> bind m f s = f a s'.
Proof. intros H. unfold bind. rewrite H. reflexivity. Qed.

Lemma step_fail {Mem A B} (m : M Mem A) (f : A -> M Mem B) (s s' : Mem) e :
  m s = Fail e s' -> bind m f s = Fail e s'.
Proof. intros H. unfold bind. rewrite H. reflexivity. Qed.

(** Feeding bytes that complete exactly one block. *)
Lemma EVP_EncryptUpdate_block (c : OpenSSL.EVP_CIPHER) (key iv buf input : list Z) (inl : Z) :
  0 <= inl <= C.len input ->
  (length buf + Z.to_nat inl = 8)%nat ->
  OpenSSL.EVP_EncryptUpdate (OpenSSL.mkCTX c key iv buf) input inl =
  let blk := buf ++ firstn (Z.to_nat inl) input in
  let ct := OpenSSL.encrypt_block c key (if OpenSSL.chained c then Bytes.xor blk iv else blk) in
  OpenSSL.One (OpenSSL.mkCTX c key (if OpenSSL.chained c then ct else iv) [], ct).
Proof.
  intros Hin Hlen. unfold OpenSSL.EVP_EncryptUpdate.
  replace (inl <? 0) with false by (symmetry; apply Z.ltb_ge; lia).
  rewrite read_firstn by lia.
  cbn [OpenSSL.ctx_buf OpenSSL.ctx_cipher OpenSSL.ctx_key OpenSSL.ctx_iv].
  set (blk := buf ++ firstn (Z.to_nat inl) input).
  assert (Hblk : length blk = 8%nat).
  { unfold blk. rewrite length_app, length_firstn.
    unfold C.len, Bytes.len in Hin. lia. }
  rewrite Hblk. change (8 / 8)%nat with 1%nat.
  cbn [OpenSSL.encrypt_blocks fst snd Nat.mul Nat.add].
  rewrite firstn_all2 by lia. rewrite skipn_all2 by lia.
  rewrite app_nil_r. cbv zeta. destruct (OpenSSL.chained c); reflexivity.
Qed.

(** Feeding fewer bytes than a block needs: they are kept, nothing is written. *)
Lemma EVP_EncryptUpdate_partial (c : OpenSSL.EVP_CIPHER) (key iv input : list Z) (inl : Z) :
  0 <= inl <= C.len input -> inl < 8 ->
  OpenSSL.EVP_EncryptUpdate (OpenSSL.mkCTX c key iv []) input inl =
  OpenSSL.One (OpenSSL.mkCTX c key iv (firstn (Z.to_nat inl) input), []).
Proof.
  intros Hin Hlt. unfold OpenSSL.EVP_EncryptUpdate.
  replace (inl <? 0) with false by (symmetry; apply Z.ltb_ge; lia).
  rewrite read_firstn by lia.
  cbn [OpenSSL.ctx_buf OpenSSL.ctx_cipher OpenSSL.ctx_key OpenSSL.ctx_iv app].
  assert (Hl : (length (firstn (Z.to_nat inl) input) / 8 = 0)%nat).
  { apply Nat.div_small. rewrite length_firstn. lia. }
  rewrite Hl. reflexivity.
Qed.

Ltac run_seq :=
  cbv beta iota zeta delta
    [bind ret get put defined evp call call_out fail undef returns fst snd].

Ltac run :=
  cbv beta iota zeta delta
    [bind ret get put defined evp call call_out fail undef returns
     update_encryption update_mac memcpy_block fst snd].

Lemma calculate_enc_ecb_single_des_block (key message : list Z) :
  8 <= C.len key -> 8 <= C.len message ->
  calculate_enc_ecb_single_des key message 8 =
  Success (DES.encrypt_block (firstn 8 key) (firstn 8 message)).
Proof.
  intros Hk Hm.
  unfold calculate_enc_ecb_single_des, encrypt_padding_if_needed.
  unfold OpenSSL.EVP_EncryptInit_ex.
  change (OpenSSL.key_length OpenSSL.EVP_des_ecb) with 8.
  change (whole_blocks 8) with 1%nat. cbn [for_loop OpenSSL.chained].
  change (negb (Z.rem 8 8 =? 0)) with false.
  rewrite read_firstn by lia.
  rewrite at_offset_skipn by lia. change (Z.to_nat (0 * 8)) with 0%nat. cbn [skipn].
  run.
  rewrite EVP_EncryptUpdate_block by (simpl; lia).
  run. cbn [OpenSSL.EVP_EncryptFinal_ex OpenSSL.ctx_buf OpenSSL.chained OpenSSL.encrypt_block app].
  rewrite app_nil_r. reflexivity.
Qed.

Lemma overwrite_block (mac ct : list Z) :
  (length mac <= 8)%nat -> length ct = 8%nat -> C.overwrite mac ct = ct.
Proof.
  intros Hm Hc. unfold C.overwrite. rewrite Hc, skipn_all2 by lia.
  apply app_nil_r.
Qed.

Lemma overwrite_nothing (mac : list Z) : C.overwrite mac [] = mac.
Proof. reflexivity. Qed.

Lemma skipn_block (message : list Z) (i : Z) :
  0 <= i ->
  skipn 8 (skipn (Z.to_nat (i * 8)) message) = skipn (Z.to_nat ((i + 1) * 8)) message.
Proof.
  intros Hi. rewrite skipn_skipn. f_equal. lia.
Qed.

(** The loop over the whole blocks of [calculate_enc_*]: block after block
    through [EVP_EncryptUpdate] is the encryption of that many blocks. *)
Lemma encryption_loop (c : OpenSSL.EVP_CIPHER) (key message : list Z) (k : nat) :
  forall (i : Z) (iv encryption : list Z),
    0 <= i -> (i + Z.of_nat k) * 8 <= C.len message ->
    for_loop k i
      (fun i ctx => update_encryption ctx (C.at_offset message (i * 8)) 8)
      (OpenSSL.mkCTX c key iv []) encryption =
    let r := OpenSSL.encrypt_blocks k c key iv (skipn (Z.to_nat (i * 8)) message) in
    Val (OpenSSL.mkCTX c key (snd r) []) (encryption ++ fst r).
Proof.
  induction k as [|k IH]; intros i iv encryption Hi Hlen.
  - simpl. rewrite app_nil_r. reflexivity.
  - cbn [for_loop]. run.
    rewrite at_offset_skipn by lia.
    rewrite EVP_EncryptUpdate_block;
      [ | unfold C.len, Bytes.len in *; rewrite length_skipn; lia | simpl; lia ].
    run. rewrite IH by lia.
    cbn [OpenSSL.encrypt_blocks app]. cbv zeta. cbn [fst snd].
    rewrite skipn_block by lia.
    rewrite app_assoc. destruct (OpenSSL.chained c); reflexivity.
Qed.

(** The same loop in the MAC functions, where every block is written over
    [mac]: the chaining block is what [mac] holds in the end. *)
Lemma mac_loop (c : OpenSSL.EVP_CIPHER) (key message : list Z) (k : nat) :
  OpenSSL.chained c = true ->
  forall (i : Z) (iv mac : list Z),
    0 <= i -> (i + Z.of_nat k) * 8 <= C.len message ->
    (length mac <= 8)%nat ->
    for_loop k i
      (fun i ctx => update_mac ctx (C.at_offset message (i * 8)) 8)
      (OpenSSL.mkCTX c key iv []) mac =
    let r := OpenSSL.encrypt_blocks k c key iv (skipn (Z.to_nat (i * 8)) message) in
    Val (OpenSSL.mkCTX c key (snd r) []) (match k with O => mac | S _ => snd r end).
Proof.
  intros Hc. induction k as [|k IH]; intros i iv mac Hi Hlen Hmac.
  - reflexivity.
  - cbn [for_loop]. run.
    rewrite at_offset_skipn by lia.
    rewrite EVP_EncryptUpdate_block;
      [ | unfold C.len, Bytes.len in *; rewrite length_skipn; lia | simpl; lia ].
    run. rewrite Hc.
    rewrite overwrite_block by (auto using encrypt_block_length).
    rewrite IH by (rewrite ?encrypt_block_length; lia).
    cbn [OpenSSL.encrypt_blocks app]. cbv zeta. cbn [fst snd]. rewrite Hc.
    rewrite skipn_block by lia.
    destruct k; reflexivity.
Qed.

(** The chaining block after [k] blocks, in the words of the specification. *)
Lemma encrypt_blocks_cbc_last (c : OpenSSL.EVP_CIPHER) (key : list Z) (k : nat) :
  OpenSSL.chained c = true ->
  forall iv data,
    snd (OpenSSL.encrypt_blocks k c key iv data) =
    Spec.cbc_last (OpenSSL.encrypt_block c key) iv (Spec.blocks k data).
Proof.
  intros Hc. induction k as [|k IH]; intros iv data; [reflexivity|].
  cbn [OpenSSL.encrypt_blocks Spec.blocks snd]. rewrite Hc, IH. reflexivity.
Qed.

(** *** Blocks of a padded message *)

Lemma blocks_firstn (k n : nat) : forall msg : list Z,
  (8 * k <= n)%nat -> Spec.blocks k (firstn n msg) = Spec.blocks k msg.
Proof.
  revert n. induction k as [|k IH]; intros n msg H; [reflexivity|].
  cbn [Spec.blocks]. rewrite firstn_firstn, Nat.min_l by lia.
  rewrite skipn_firstn_comm, IH by lia. reflexivity.
Qed.

Lemma blocks_app_tail (k : nat) : forall m t : list Z,
  (8 * k <= length m)%nat ->
  Spec.blocks (S k) (m ++ t) =
  Spec.blocks k m ++ [firstn 8 (skipn (8 * k) m ++ t)].
Proof.
  induction k as [|k IH]; intros m t H.
  - reflexivity.
  - change (Spec.blocks (S (S k)) (m ++ t))
      with (firstn 8 (m ++ t) :: Spec.blocks (S k) (skipn 8 (m ++ t))).
    rewrite firstn_app, skipn_app.
    replace (8 - length m)%nat with 0%nat by lia.
    rewrite firstn_O, skipn_O, app_nil_r.
    rewrite IH by (rewrite length_skipn; lia).
    rewrite skipn_skipn. replace (8 * k + 8)%nat with (8 * S k)%nat by lia.
    reflexivity.
Qed.

Lemma cbc_last_app enc iv bs b :
  Spec.cbc_last enc iv (bs ++ [b]) = enc (Bytes.xor b (Spec.cbc_last enc iv bs)).
Proof. unfold Spec.cbc_last. rewrite fold_left_app. reflexivity. Qed.

Lemma padding_prefix (r : nat) :
  (r < 8)%nat -> firstn (8 - r) padding = 0x80 :: repeat 0 (7 - r).
Proof.
  intros H. do 8 (destruct r as [|r]; [reflexivity|]). lia.
Qed.

(** A message of [8k + r] bytes, [r < 8], padded: its [k] whole blocks and
    the block made of the rest and the padding. *)
Lemma pad_blocks (m : list Z) (k r : nat) :
  length m = (8 * k + r)%nat -> (r < 8)%nat ->
  Spec.blocks_of (Spec.pad m) =
  Spec.blocks k m ++ [skipn (8 * k) m ++ firstn (8 - r) padding].
Proof.
  intros Hm Hr. unfold Spec.blocks_of, Spec.pad.
  assert (Hmod : (length m mod 8 = r)%nat).
  { rewrite Hm. rewrite Nat.add_comm, Nat.mul_comm, Nat.Div0.mod_add.
    apply Nat.mod_small, Hr. }
  rewrite Hmod.
  assert (Hlen : (length (m ++ 128%Z :: repeat 0%Z (7 - r)) / 8 = S k)%nat).
  { rewrite length_app. cbn [length]. rewrite repeat_length.
    replace (length m + S (7 - r))%nat with (S k * 8)%nat by lia.
    apply Nat.div_mul. discriminate. }
  rewrite Hlen, blocks_app_tail by lia.
  rewrite padding_prefix by exact Hr.
  rewrite firstn_all2; [reflexivity|].
  rewrite length_app, length_skipn. cbn [length]. rewrite repeat_length. lia.
Qed.

(** The division of a length into whole blocks and a rest, as C computes
    it on a non-negative [int]. *)
Lemma length_split (n : Z) :
  0 <= n ->
  let k := whole_blocks n in
  let r := Z.to_nat (Z.rem n 8) in
  Z.to_nat n = (8 * k + r)%nat /\ (r < 8)%nat /\
  Z.rem n 8 = Z.of_nat r /\ Z.of_nat k * 8 <= n.
Proof.
  intros Hn. unfold whole_blocks.
  rewrite Z.quot_div_nonneg, Z.rem_mod_nonneg by lia.
  pose proof (Z.div_mod n 8 ltac:(lia)) as Hd.
  pose proof (Z.mod_pos_bound n 8 ltac:(lia)) as Hb.
  pose proof (Z.div_pos n 8 Hn ltac:(lia)) as Hq.
  cbv zeta. repeat split; lia.
Qed.

Lemma mac_tail {B} (c : OpenSSL.EVP_CIPHER) (key iv message : list Z) (n : Z)
    (k r : nat) (mac : list Z) (f : OpenSSL.EVP_CIPHER_CTX -> M (list Z) B) :
  OpenSSL.chained c = true -> (r < 8)%nat -> Z.rem n 8 = Z.of_nat r ->
  Z.of_nat k * 8 + Z.of_nat r <= C.len message -> (length mac <= 8)%nat ->
  (ctx <- (if negb (Z.rem n 8 =? 0)
           then update_mac (OpenSSL.mkCTX c key iv [])
                  (C.at_offset message (Z.of_nat k * 8)) (Z.rem n 8)
           else ret (OpenSSL.mkCTX c key iv [])) ;;
   ctx <- update_mac ctx (Some padding) (8 - Z.rem n 8) ;;
   f ctx) mac =
  let ct := OpenSSL.encrypt_block c key
              (Bytes.xor (firstn r (skipn (8 * k) message)
                            ++ firstn (8 - r) padding) iv) in
  f (OpenSSL.mkCTX c key ct []) ct.
Proof.
  intros Hc Hr Hrem Hlen Hmac. rewrite Hrem.
  assert (Hpad : C.len padding = 8) by reflexivity.
  destruct r as [|r'].
  - change (negb (Z.of_nat 0 =? 0)) with false. 
    run.
    rewrite EVP_EncryptUpdate_block by (cbn [length]; lia).
    run. rewrite Hc.
    rewrite overwrite_block by (auto using encrypt_block_length).
    change (Z.to_nat (8 - Z.of_nat 0)) with (8 - 0)%nat.
    rewrite firstn_O. reflexivity.
  - replace (negb (Z.of_nat (S r') =? 0)) with true
      by (symmetry; apply negb_true_iff, Z.eqb_neq; lia).
    run. rewrite at_offset_skipn by lia.
    rewrite EVP_EncryptUpdate_partial;
      [ | unfold C.len, Bytes.len in *; rewrite length_skipn; lia | lia ].
    run. rewrite overwrite_nothing.
    rewrite EVP_EncryptUpdate_block;
      [ | lia | rewrite length_firstn, length_skipn;
              unfold C.len, Bytes.len in *; lia ].
    run. rewrite Hc.
    rewrite overwrite_block by (auto using encrypt_block_length).
    rewrite Nat2Z.id.
    replace (Z.to_nat (Z.of_nat k * 8)) with (8 * k)%nat by lia.
    replace (Z.to_nat (8 - Z.of_nat (S r'))) with (8 - S r')%nat by lia.
    reflexivity.
Qed.


Lemma bind_ret {Mem A B} (a : A) (f : A -> M Mem B) : bind (ret a) f = f a.
Proof. reflexivity. Qed.

Lemma bind_val {Mem A B} (m : M Mem A) (f : A -> M Mem B) (s s' : Mem) (a : A) :
  m s = Val a s' -> bind m f s = f a s'.
Proof. intros H. unfold bind. rewrite H. reflexivity. Qed.

Lemma mac_loop_then {B} (c : OpenSSL.EVP_CIPHER) (key message : list Z) (k : nat)
    (i : Z) (iv mac : list Z) (f : OpenSSL.EVP_CIPHER_CTX -> M (list Z) B) :
  OpenSSL.chained c = true ->
  0 <= i -> (i + Z.of_nat k) * 8 <= C.len message -> (length mac <= 8)%nat ->
  bind (for_loop k i
          (fun i ctx => update_mac ctx (C.at_offset message (i * 8)) 8)
          (OpenSSL.mkCTX c key iv [])) f mac =
  let chain := Spec.cbc_last (OpenSSL.encrypt_block c key) iv
                 (Spec.blocks k (skipn (Z.to_nat (i * 8)) message)) in
  f (OpenSSL.mkCTX c key chain []) (match k with O => mac | S _ => chain end).
Proof.
  intros Hc Hi Hlen Hmac. unfold bind at 1.
  rewrite mac_loop by assumption. cbv zeta.
  rewrite encrypt_blocks_cbc_last by assumption. reflexivity.
Qed.

Lemma cbc_last_ext (f g : list Z -> list Z) (bs : list (list Z)) :
  (forall x, f x = g x) ->
  forall iv, Spec.cbc_last f iv bs = Spec.cbc_last g iv bs.
Proof.
  intros H. unfold Spec.cbc_last.
  induction bs as [|b bs IH]; intros iv; [reflexivity|].
  cbn [fold_left]. rewrite H. apply IH.
Qed.

Lemma cbc_last_length (enc : list Z -> list Z) (bs : list (list Z)) :
  (forall x, length (enc x) = 8%nat) ->
  forall iv, length iv = 8%nat -> length (Spec.cbc_last enc iv bs) = 8%nat.
Proof.
  intros H. unfold Spec.cbc_last.
  induction bs as [|b bs IH]; intros iv Hiv; [exact Hiv|].
  cbn [fold_left]. apply IH, H.
Qed.

Lemma length_firstn_exact (l : list Z) (n : nat) :
  Z.of_nat n <= C.len l -> length (firstn n l) = n.
Proof. unfold C.len, Bytes.len. rewrite length_firstn. lia. Qed.

Lemma to_int_small (x : Z) : 0 <= x < 2 ^ 31 -> C.to_int (C.DWORD x) = x.
Proof.
  intros H. unfold C.to_int, C.DWORD.
  rewrite Z.mod_mod by lia. rewrite Z.mod_small by lia.
  replace (x <? 2 ^ 31) with true by (symmetry; apply Z.ltb_lt; lia).
  reflexivity.
Qed.

Lemma retail_mac_length (key iv msg : list Z) : length (Spec.Retail_MAC key iv msg) = 8%nat.
Proof. reflexivity. Qed.

Lemma cbc_last_ede_prefix (key iv : list Z) (bs : list (list Z)) :
  Spec.cbc_last (OpenSSL.encrypt_block OpenSSL.EVP_des_ede_cbc (firstn 16 key)) iv bs =
  Spec.cbc_last (DES.ede_encrypt_block key) iv bs.
Proof. apply cbc_last_ext. intros x. apply ede_key_prefix. Qed.

(** [calculate_MAC] is the full triple-DES CBC-MAC of the specification. *)
Theorem calculate_MAC_spec (key message : list Z) (n : Z) (icv : list Z) :
  0 <= n <= C.len message -> 16 <= C.len key -> 8 <= C.len icv ->
  calculate_MAC key message n icv =
  Success (Spec.TDES_CBC_MAC key (firstn 8 icv) (firstn (Z.to_nat n) message)).
Proof.
  intros Hn Hkey Hicv.
  destruct (length_split n ltac:(lia)) as (Hsplit & Hr & Hrem & Hk).
  set (k := whole_blocks n) in *. set (r := Z.to_nat (Z.rem n 8)) in *.
  assert (Hm : length (firstn (Z.to_nat n) message) = (8 * k + r)%nat).
  { rewrite length_firstn. unfold C.len, Bytes.len in Hn. lia. }
  unfold Spec.TDES_CBC_MAC. rewrite (pad_blocks _ k r Hm Hr), cbc_last_app.
  rewrite blocks_firstn by lia.
  rewrite skipn_firstn_comm. replace (Z.to_nat n - 8 * k)%nat with r by lia.
  unfold calculate_MAC, OpenSSL.EVP_EncryptInit_ex, returns.
  change (OpenSSL.key_length OpenSSL.EVP_des_ede_cbc) with 16.
  cbn [OpenSSL.chained].
  rewrite !read_firstn by lia.
  change (Z.to_nat 16) with 16%nat. change (Z.to_nat 8) with 8%nat.
  fold k. cbn [evp].
  rewrite bind_ret.
  rewrite mac_loop_then; [ | reflexivity | lia | lia | cbn [length]; lia ].
  cbv zeta. change (Z.to_nat (0 * 8)) with 0%nat. rewrite skipn_O.
  rewrite (mac_tail _ _ _ _ n k r); [ | reflexivity | assumption | assumption | | ].
  - cbv zeta. run. cbn [OpenSSL.EVP_EncryptFinal_ex OpenSSL.ctx_buf].
    rewrite overwrite_nothing. cbn [OpenSSL.encrypt_block].
    rewrite ede_key_prefix, cbc_last_ede_prefix. reflexivity.
  - lia.
  - destruct k; [cbn [length]; lia|].
    rewrite cbc_last_length; [lia | apply encrypt_block_length | ].
    apply length_firstn_exact. exact Hicv.
Qed.

(** [calculate_MAC_des_3des] is the Retail-MAC of the specification. *)
Theorem calculate_MAC_des_3des_spec (key message : list Z) (n : Z) (icv : list Z) :
  0 <= n <= C.len message -> 16 <= C.len key -> 8 <= C.len icv ->
  calculate_MAC_des_3des key message n icv =
  Success (Spec.Retail_MAC key (firstn 8 icv) (firstn (Z.to_nat n) message)).
Proof.
  intros Hn Hkey Hicv.
  destruct (length_split n ltac:(lia)) as (Hsplit & Hr & Hrem & Hk).
  set (k := whole_blocks n) in *. set (r := Z.to_nat (Z.rem n 8)) in *.
  assert (Hm : length (firstn (Z.to_nat n) message) = (8 * k + r)%nat).
  { rewrite length_firstn. unfold C.len, Bytes.len in Hn. lia. }
  assert (Hiv : length (firstn 8 icv) = 8%nat)
    by (apply length_firstn_exact; exact Hicv).
  unfold Spec.Retail_MAC. rewrite (pad_blocks _ k r Hm Hr).
  rewrite removelast_last, last_last.
  rewrite blocks_firstn by lia.
  rewrite skipn_firstn_comm. replace (Z.to_nat n - 8 * k)%nat with r by lia.
  unfold calculate_MAC_des_3des, returns.
  rewrite !read_firstn by lia.
  change (Z.to_nat 8) with 8%nat.
  cbn [defined]. rewrite bind_ret.
  unfold bind at 1. cbn [put].
  rewrite bind_ret.
  unfold OpenSSL.EVP_EncryptInit_ex at 1.
  change (OpenSSL.key_length OpenSSL.EVP_des_cbc) with 8. cbn [OpenSSL.chained].
  rewrite !read_all by (unfold C.len, Bytes.len; rewrite ?length_firstn_exact; lia).
  cbn [evp]. rewrite bind_ret. fold k.
  rewrite mac_loop_then; [ | reflexivity | lia | lia | lia ].
  cbv zeta. change (Z.to_nat (0 * 8)) with 0%nat. rewrite skipn_O.
  cbn [OpenSSL.EVP_EncryptFinal_ex OpenSSL.ctx_buf evp].
  rewrite (cbc_last_ext _ (DES.encrypt_block (firstn 8 key))) by reflexivity.
  set (chain := Spec.cbc_last (DES.encrypt_block (firstn 8 key)) (firstn 8 icv)
                  (Spec.blocks k message)).
  assert (Hchain : length chain = 8%nat).
  { apply cbc_last_length; [reflexivity | exact Hiv]. }
  replace (match k with O => firstn 8 icv | S _ => chain end) with chain
    by (unfold chain; destruct k; reflexivity).
  rewrite bind_ret. unfold bind at 1. cbn [get].
  unfold bind at 1. cbn [put]. rewrite overwrite_nothing.
  unfold bind at 1. cbn [get].
  unfold OpenSSL.EVP_EncryptInit_ex.
  change (OpenSSL.key_length OpenSSL.EVP_des_ede_cbc) with 16. cbn [OpenSSL.chained].
  rewrite (read_firstn key 16) by lia.
  rewrite (read_all chain 8) by (unfold C.len, Bytes.len; lia).
  change (Z.to_nat 16) with 16%nat.
  cbn [evp]. rewrite bind_ret.
  rewrite (mac_tail _ _ _ _ n k r); [ | reflexivity | assumption | assumption | | ].
  - cbv zeta. run. cbn [OpenSSL.EVP_EncryptFinal_ex OpenSSL.ctx_buf].
    rewrite overwrite_nothing. cbn [OpenSSL.encrypt_block].
    rewrite ede_key_prefix. reflexivity.
  - lia.
  - lia.
Qed.

(** *** CBC encryption under SCP02 *)

Lemma encrypt_blocks_cbc_encrypt (c : OpenSSL.EVP_CIPHER) (key : list Z) (k : nat) :
  OpenSSL.chained c = true ->
  forall iv data,
    fst (OpenSSL.encrypt_blocks k c key iv data) =
    Spec.cbc_encrypt (OpenSSL.encrypt_block c key) iv (Spec.blocks k data).
Proof.
  intros Hc. induction k as [|k IH]; intros iv data; [reflexivity|].
  cbn [OpenSSL.encrypt_blocks Spec.blocks Spec.cbc_encrypt fst].
  rewrite Hc, IH. reflexivity.
Qed.

Lemma cbc_encrypt_app enc (bs : list (list Z)) (b : list Z) : forall iv,
  Spec.cbc_encrypt enc iv (bs ++ [b]) =
  Spec.cbc_encrypt enc iv bs ++ enc (Bytes.xor b (Spec.cbc_last enc iv bs)).
Proof.
  induction bs as [|b0 bs IH]; intros iv.
  - cbn. apply app_nil_r.
  - cbn [app Spec.cbc_encrypt]. rewrite IH, app_assoc. reflexivity.
Qed.

Lemma cbc_encrypt_ext (f g : list Z -> list Z) (bs : list (list Z)) :
  (forall x, f x = g x) ->
  forall iv, Spec.cbc_encrypt f iv bs = Spec.cbc_encrypt g iv bs.
Proof.
  intros H. induction bs as [|b bs IH]; intros iv; [reflexivity|].
  cbn [Spec.cbc_encrypt]. rewrite H, IH. reflexivity.
Qed.

Lemma cbc_encrypt_length enc (bs : list (list Z)) :
  (forall x, length (enc x) = 8%nat) ->
  forall iv, length (Spec.cbc_encrypt enc iv bs) = (8 * length bs)%nat.
Proof.
  intros H. induction bs as [|b bs IH]; intros iv; [reflexivity|].
  cbn [Spec.cbc_encrypt length]. rewrite length_app, H, IH. lia.
Qed.

Lemma blocks_length (k : nat) : forall msg : list Z, length (Spec.blocks k msg) = k.
Proof. induction k as [|k IH]; intros msg; cbn [Spec.blocks length]; [|rewrite IH]; reflexivity. Qed.

Lemma encryption_loop_then {B} (c : OpenSSL.EVP_CIPHER) (key message : list Z) (k : nat)
    (i : Z) (iv encryption : list Z) (f : OpenSSL.EVP_CIPHER_CTX -> M (list Z) B) :
  OpenSSL.chained c = true ->
  0 <= i -> (i + Z.of_nat k) * 8 <= C.len message ->
  bind (for_loop k i
          (fun i ctx => update_encryption ctx (C.at_offset message (i * 8)) 8)
          (OpenSSL.mkCTX c key iv [])) f encryption =
  let bs := Spec.blocks k (skipn (Z.to_nat (i * 8)) message) in
  f (OpenSSL.mkCTX c key (Spec.cbc_last (OpenSSL.encrypt_block c key) iv bs) [])
    (encryption ++ Spec.cbc_encrypt (OpenSSL.encrypt_block c key) iv bs).
Proof.
  intros Hc Hi Hlen. unfold bind at 1.
  rewrite encryption_loop by assumption. cbv zeta.
  rewrite encrypt_blocks_cbc_last, encrypt_blocks_cbc_encrypt by assumption.
  reflexivity.
Qed.

(** The end of an SCP02 encryption: the rest of the message, if any, then
    the padding, complete one block, which is encrypted last. *)
Lemma encryption_tail {B} (c : OpenSSL.EVP_CIPHER) (key iv message : list Z) (n : Z)
    (k r : nat) (encryption : list Z) (f : OpenSSL.EVP_CIPHER_CTX -> M (list Z) B) :
  OpenSSL.chained c = true -> (r < 8)%nat -> Z.rem n 8 = Z.of_nat r ->
  Z.of_nat k * 8 + Z.of_nat r <= C.len message ->
  (ctx <- (if negb (Z.rem n 8 =? 0)
           then update_encryption (OpenSSL.mkCTX c key iv [])
                  (C.at_offset message (Z.of_nat k * 8)) (Z.rem n 8)
           else ret (OpenSSL.mkCTX c key iv [])) ;;
   ctx <- update_encryption ctx (Some padding) (8 - Z.rem n 8) ;;
   f ctx) encryption =
  let ct := OpenSSL.encrypt_block c key
              (Bytes.xor (firstn r (skipn (8 * k) message)
                            ++ firstn (8 - r) padding) iv) in
  f (OpenSSL.mkCTX c key ct []) (encryption ++ ct).
Proof.
  intros Hc Hr Hrem Hlen. rewrite Hrem.
  assert (Hpad : C.len padding = 8) by reflexivity.
  destruct r as [|r'].
  - change (negb (Z.of_nat 0 =? 0)) with false. run.
    rewrite EVP_EncryptUpdate_block by (cbn [length]; lia).
    run. rewrite Hc.
    change (Z.to_nat (8 - Z.of_nat 0)) with (8 - 0)%nat.
    rewrite firstn_O. reflexivity.
  - replace (negb (Z.of_nat (S r') =? 0)) with true
      by (symmetry; apply negb_true_iff, Z.eqb_neq; lia).
    run. rewrite at_offset_skipn by lia.
    rewrite EVP_EncryptUpdate_partial;
      [ | unfold C.len, Bytes.len in *; rewrite length_skipn; lia | lia ].
    run. rewrite app_nil_r.
    rewrite EVP_EncryptUpdate_block;
      [ | lia | rewrite length_firstn, length_skipn;
              unfold C.len, Bytes.len in *; lia ].
    run. rewrite Hc.
    rewrite Nat2Z.id.
    replace (Z.to_nat (Z.of_nat k * 8)) with (8 * k)%nat by lia.
    replace (Z.to_nat (8 - Z.of_nat (S r'))) with (8 - S r')%nat by lia.
    reflexivity.
Qed.

(** [calculate_enc_cbc_SCP02] is the SCP02 CBC encryption of the
    specification; the cipher text is one block longer than the whole
    blocks of the message. *)
Theorem calculate_enc_cbc_SCP02_spec (key message : list Z) (n : Z) :
  0 <= n <= C.len message -> 16 <= C.len key ->
  calculate_enc_cbc_SCP02 key message n =
    Success (Spec.SCP02_CBC_encrypt key (firstn (Z.to_nat n) message))
  /\ C.len (Spec.SCP02_CBC_encrypt key (firstn (Z.to_nat n) message))
     = 8 * (n / 8 + 1).
Proof.
  intros Hn Hkey.
  destruct (length_split n ltac:(lia)) as (Hsplit & Hr & Hrem & Hk).
  set (k := whole_blocks n) in *. set (r := Z.to_nat (Z.rem n 8)) in *.
  assert (Hm : length (firstn (Z.to_nat n) message) = (8 * k + r)%nat).
  { rewrite length_firstn. unfold C.len, Bytes.len in Hn. lia. }
  unfold Spec.SCP02_CBC_encrypt. rewrite (pad_blocks _ k r Hm Hr).
  split.
  - rewrite cbc_encrypt_app.
    rewrite blocks_firstn by lia.
    rewrite skipn_firstn_comm. replace (Z.to_nat n - 8 * k)%nat with r by lia.
    unfold calculate_enc_cbc_SCP02, OpenSSL.EVP_EncryptInit_ex, returns.
    change (OpenSSL.key_length OpenSSL.EVP_des_ede_cbc) with 16.
    cbn [OpenSSL.chained].
    rewrite (read_firstn key 16) by lia.
    rewrite (read_all icv 8) by reflexivity.
    change (Z.to_nat 16) with 16%nat.
    fold k. cbn [evp]. rewrite bind_ret.
    rewrite encryption_loop_then; [ | reflexivity | lia | lia ].
    cbv zeta. change (Z.to_nat (0 * 8)) with 0%nat. rewrite skipn_O.
    rewrite (encryption_tail _ _ _ _ n k r); [ | reflexivity | assumption | assumption | lia ].
    cbv zeta. run. cbn [OpenSSL.EVP_EncryptFinal_ex OpenSSL.ctx_buf app].
    rewrite app_nil_r.
    rewrite (cbc_last_ext _ (DES.ede_encrypt_block key)) by (intros; apply ede_key_prefix).
    rewrite (cbc_encrypt_ext _ (DES.ede_encrypt_block key)) by (intros; apply ede_key_prefix).
    cbn [OpenSSL.encrypt_block]. rewrite ede_key_prefix.
    reflexivity.
  - unfold C.len, Bytes.len.
    rewrite cbc_encrypt_length by reflexivity.
    rewrite length_app, blocks_length. cbn [length].
    assert (Hq : n / 8 = Z.of_nat k).
    { unfold k, whole_blocks. rewrite Z.quot_div_nonneg by lia.
      rewrite Z2Nat.id; [reflexivity | apply Z.div_pos; lia]. }
    rewrite Hq. lia.
Qed.

(* ================================================================== *)
(** ** The errors a call can return *)

Section Raises.
Context {Mem : Type} (P : error_code -> Prop).

Lemma raises_ret {A} (a : A) : raises P (ret a : M Mem A).
Proof. intros s e s' H. discriminate H. Qed.

Lemma raises_undef {A} : raises P (undef : M Mem A).
Proof. intros s e s' H. discriminate H. Qed.

Lemma raises_get : raises P (get : M Mem Mem).
Proof. intros s e s' H. discriminate H. Qed.

Lemma raises_put (x : Mem) : raises P (put x).
Proof. intros s e s' H. discriminate H. Qed.

Lemma raises_defined {A} (o : option A) : raises P (defined o : M Mem A).
Proof. destruct o; [apply raises_ret | apply raises_undef]. Qed.

Lemma raises_fail {A} (e : error_code) : P e -> raises P (fail e : M Mem A).
Proof. intros He s e' s' [= <- _]. exact He. Qed.

Lemma raises_bind {A B} (m : M Mem A) (f : A -> M Mem B) :
  raises P m -> (forall a, raises P (f a)) -> raises P (bind m f).
Proof.
  intros Hm Hf s e s' H. unfold bind in H.
  destruct (m s) as [a s1|e1 s1|] eqn:E.
  - exact (Hf a s1 e s' H).
  - injection H as <- _. exact (Hm s e1 s1 E).
  - discriminate H.
Qed.

Lemma raises_evp {A} (r : OpenSSL.returned A) :
  P OPGP_ERROR_CRYPT -> raises P (evp r : M Mem A).
Proof.
  intros Hc. destruct r; [apply raises_ret | apply raises_fail, Hc | apply raises_undef].
Qed.

Lemma raises_call {A} (r : result A) :
  fails_with P r -> raises P (call r : M Mem A).
Proof.
  intros Hr. destruct r as [a|e a|];
    [apply raises_ret | apply raises_fail, (Hr e a eq_refl) | apply raises_undef].
Qed.

Lemma raises_for_loop {A} (body : Z -> A -> M Mem A) (n : nat) :
  (forall i a, raises P (body i a)) ->
  forall i a, raises P (for_loop n i body a).
Proof.
  intros Hb. induction n as [|n IH]; intros i a; cbn [for_loop].
  - apply raises_ret.
  - apply raises_bind; [apply Hb | intros a'; apply IH].
Qed.

Lemma returns_fails_with (body : M Mem unit) (out : Mem) :
  raises P body -> fails_with P (returns body out).
Proof.
  intros Hb e o H. unfold returns in H.
  destruct (body out) as [a s1|e1 s1|] eqn:E; try discriminate H.
  injection H as <- _. exact (Hb out e1 s1 E).
Qed.
End Raises.

(** One rule of the analysis, chosen by the shape of the statement. *)
Ltac raises_step :=
  match goal with
  | |- raises _ (bind _ _) => apply raises_bind; [ | intros ? ]
  | |- raises _ (ret _) => apply raises_ret
  | |- raises _ undef => apply raises_undef
  | |- raises _ get => apply raises_get
  | |- raises _ (put _) => apply raises_put
  | |- raises _ (defined _) => apply raises_defined
  | |- raises _ (evp _) => apply raises_evp
  | |- raises _ (call _) => apply raises_call
  | |- raises _ (for_loop _ _ _ _) => apply raises_for_loop; intros ? ?
  | |- raises _ (fail _) => apply raises_fail
  | |- raises _ (if ?c then _ else _) => destruct c
  | |- raises _ (match ?x with _ => _ end) => destruct x
  | |- fails_with _ (returns _ _) => apply returns_fails_with
  end.

Lemma update_mac_raises ctx input inl : raises only_crypt (update_mac ctx input inl).
Proof. unfold update_mac. repeat raises_step; reflexivity. Qed.

Lemma update_encryption_raises ctx input inl :
  raises only_crypt (update_encryption ctx input inl).
Proof. unfold update_encryption. repeat raises_step; reflexivity. Qed.

Lemma calculate_MAC_des_3des_fails key message n icv :
  fails_with only_crypt (calculate_MAC_des_3des key message n icv).
Proof.
  unfold calculate_MAC_des_3des.
  repeat first [apply update_mac_raises | raises_step]; reflexivity.
Qed.

Lemma calculate_MAC_fails key message n icv :
  fails_with only_crypt (calculate_MAC key message n icv).
Proof.
  unfold calculate_MAC.
  repeat first [apply update_mac_raises | raises_step]; reflexivity.
Qed.

Lemma calculate_enc_cbc_SCP02_fails key message n :
  fails_with only_crypt (calculate_enc_cbc_SCP02 key message n).
Proof.
  unfold calculate_enc_cbc_SCP02.
  repeat first [apply update_encryption_raises | raises_step]; reflexivity.
Qed.

Lemma encrypt_padding_if_needed_fails c key iv message n :
  fails_with only_crypt (encrypt_padding_if_needed c key iv message n).
Proof.
  unfold encrypt_padding_if_needed.
  repeat first [apply update_encryption_raises | raises_step]; reflexivity.
Qed.

Lemma only_crypt_buffer_or_crypt {A} (r : result A) :
  fails_with only_crypt r -> fails_with buffer_or_crypt r.
Proof. intros H e out E. right. exact (H e out E). Qed.

Lemma peek_raises P i : raises P (peek i).
Proof. unfold peek. repeat raises_step. Qed.

Lemma copy_out_raises P off data : raises P (copy_out off data).
Proof. unfold copy_out. repeat raises_step. Qed.

Lemma poke_raises P i v : raises P (poke i v).
Proof. apply copy_out_raises. Qed.

Lemma save_lastC_MAC_raises P mac n : raises P (save_lastC_MAC mac n).
Proof. unfold save_lastC_MAC. repeat raises_step. Qed.

Ltac wrap_raises :=
  repeat first
    [ apply peek_raises | apply poke_raises | apply copy_out_raises
    | apply save_lastC_MAC_raises
    | apply only_crypt_buffer_or_crypt
    | apply calculate_MAC_des_3des_fails | apply calculate_MAC_fails
    | apply calculate_enc_cbc_SCP02_fails
    | apply encrypt_padding_if_needed_fails
    | raises_step ];
  try (left; reflexivity); try (right; reflexivity).

Lemma make_room_for_mac_raises apduCommand avail caseAPDU apduCommandLength wrappedLength :
  raises buffer_or_crypt
    (make_room_for_mac apduCommand avail caseAPDU apduCommandLength wrappedLength).
Proof. unfold make_room_for_mac. wrap_raises. Qed.

Lemma compute_C_MAC_ICV_raises si : raises buffer_or_crypt (compute_C_MAC_ICV si).
Proof.
  unfold compute_C_MAC_ICV, calculate_enc_ecb_single_des,
    calculate_enc_ecb_two_key_triple_des.
  wrap_raises.
Qed.

Lemma compute_C_MAC_raises si wrappedLength icv :
  raises buffer_or_crypt (compute_C_MAC si wrappedLength icv).
Proof. unfold compute_C_MAC. wrap_raises. Qed.

Lemma encrypt_data_field_raises si wrappedLength tail :
  raises buffer_or_crypt (encrypt_data_field si wrappedLength tail).
Proof. unfold encrypt_data_field, calculate_enc_cbc. wrap_raises. Qed.

(** [wrap_secured] answers CommandSecureMessagingTooLarge only from its
    check of the maximum length. *)
Lemma wrap_secured_too_large apduCommand avail si caseAPDU apduCommandLength
    wrappedLength le (s s' : wrap_mem) :
  wrap_secured apduCommand avail si caseAPDU apduCommandLength wrappedLength le s
    = Fail OPGP_ERROR_COMMAND_SECURE_MESSAGING_TOO_LARGE s' ->
  check_max_length si caseAPDU apduCommandLength s
    = Fail OPGP_ERROR_COMMAND_SECURE_MESSAGING_TOO_LARGE s'.
Proof.
  unfold wrap_secured. unfold bind at 1.
  destruct (check_max_length si caseAPDU apduCommandLength s) as [[] s1|e s1|];
    [ | intros [= -> ->]; reflexivity | discriminate ].
  intros H. exfalso.
  match type of H with
  | ?m s1 = Fail _ _ =>
      assert (Hr : raises buffer_or_crypt m)
  end.
  { repeat first
      [ apply make_room_for_mac_raises | apply compute_C_MAC_ICV_raises
      | apply compute_C_MAC_raises | apply encrypt_data_field_raises
      | apply peek_raises | apply poke_raises | apply copy_out_raises
      | apply save_lastC_MAC_raises | raises_step ];
    try (left; reflexivity). }
  destruct (Hr _ _ _ H) as [E | E]; discriminate E.
Qed.

(* ================================================================== *)
(** ** What an error leaves of the SecurityInfo *)

Section Keeps.
Context {Mem X : Type} (f : Mem -> X).

Lemma keeps_ret {A} (a : A) : keeps f (ret a : M Mem A).
Proof. intros s. reflexivity. Qed.

Lemma keeps_undef {A} : keeps f (undef : M Mem A).
Proof. intros s. exact I. Qed.

Lemma keeps_fail {A} (e : error_code) : keeps f (fail e : M Mem A).
Proof. intros s. reflexivity. Qed.

Lemma keeps_get : keeps f (get : M Mem Mem).
Proof. intros s. reflexivity. Qed.

Lemma keeps_defined {A} (o : option A) : keeps f (defined o : M Mem A).
Proof. destruct o; [apply keeps_ret | apply keeps_undef]. Qed.

Lemma keeps_call {A} (r : result A) : keeps f (call r : M Mem A).
Proof. destruct r; [apply keeps_ret | apply keeps_fail | apply keeps_undef]. Qed.

Lemma keeps_bind {A B} (m : M Mem A) (k : A -> M Mem B) :
  keeps f m -> (forall a, keeps f (k a)) -> keeps f (bind m k).
Proof.
  intros Hm Hk s. unfold bind. specialize (Hm s).
  destruct (m s) as [a s1|e s1|]; [|exact Hm|exact I].
  specialize (Hk a s1). destruct (k a s1) as [b s2|e s2|]; [| |exact I];
    rewrite Hk; exact Hm.
Qed.

Lemma keeps_on_error_bind {A B} (m : M Mem A) (k : A -> M Mem B) :
  keeps f m -> (forall a, keeps_on_error f (k a)) -> keeps_on_error f (bind m k).
Proof.
  intros Hm Hk s e s' H. unfold bind in H. specialize (Hm s).
  destruct (m s) as [a s1|e1 s1|]; [| |discriminate H].
  - rewrite (Hk a s1 e s' H). exact Hm.
  - injection H as _ <-. exact Hm.
Qed.

Lemma never_raises_keeps_on_error {A} (m : M Mem A) :
  raises (fun _ => False) m -> keeps_on_error f m.
Proof. intros Hm s e s' H. destruct (Hm s e s' H). Qed.
End Keeps.

Ltac keeps_step :=
  match goal with
  | |- keeps _ (bind _ _) => apply keeps_bind; [ | intros ? ]
  | |- keeps _ (ret _) => apply keeps_ret
  | |- keeps _ undef => apply keeps_undef
  | |- keeps _ get => apply keeps_get
  | |- keeps _ (defined _) => apply keeps_defined
  | |- keeps _ (call _) => apply keeps_call
  | |- keeps _ (fail _) => apply keeps_fail
  | |- keeps _ (if ?c then _ else _) => destruct c
  | |- keeps _ (match ?x with _ => _ end) => destruct x
  end.

Lemma copy_out_keeps_sec off data : keeps sec (copy_out off data).
Proof.
  intros s. unfold copy_out, bind, get.
  destruct (C.store (buffer s) off data); reflexivity || exact I.
Qed.

Lemma poke_keeps_sec i v : keeps sec (poke i v).
Proof. apply copy_out_keeps_sec. Qed.

Lemma peek_keeps_sec i : keeps sec (peek i).
Proof. unfold peek. repeat keeps_step. Qed.

Ltac wrap_keeps :=
  repeat first
    [ apply peek_keeps_sec | apply poke_keeps_sec | apply copy_out_keeps_sec
    | keeps_step ].

Lemma classify_apdu_keeps_sec apduCommand : keeps sec (classify_apdu apduCommand).
Proof. unfold classify_apdu. wrap_keeps. Qed.

Lemma check_max_length_keeps_sec si caseAPDU apduCommandLength :
  keeps sec (check_max_length si caseAPDU apduCommandLength).
Proof. unfold check_max_length. wrap_keeps. Qed.

Lemma make_room_for_mac_keeps_sec apduCommand avail caseAPDU apduCommandLength wrappedLength :
  keeps sec (make_room_for_mac apduCommand avail caseAPDU apduCommandLength wrappedLength).
Proof. unfold make_room_for_mac. wrap_keeps. Qed.

Lemma compute_C_MAC_ICV_keeps_sec si : keeps sec (compute_C_MAC_ICV si).
Proof. unfold compute_C_MAC_ICV. wrap_keeps. Qed.

Lemma compute_C_MAC_keeps_sec si wrappedLength icv :
  keeps sec (compute_C_MAC si wrappedLength icv).
Proof. unfold compute_C_MAC. wrap_keeps. Qed.

(** Where the data field is not encrypted, [wrap_secured] raises its errors
    before it stores the C-MAC in [lastC_MAC]. *)
Lemma wrap_secured_keeps_sec_on_error apduCommand avail si caseAPDU
    apduCommandLength wrappedLength le :
  (securityLevel si =? GP211_SCP01_SECURITY_LEVEL_C_DEC_C_MAC)
  || (securityLevel si =? GP211_SCP02_SECURITY_LEVEL_C_DEC_C_MAC)
  || (securityLevel si =? GP211_SCP02_SECURITY_LEVEL_C_DEC_C_MAC_R_MAC) = false ->
  keeps_on_error sec
    (wrap_secured apduCommand avail si caseAPDU apduCommandLength wrappedLength le).
Proof.
  intros Hlevel. unfold wrap_secured. rewrite Hlevel.
  apply keeps_on_error_bind; [apply check_max_length_keeps_sec | intros _].
  apply keeps_on_error_bind;
    [destruct (mac_on_modified_apdu si);
       [apply make_room_for_mac_keeps_sec | apply keeps_ret] | intros wl].
  apply keeps_on_error_bind; [apply compute_C_MAC_ICV_keeps_sec | intros icv].
  apply keeps_on_error_bind; [apply compute_C_MAC_keeps_sec | intros mac].
  apply keeps_on_error_bind;
    [destruct (mac_on_unmodified_apdu si);
       [apply make_room_for_mac_keeps_sec | apply keeps_ret] | intros wl'].
  apply never_raises_keeps_on_error.
  repeat first
    [ apply peek_raises | apply poke_raises | apply copy_out_raises
    | apply save_lastC_MAC_raises | raises_step ].
Qed.

(* ================================================================== *)
(** ** [wrap_command] without secure messaging *)

(** C8. When [secInfo] is [NULL] or its security level is the
    NO_SECURE_MESSAGING value of SCP01, SCP02 or SCP03, and the output
    buffer is at least as large as the input, [wrap_command] succeeds for
    every input byte string: the output holds the input bytes unchanged and
    the returned length is the input length.  No shape of APDU is required,
    so no UnrecognizedApdu error can arise. *)
Theorem wrap_command_passthrough
    (apduCommand wrappedApduCommand : list Z)
    (secInfo : option GP211_SECURITY_INFO) :
  C.len apduCommand <= C.len wrappedApduCommand ->
  (secInfo = None \/
   exists si, secInfo = Some si /\
     (securityLevel si = GP211_SCP01_SECURITY_LEVEL_NO_SECURE_MESSAGING \/
      securityLevel si = GP211_SCP02_SECURITY_LEVEL_NO_SECURE_MESSAGING \/
      securityLevel si = GP211_SCP03_SECURITY_LEVEL_NO_SECURE_MESSAGING)) ->
  wrap_command apduCommand wrappedApduCommand secInfo =
    Success (mkWrapped
               (apduCommand ++ skipn (length apduCommand) wrappedApduCommand)
               (C.len apduCommand) secInfo).
Proof.
  intros Hlen Hsec. unfold wrap_command.
  replace (C.len wrappedApduCommand <? C.len apduCommand) with false
    by (symmetry; apply Z.ltb_ge; exact Hlen).
  rewrite store_at_start by exact Hlen.
  destruct Hsec as [-> | [si [-> Hlevel]]]; [reflexivity|].
  assert (Hno : no_secure_messaging si = true).
  { unfold no_secure_messaging.
    destruct Hlevel as [H | [H | H]]; rewrite H; reflexivity. }
  rewrite Hno. reflexivity.
Qed.

Lemma wrap_command_passthrough_witness :
  wrap_command [0x01; 0x02; 0x03; 0x04; 0x05; 0x06; 0x07] (repeat 0 9)
    (Some (Examples.session GP211_SCP02_SECURITY_LEVEL_NO_SECURE_MESSAGING
             GP211_SCP02 GP211_SCP02_IMPL_i15)) =
  Success (mkWrapped [0x01; 0x02; 0x03; 0x04; 0x05; 0x06; 0x07; 0; 0] 7
             (Some (Examples.session GP211_SCP02_SECURITY_LEVEL_NO_SECURE_MESSAGING
                      GP211_SCP02 GP211_SCP02_IMPL_i15))).
Proof.
  apply (wrap_command_passthrough [0x01; 0x02; 0x03; 0x04; 0x05; 0x06; 0x07]
           (repeat 0 9)).
  - vm_compute. discriminate.
  - right. eexists. split; [reflexivity|]. right; left. reflexivity.
Defined.

(* ================================================================== *)
(** ** [GP211_check_R_MAC] outside the R-MAC levels *)

(** C10. With [secInfo] [NULL], or a security level that is none of the
    three SCP02 levels with R-MAC, [GP211_check_R_MAC] returns success and
    leaves the SecurityInfo as it was, for every command and every
    response; the outcome is the same whatever the response holds. *)
Theorem check_R_MAC_skipped
    (apduCommand responseData : list Z) (secInfo : option GP211_SECURITY_INFO) :
  (secInfo = None \/
   exists si, secInfo = Some si /\
     securityLevel si <> GP211_SCP02_SECURITY_LEVEL_R_MAC /\
     securityLevel si <> GP211_SCP02_SECURITY_LEVEL_C_MAC_R_MAC /\
     securityLevel si <> GP211_SCP02_SECURITY_LEVEL_C_DEC_C_MAC_R_MAC) ->
  GP211_check_R_MAC apduCommand responseData secInfo = Success secInfo /\
  forall otherResponse,
    GP211_check_R_MAC apduCommand otherResponse secInfo =
    GP211_check_R_MAC apduCommand responseData secInfo.
Proof.
  intros Hsec.
  assert (H : forall r, GP211_check_R_MAC apduCommand r secInfo = Success secInfo).
  { intros r. destruct Hsec as [-> | [si [-> [H1 [H2 H3]]]]]; [reflexivity|].
    unfold GP211_check_R_MAC.
    apply Z.eqb_neq in H1, H2, H3. rewrite H1, H2, H3. reflexivity. }
  split; [apply H | intros r; rewrite !H; reflexivity].
Qed.

Lemma check_R_MAC_skipped_witness :
  GP211_check_R_MAC Examples.get_data [0x90; 0x00]
    (Some Examples.SCP02_i15_C_MAC) = Success (Some Examples.SCP02_i15_C_MAC).
Proof.
  apply (check_R_MAC_skipped Examples.get_data [0x90; 0x00]
           (Some Examples.SCP02_i15_C_MAC)).
  right. eexists. split; [reflexivity|].
  repeat split; vm_compute; discriminate.
Defined.

(* ================================================================== *)
(** ** [wrap_command] under SCP03 with C_DEC_C_MAC *)

(** C6, as stated, fails: with an output buffer smaller than the command
    the first test of [wrap_command] answers InsufficientBuffer, also for
    an SCP03 session at level C_DEC_C_MAC. *)
Lemma wrap_command_SCP03_level_3_small_buffer :
  wrap_command Examples.get_data [0; 0; 0] (Some Examples.SCP03_C_DEC_C_MAC) =
  Failure OPGP_ERROR_INSUFFICIENT_BUFFER
    (mkWrapped [0; 0; 0] 3 (Some Examples.SCP03_C_DEC_C_MAC)).
Proof. vm_compute. reflexivity. Qed.

(** C6, amended.  For every command that fits the output buffer, an SCP03
    session at level C_DEC_C_MAC makes [wrap_command] fail with
    SCP03SecurityLevel3NotSupported.  Nothing wrapped is produced: the
    reported length and the SecurityInfo are unchanged, and the output
    buffer only holds the copy of the unmodified command made on entry. *)
Theorem wrap_command_SCP03_level_3_rejected
    (apduCommand wrappedApduCommand : list Z) (si : GP211_SECURITY_INFO) :
  C.len apduCommand <= C.len wrappedApduCommand ->
  secureChannelProtocol si = GP211_SCP03 ->
  securityLevel si = GP211_SCP03_SECURITY_LEVEL_C_DEC_C_MAC ->
  wrap_command apduCommand wrappedApduCommand (Some si) =
    Failure OPGP_ERROR_SCP03_SECURITY_LEVEL_3_NOT_SUPPORTED
      (mkWrapped
         (apduCommand ++ skipn (length apduCommand) wrappedApduCommand)
         (C.len wrappedApduCommand) (Some si)).
Proof.
  intros Hlen Hproto Hlevel. unfold wrap_command.
  replace (C.len wrappedApduCommand <? C.len apduCommand) with false
    by (symmetry; apply Z.ltb_ge; exact Hlen).
  rewrite store_at_start by exact Hlen.
  unfold no_secure_messaging. rewrite Hproto, Hlevel. reflexivity.
Qed.

Lemma wrap_command_SCP03_level_3_rejected_witness :
  wrap_command Examples.get_data [0; 0; 0; 0; 0] (Some Examples.SCP03_C_DEC_C_MAC) =
  Failure OPGP_ERROR_SCP03_SECURITY_LEVEL_3_NOT_SUPPORTED
    (mkWrapped [0x80; 0xCA; 0x00; 0x66; 0] 5 (Some Examples.SCP03_C_DEC_C_MAC)).
Proof.
  apply (wrap_command_SCP03_level_3_rejected Examples.get_data [0; 0; 0; 0; 0]
           Examples.SCP03_C_DEC_C_MAC).
  - vm_compute. discriminate.
  - reflexivity.
  - reflexivity.
Defined.

(* ================================================================== *)
(** ** The validation data of a delete receipt *)

(** C3 at counter [0x0102], card data [A1 A2] and AID [B1 B2 B3]: both
    [memcpy] calls of [validate_delete_receipt] write at the start of the
    block.  The AID lands on the [0x02] tag and the counter, the card data
    it overwrote are gone, and the bytes after the two length bytes are
    never written. *)
Lemma delete_receipt_validation_data_example :
  delete_receipt_validation_data 0x0102 [0xA1; 0xA2] [0xB1; 0xB2; 0xB3] tt =
  Val [Some 0xB1; Some 0xB2; Some 0xB3; Some 0x02; None; None;
       Some 0x03; None; None; None] tt
  /\ Spec.delete_receipt_layout 0x0102 [0xA1; 0xA2] [0xB1; 0xB2; 0xB3] =
     [0x02; 0x01; 0x02; 0x02; 0xA1; 0xA2; 0x03; 0xB1; 0xB2; 0xB3].
Proof. split; vm_compute; reflexivity. Qed.

(** The MAC of that receipt is then taken over bytes nobody wrote: the
    model gives the call no defined outcome, whatever the receipt. *)
Lemma validate_delete_receipt_example (receiptKey receipt : list Z) :
  validate_delete_receipt 0x0102 [0xA1; 0xA2] receiptKey receipt
    [0xB1; 0xB2; 0xB3] = Undefined.
Proof. reflexivity. Qed.

(* ================================================================== *)
(** ** The chaining value when [wrap_command] fails *)

(** C1 at a STORE DATA command with 8 data bytes, an SCP02 session
    (option i15) at level C_DEC_C_MAC and an output buffer of 21 bytes:
    the buffer is large enough for the MAC (13 + 8), so the MAC is
    computed and stored in [lastC_MAC]; the encrypted command then needs
    29 bytes and the call fails with InsufficientBuffer, leaving the new
    chaining value [DB E3 41 1C AE 7C 1B 49] in the SecurityInfo. *)
Lemma wrap_command_failure_advances_lastC_MAC :
  wrap_command Examples.store_data_8 (repeat 0 21)
    (Some Examples.SCP02_i15_C_DEC_C_MAC) =
  Failure OPGP_ERROR_INSUFFICIENT_BUFFER
    (mkWrapped
       [0x84; 0xE2; 0x00; 0x00; 0x08; 1; 2; 3; 4; 5; 6; 7; 8;
        0xDB; 0xE3; 0x41; 0x1C; 0xAE; 0x7C; 0x1B; 0x49]
       21
       (Some (set_lastC_MAC Examples.SCP02_i15_C_DEC_C_MAC
                [0xDB; 0xE3; 0x41; 0x1C; 0xAE; 0x7C; 0x1B; 0x49;
                 0; 0; 0; 0; 0; 0; 0; 0])))
  /\ lastC_MAC Examples.SCP02_i15_C_DEC_C_MAC = repeat 0 16.
Proof. split; vm_compute; reflexivity. Qed.

(** At the other levels, where the data field is not encrypted, every error
    of [wrap_command] is raised before the C-MAC is stored: the SecurityInfo,
    [lastC_MAC] included, is what it was before the call. *)
Theorem wrap_command_failure_without_encryption
    (apduCommand wrappedApduCommand : list Z) (si : GP211_SECURITY_INFO)
    (e : error_code) (w : wrapped) :
  (securityLevel si =? GP211_SCP01_SECURITY_LEVEL_C_DEC_C_MAC)
  || (securityLevel si =? GP211_SCP02_SECURITY_LEVEL_C_DEC_C_MAC)
  || (securityLevel si =? GP211_SCP02_SECURITY_LEVEL_C_DEC_C_MAC_R_MAC) = false ->
  wrap_command apduCommand wrappedApduCommand (Some si) = Failure e w ->
  wrapped_secInfo w = Some si.
Proof.
  intros Hlevel. unfold wrap_command.
  destruct (C.len wrappedApduCommand <? C.len apduCommand);
    [intros [= _ <-]; reflexivity|].
  destruct (C.store wrappedApduCommand 0 apduCommand) as [copied|];
    [|discriminate].
  destruct (no_secure_messaging si); [discriminate|].
  destruct ((secureChannelProtocol si =? GP211_SCP03)
            && (securityLevel si =? GP211_SCP03_SECURITY_LEVEL_C_DEC_C_MAC));
    [intros [= _ <-]; reflexivity|].
  cbn [negb].
  match goal with
  | |- match ?m ?s with _ => _ end = _ -> _ =>
      assert (Hk : keeps_on_error sec m);
      [ | destruct (m s) as [v s1|e1 s1|] eqn:E; try discriminate;
          intros [= _ <-]; cbn [wrapped_secInfo];
          rewrite (Hk _ _ _ E); reflexivity ]
  end.
  apply keeps_on_error_bind; [apply classify_apdu_keeps_sec|].
  intros [[[caseAPDU wrappedLength] le] apduCommandLength].
  apply wrap_secured_keeps_sec_on_error, Hlevel.
Qed.

(* ================================================================== *)
(** ** The ICV of the C-MAC under SCP02 *)

(** The step "ICV encryption" on its own.  For an SCP02 session whose
    implementation option is i14, i15, i1A, i1B, i54 or i55, it gives the
    single-DES encryption of the first 8 bytes of [lastC_MAC] under the
    first 8 bytes [left] of the C-MAC session key: whatever follows them
    in the key, the right half [right], the ICV is the same. *)
Theorem compute_C_MAC_ICV_under_left_half
    (si : GP211_SECURITY_INFO) (left right : list Z) (m : wrap_mem) :
  secureChannelProtocol si = GP211_SCP02 ->
  In (secureChannelProtocolImpl si)
     [GP211_SCP02_IMPL_i14; GP211_SCP02_IMPL_i15; GP211_SCP02_IMPL_i1A;
      GP211_SCP02_IMPL_i1B; GP211_SCP02_IMPL_i54; GP211_SCP02_IMPL_i55] ->
  C_MACSessionKey si = left ++ right ->
  length left = 8%nat ->
  8 <= C.len (lastC_MAC si) ->
  compute_C_MAC_ICV si m =
    Val (DES.encrypt_block left (firstn 8 (lastC_MAC si))) m.
Proof.
  intros Hproto Himpl Hkey Hleft Hlast.
  unfold compute_C_MAC_ICV. rewrite Hproto.
  change (GP211_SCP02 =? GP211_SCP02) with true. cbv iota.
  assert (He : icv_encrypted_SCP02 si = true).
  { unfold icv_encrypted_SCP02. cbn [In] in Himpl.
    repeat (destruct Himpl as [<- | Himpl]; [reflexivity|]). contradiction. }
  rewrite He, calculate_enc_ecb_single_des_block.
  - rewrite Hkey, firstn_app, Hleft, Nat.sub_diag, firstn_O, app_nil_r.
    rewrite <- Hleft, firstn_all. reflexivity.
  - rewrite Hkey, len_app. unfold C.len at 1, Bytes.len.
    pose proof (len_nonneg right). lia.
  - exact Hlast.
Qed.

Lemma compute_C_MAC_ICV_under_left_half_witness :
  compute_C_MAC_ICV Examples.SCP02_i15_C_DEC_C_MAC
    (mkMem [] Examples.SCP02_i15_C_DEC_C_MAC) =
  Val (DES.encrypt_block [0x40; 0x41; 0x42; 0x43; 0x44; 0x45; 0x46; 0x47]
         (firstn 8 (lastC_MAC Examples.SCP02_i15_C_DEC_C_MAC)))
      (mkMem [] Examples.SCP02_i15_C_DEC_C_MAC).
Proof.
  apply (compute_C_MAC_ICV_under_left_half Examples.SCP02_i15_C_DEC_C_MAC
           [0x40; 0x41; 0x42; 0x43; 0x44; 0x45; 0x46; 0x47]
           [0x48; 0x49; 0x4A; 0x4B; 0x4C; 0x4D; 0x4E; 0x4F]).
  - reflexivity.
  - right; left; reflexivity.
  - reflexivity.
  - reflexivity.
  - vm_compute. discriminate.
Defined.

(* ================================================================== *)
(** ** AES-128 and CMAC: sizes *)

Lemma xor_length (a b : list Z) :
  length (Bytes.xor a b) = Nat.min (length a) (length b).
Proof.
  revert b; induction a as [|x a IH]; intros [|y b]; cbn [Bytes.xor length];
    try reflexivity.
  rewrite IH. reflexivity.
Qed.

Lemma shift_rows_length (st : list Z) : length (AES.shift_rows st) = 16%nat.
Proof. unfold AES.shift_rows. rewrite length_map, length_seq. reflexivity. Qed.

Lemma next_round_key_length (rk : list Z) (rcon : Z) :
  length rk = 16%nat -> length (AES.next_round_key rk rcon) = 16%nat.
Proof.
  intros H. unfold AES.next_round_key.
  repeat rewrite ?length_app, ?xor_length, ?length_map, ?length_firstn,
    ?length_skipn, ?H.
  reflexivity.
Qed.

Lemma expand_lengths (rcons : list Z) : forall (rk : list Z) (i : nat),
  length rk = 16%nat -> (i < length rcons)%nat ->
  length (nth i (AES.expand rcons rk) []) = 16%nat.
Proof.
  induction rcons as [|rc rcons IH]; intros rk i Hrk Hi; [inversion Hi|].
  cbn [AES.expand]. destruct i as [|i].
  - apply next_round_key_length, Hrk.
  - cbn [nth]. apply IH; [apply next_round_key_length, Hrk | cbn [length] in Hi; lia].
Qed.

Lemma AES_encrypt_block_length (key blk : list Z) :
  length key = 16%nat -> length (AES.encrypt_block key blk) = 16%nat.
Proof.
  intros H. unfold AES.encrypt_block, AES.final_round.
  rewrite xor_length, shift_rows_length, expand_lengths by (assumption || (cbn; lia)).
  reflexivity.
Qed.

Lemma cbc_mac_length (key k1 k2 : list Z) (fuel : nat) : forall x msg : list Z,
  length key = 16%nat -> length x = 16%nat ->
  length (AES.cbc_mac fuel key x msg k1 k2) = 16%nat.
Proof.
  induction fuel as [|fuel IH]; intros x msg Hkey Hx; [exact Hx|].
  cbn [AES.cbc_mac]. destruct (length msg <=? 16)%nat.
  - apply AES_encrypt_block_length, Hkey.
  - apply IH; [exact Hkey | apply AES_encrypt_block_length, Hkey].
Qed.

(** The CMAC tag under a 16-byte key has 16 bytes. *)
Lemma cmac_length (key msg : list Z) :
  length key = 16%nat -> length (AES.cmac key msg) = 16%nat.
Proof. intros H. unfold AES.cmac. apply cbc_mac_length; [exact H | reflexivity]. Qed.

(** A list of known length, element by element. *)
Ltac elements l H :=
  repeat (destruct l as [|? l]; [discriminate H|]);
  destruct l; [clear H | discriminate H].

(* ================================================================== *)
(** ** The SCP03 session key *)

(** C5. For a 16-byte static key, a derivation constant, an 8-byte card
    challenge and an 8-byte host challenge, [create_session_key_SCP03]
    returns the AES-128-CMAC under the static key of the 32-byte block
    made of 11 zero bytes, the derivation constant, [00 00 80 01], the host
    challenge and the card challenge: all 16 bytes of the tag. *)
Theorem create_session_key_SCP03_is_CMAC
    (key : list Z) (derivationConstant : Z) (cardChallenge hostChallenge : list Z) :
  length key = 16%nat ->
  length cardChallenge = 8%nat ->
  length hostChallenge = 8%nat ->
  let block :=
    Spec.SCP03_derivation_block derivationConstant hostChallenge cardChallenge in
  create_session_key_SCP03 key derivationConstant cardChallenge hostChallenge =
    Success (AES.cmac key block)
  /\ length block = 32%nat
  /\ length (AES.cmac key block) = 16%nat.
Proof.
  intros Hkey Hcc Hhc block.
  split; [ | split; [ | apply cmac_length, Hkey ] ].
  - unfold block. clear block.
    elements cardChallenge Hcc. elements hostChallenge Hhc. elements key Hkey.
    reflexivity.
  - unfold block, Spec.SCP03_derivation_block.
    repeat rewrite ?length_app, ?repeat_length, ?Hcc, ?Hhc.
    reflexivity.
Qed.

Lemma create_session_key_SCP03_is_CMAC_witness :
  create_session_key_SCP03 Examples.key_40_4F 0x04
    [8; 9; 10; 11; 12; 13; 14; 15] [0; 1; 2; 3; 4; 5; 6; 7] =
  Success (AES.cmac Examples.key_40_4F
             (Spec.SCP03_derivation_block 0x04 [0; 1; 2; 3; 4; 5; 6; 7]
                [8; 9; 10; 11; 12; 13; 14; 15])).
Proof.
  destruct (create_session_key_SCP03_is_CMAC Examples.key_40_4F 0x04
              [8; 9; 10; 11; 12; 13; 14; 15] [0; 1; 2; 3; 4; 5; 6; 7]
              eq_refl eq_refl eq_refl) as [H _].
  exact H.
Defined.

(** The derived key of that example. *)
Lemma create_session_key_SCP03_example :
  create_session_key_SCP03 Examples.key_40_4F 0x04
    [8; 9; 10; 11; 12; 13; 14; 15] [0; 1; 2; 3; 4; 5; 6; 7] =
  Success [0xEB; 0x84; 0x5B; 0xBC; 0x70; 0x39; 0x69; 0xA9;
           0xB3; 0x12; 0xA5; 0xF8; 0xE4; 0x83; 0x4A; 0xA2].
Proof. vm_compute. reflexivity. Qed.

(* ================================================================== *)
(** ** The SCP02 card cryptogram *)

(** C2, as stated, fails: for the key [40..4F], sequence counter [00 01],
    card challenge [08..0D] and host challenge [00..07],
    [calculate_card_cryptogram_SCP02] returns [3F 6F 3C D5 2E CD DF 6D],
    and the Retail-MAC of the same message under the same key is
    [D6 00 C8 BC 0A 45 D5 93]. *)
Lemma card_cryptogram_SCP02_not_Retail_MAC :
  calculate_card_cryptogram_SCP02 Examples.key_40_4F [0x00; 0x01]
    [0x08; 0x09; 0x0A; 0x0B; 0x0C; 0x0D] [0; 1; 2; 3; 4; 5; 6; 7] =
  Success [0x3F; 0x6F; 0x3C; 0xD5; 0x2E; 0xCD; 0xDF; 0x6D]
  /\ Spec.Retail_MAC Examples.key_40_4F icv
       ([0; 1; 2; 3; 4; 5; 6; 7] ++ [0x00; 0x01]
          ++ [0x08; 0x09; 0x0A; 0x0B; 0x0C; 0x0D]) =
     [0xD6; 0x00; 0xC8; 0xBC; 0x0A; 0x45; 0xD5; 0x93].
Proof. split; vm_compute; reflexivity. Qed.

(** C2, amended.  For a 16-byte session key S_ENC, a 2-byte sequence
    counter, a 6-byte card challenge and an 8-byte host challenge,
    [calculate_card_cryptogram_SCP02] returns the 8-byte full triple-DES
    CBC-MAC (every block of the padded message through 2-key 3DES in CBC
    mode, the last cipher block kept) with zero IV of the 16-byte message
    host challenge, sequence counter, card challenge. *)
Theorem card_cryptogram_SCP02_is_TDES_CBC_MAC
    (S_ENCSessionKey sequenceCounter cardChallenge hostChallenge : list Z) :
  length S_ENCSessionKey = 16%nat ->
  length sequenceCounter = 2%nat ->
  length cardChallenge = 6%nat ->
  length hostChallenge = 8%nat ->
  calculate_card_cryptogram_SCP02 S_ENCSessionKey sequenceCounter
    cardChallenge hostChallenge =
  Success (Spec.TDES_CBC_MAC S_ENCSessionKey icv
             (hostChallenge ++ sequenceCounter ++ cardChallenge))
  /\ length (Spec.TDES_CBC_MAC S_ENCSessionKey icv
               (hostChallenge ++ sequenceCounter ++ cardChallenge)) = 8%nat.
Proof.
  intros Hkey Hseq Hcc Hhc. split.
  - assert (Hlen : C.len S_ENCSessionKey = 16)
      by (unfold C.len, Bytes.len; rewrite Hkey; reflexivity).
    elements sequenceCounter Hseq. elements cardChallenge Hcc.
    elements hostChallenge Hhc.
    cbv -[calculate_MAC call_out Spec.TDES_CBC_MAC].
    rewrite calculate_MAC_spec; [ reflexivity | cbn; lia | lia | cbn; lia ].
  - unfold Spec.TDES_CBC_MAC. apply cbc_last_length; [reflexivity | reflexivity].
Qed.

Lemma card_cryptogram_SCP02_is_TDES_CBC_MAC_witness :
  calculate_card_cryptogram_SCP02 Examples.key_40_4F [0x00; 0x01]
    [0x08; 0x09; 0x0A; 0x0B; 0x0C; 0x0D] [0; 1; 2; 3; 4; 5; 6; 7] =
  Success (Spec.TDES_CBC_MAC Examples.key_40_4F icv
             ([0; 1; 2; 3; 4; 5; 6; 7] ++ [0x00; 0x01]
                ++ [0x08; 0x09; 0x0A; 0x0B; 0x0C; 0x0D])).
Proof.
  destruct (card_cryptogram_SCP02_is_TDES_CBC_MAC Examples.key_40_4F
              [0x00; 0x01] [0x08; 0x09; 0x0A; 0x0B; 0x0C; 0x0D]
              [0; 1; 2; 3; 4; 5; 6; 7] eq_refl eq_refl eq_refl eq_refl) as [H _].
  exact H.
Defined.

(* ================================================================== *)
(** ** Checking the R-MAC *)

Lemma read_length (buf : list Z) (n : Z) (bytes : list Z) :
  C.read buf n = Some bytes -> length bytes = Z.to_nat n.
Proof.
  unfold C.read. destruct (0 <=? n) eqn:H0; [|discriminate].
  destruct (n <=? C.len buf) eqn:H1; [|discriminate].
  cbn [andb]. intros [= <-]. apply Z.leb_le in H0, H1.
  rewrite length_firstn. unfold C.len, Bytes.len in H1. lia.
Qed.

(** Inversion of a sequence that ran to its end. *)
Lemma bind_inv {Mem A B} (m : M Mem A) (f : A -> M Mem B) (s s' : Mem) (b : B) :
  bind m f s = Val b s' ->
  exists a s1, m s = Val a s1 /\ f a s1 = Val b s'.
Proof.
  unfold bind. destruct (m s) as [a s1| |]; try discriminate.
  intros H. exists a, s1. split; [reflexivity | exact H].
Qed.

Lemma defined_inv {Mem A} (o : option A) (s s' : Mem) (a : A) :
  defined o s = Val a s' -> o = Some a /\ s' = s.
Proof.
  destruct o; cbn [defined]; unfold ret, undef; [|discriminate].
  intros [= -> ->]. split; reflexivity.
Qed.

Lemma ret_inv {Mem A} (x a : A) (s s' : Mem) :
  ret x s = Val a s' -> x = a /\ s' = s.
Proof. unfold ret. intros [= -> ->]. split; reflexivity. Qed.

(** The operands of the comparison are two strings of 8 bytes, and
    computing them changes nothing. *)
Lemma check_R_MAC_operands_sound {Mem} (apduCommand responseData : list Z)
    (si : GP211_SECURITY_INFO) (s s' : Mem) (computed received : list Z) :
  check_R_MAC_operands apduCommand responseData si s = Val (computed, received) s' ->
  s' = s /\ length computed = 8%nat /\ length received = 8%nat.
Proof.
  unfold check_R_MAC_operands. intros H.
  apply bind_inv in H as (lc & s1 & Hlc & H).
  assert (s1 = s) as ->.
  { destruct (C.len apduCommand =? 4); [apply ret_inv in Hlc; tauto|].
    destruct (C.len apduCommand =? 5); [apply ret_inv in Hlc; tauto|].
    apply bind_inv in Hlc as (b & s2 & Hb & Hlc).
    apply defined_inv in Hb as [_ ->].
    destruct (convert_byte b + 5 =? C.len apduCommand); [apply ret_inv in Hlc; tauto|].
    destruct (convert_byte b + 5 + 1 =? C.len apduCommand); [apply ret_inv in Hlc; tauto|].
    discriminate Hlc. }
  apply bind_inv in H as (sw & s1 & Hsw & H). apply defined_inv in Hsw as [_ ->].
  apply bind_inv in H as (mac & s1 & Hmac & H).
  assert (s1 = s) as ->.
  { destruct (GP211_calculate_R_MAC _ _ _ _ _ _ _);
      [apply ret_inv in Hmac; tauto | apply ret_inv in Hmac; tauto | discriminate Hmac]. }
  apply bind_inv in H as (c & s1 & Hc & H). apply defined_inv in Hc as [Hc ->].
  apply bind_inv in H as (p & s1 & Hp & H). apply defined_inv in Hp as [_ ->].
  apply bind_inv in H as (r & s1 & Hr & H). apply defined_inv in Hr as [Hr ->].
  apply ret_inv in H as [[= <- <-] ->].
  repeat split.
  - apply (read_length _ _ _ Hc).
  - apply (read_length _ _ _ Hr).
Qed.

(** *** Blocks filled from their start *)

Lemma skipn_repeat_None (k n : nat) :
  skipn n (repeat (@None Z) k) = repeat None (k - n).
Proof.
  revert n. induction k as [|k IH]; intros [|n]; try reflexivity.
  cbn [repeat skipn Nat.sub]. apply IH.
Qed.

(** Writing [data] right after the bytes [a] written so far. *)
Lemma block_store_next (a data : list Z) (k : nat) (off : Z) :
  off = C.len a -> (length data <= k)%nat ->
  C.block_store (map Some a ++ repeat None k) off data =
    Some (map Some (a ++ data) ++ repeat None (k - length data)).
Proof.
  intros -> H. unfold C.block_store, C.len, Bytes.len.
  rewrite length_app, length_map, repeat_length.
  replace (0 <=? Z.of_nat (length a)) with true by (symmetry; apply Z.leb_le; lia).
  replace (Z.of_nat (length a) + Z.of_nat (length data)
             <=? Z.of_nat (length a + k)) with true
    by (symmetry; apply Z.leb_le; lia).
  cbn [andb]. rewrite <- Nat2Z.inj_add, !Nat2Z.id.
  rewrite firstn_app, length_map, Nat.sub_diag, firstn_O, app_nil_r.
  rewrite firstn_all2 by (rewrite length_map; lia).
  rewrite skipn_app, length_map.
  rewrite skipn_all2 by (rewrite length_map; lia).
  replace (length a + length data - length a)%nat with (length data) by lia.
  rewrite skipn_repeat_None, map_app, <- app_assoc. reflexivity.
Qed.

Lemma block_bytes_written (l : list Z) : C.block_bytes (map Some l) = Some l.
Proof.
  induction l as [|x l IH]; [reflexivity|].
  cbn [map C.block_bytes]. rewrite IH. reflexivity.
Qed.

(** [memcpy] of the first [n] bytes of [src] right after the bytes [a]. *)
Lemma memcpy_block_next {Mem} (a src : list Z) (k : nat) (off n : Z) (s : Mem) :
  off = C.len a -> 0 <= n <= C.len src -> (Z.to_nat n <= k)%nat ->
  memcpy_block (map Some a ++ repeat None k) off src n s =
    Val (map Some (a ++ firstn (Z.to_nat n) src)
           ++ repeat None (k - Z.to_nat n)) s.
Proof.
  intros Hoff Hn Hk. unfold memcpy_block.
  rewrite read_firstn by assumption. cbn [defined]. rewrite bind_ret.
  assert (Hl : length (firstn (Z.to_nat n) src) = Z.to_nat n).
  { apply length_firstn_exact. lia. }
  rewrite block_store_next by (assumption || lia).
  rewrite Hl. reflexivity.
Qed.

(** *** The R-MAC *)

(** [GP211_calculate_R_MAC] is the Retail-MAC, chained on [lastR_MAC], of
    the command header, the length and the bytes of the command data, the
    length and the bytes of the response data, and the status word. *)
Lemma GP211_calculate_R_MAC_spec
    (commandHeader commandData : list Z) (commandDataLength : Z)
    (responseData : list Z) (responseDataLength : Z) (statusWord : list Z)
    (si : GP211_SECURITY_INFO) :
  4 <= C.len commandHeader ->
  0 <= commandDataLength <= C.len commandData ->
  0 <= responseDataLength <= C.len responseData ->
  2 <= C.len statusWord ->
  commandDataLength + responseDataLength + 8 < 2 ^ 31 ->
  16 <= C.len (R_MACSessionKey si) -> 8 <= C.len (lastR_MAC si) ->
  GP211_calculate_R_MAC commandHeader commandData commandDataLength
    responseData responseDataLength statusWord si =
  Success
    (Spec.Retail_MAC (R_MACSessionKey si) (firstn 8 (lastR_MAC si))
       (firstn 4 commandHeader ++ [C.BYTE commandDataLength]
          ++ firstn (Z.to_nat commandDataLength) commandData
          ++ [C.BYTE (responseDataLength mod 256)]
          ++ firstn (Z.to_nat responseDataLength) responseData
          ++ firstn 2 statusWord)).
Proof.
  intros Hh Hc Hr Hs Hsmall Hkey Hlast.
  unfold GP211_calculate_R_MAC, returns.
  set (total := 4 + 1 + commandDataLength + 1 + responseDataLength + 2).
  assert (Htotal : C.DWORD total = total)
    by (unfold C.DWORD; apply Z.mod_small; unfold total; lia).
  rewrite Htotal. unfold C.malloc.
  change (repeat None (Z.to_nat total))
    with (map Some (@nil Z) ++ repeat None (Z.to_nat total)).
  rewrite (bind_val _ _ _ _ _
             (memcpy_block_next [] commandHeader (Z.to_nat total) 0 4 _ eq_refl
                ltac:(lia) ltac:(unfold total; lia))).
  change ([] ++ firstn (Z.to_nat 4) commandHeader)
    with (firstn (Z.to_nat 4) commandHeader).
  set (h := firstn (Z.to_nat 4) commandHeader).
  set (c := firstn (Z.to_nat commandDataLength) commandData).
  set (r := firstn (Z.to_nat responseDataLength) responseData).
  set (sw := firstn (Z.to_nat 2) statusWord).
  assert (Hlh : C.len h = 4)
    by (unfold C.len, Bytes.len, h; rewrite length_firstn_exact; lia).
  assert (Hlc : C.len c = commandDataLength)
    by (unfold C.len, Bytes.len, c; rewrite length_firstn_exact; lia).
  assert (Hlr : C.len r = responseDataLength)
    by (unfold C.len, Bytes.len, r; rewrite length_firstn_exact; lia).
  assert (Hlsw : C.len sw = 2)
    by (unfold C.len, Bytes.len, sw; rewrite length_firstn_exact; lia).
  rewrite (block_store_next h [C.BYTE commandDataLength]
             (Z.to_nat total - Z.to_nat 4) (0 + 4) ltac:(lia))
    by (cbn [length]; unfold total; lia).
  cbn [defined]. rewrite bind_ret.
  rewrite (bind_val _ _ _ _ _
             (memcpy_block_next (h ++ [C.BYTE commandDataLength]) commandData
                (Z.to_nat total - Z.to_nat 4 - 1) (0 + 4 + 1) commandDataLength _
                ltac:(rewrite len_app, Hlh; reflexivity)
                ltac:(lia) ltac:(unfold total; lia))).
  fold c.
  assert (Ho1 : C.DWORD (0 + 4 + 1 + commandDataLength) = 5 + commandDataLength)
    by (unfold C.DWORD; rewrite Z.mod_small; lia).
  rewrite Ho1.
  assert (Ho2 : C.DWORD (5 + commandDataLength + 1) = 6 + commandDataLength)
    by (unfold C.DWORD; rewrite Z.mod_small; lia).
  rewrite Ho2.
  assert (Ho3 : C.DWORD (6 + commandDataLength + responseDataLength)
                = 6 + commandDataLength + responseDataLength)
    by (unfold C.DWORD; rewrite Z.mod_small; lia).
  rewrite Ho3.
  set (a1 := (h ++ [C.BYTE commandDataLength]) ++ c).
  assert (Hl1 : C.len a1 = 5 + commandDataLength).
  { unfold a1. rewrite !len_app, Hlh, Hlc. change (C.len [_]) with 1. lia. }
  rewrite (block_store_next a1 [C.BYTE (responseDataLength mod 256)]
             (Z.to_nat total - Z.to_nat 4 - 1 - Z.to_nat commandDataLength)
             (5 + commandDataLength) ltac:(lia))
    by (cbn [length]; unfold total; lia).
  cbn [defined]. rewrite bind_ret.
  set (a2 := a1 ++ [C.BYTE (responseDataLength mod 256)]).
  assert (Hl2 : C.len a2 = 6 + commandDataLength).
  { unfold a2. rewrite len_app, Hl1. change (C.len [_]) with 1. lia. }
  rewrite (bind_val _ _ _ _ _
             (memcpy_block_next a2 responseData
                (Z.to_nat total - Z.to_nat 4 - 1 - Z.to_nat commandDataLength
                   - length [C.BYTE (responseDataLength mod 256)])
                (6 + commandDataLength) responseDataLength _
                ltac:(lia) ltac:(lia) ltac:(cbn [length]; unfold total; lia))).
  fold r. set (a3 := a2 ++ r).
  assert (Hl3 : C.len a3 = 6 + commandDataLength + responseDataLength).
  { unfold a3. rewrite len_app, Hl2, Hlr. lia. }
  rewrite (bind_val _ _ _ _ _
             (memcpy_block_next a3 statusWord
                (Z.to_nat total - Z.to_nat 4 - 1 - Z.to_nat commandDataLength
                   - length [C.BYTE (responseDataLength mod 256)]
                   - Z.to_nat responseDataLength)
                (6 + commandDataLength + responseDataLength) 2 _
                ltac:(lia) ltac:(lia) ltac:(cbn [length]; unfold total; lia))).
  fold sw. set (a4 := a3 ++ sw).
  assert (Hl4 : C.len a4 = total).
  { unfold a4. rewrite len_app, Hl3, Hlsw. unfold total. lia. }
  replace (Z.to_nat total - Z.to_nat 4 - 1 - Z.to_nat commandDataLength
             - length [C.BYTE (responseDataLength mod 256)]
             - Z.to_nat responseDataLength - Z.to_nat 2)%nat with 0%nat
    by (cbn [length]; unfold total; lia).
  cbn [repeat]. rewrite app_nil_r, block_bytes_written.
  cbn [defined]. rewrite bind_ret.
  assert (Hint : C.to_int total = total).
  { rewrite <- Htotal at 1. apply to_int_small. unfold total. lia. }
  rewrite Hint.
  rewrite calculate_MAC_des_3des_spec by lia.
  rewrite <- Hl4 at 1. unfold C.len, Bytes.len. rewrite Nat2Z.id, firstn_all.
  unfold call_out. cbv [bind get put C.overwrite].
  rewrite skipn_nil, app_nil_r.
  do 2 f_equal. unfold a4, a3, a2, a1, h, sw.
  change (Z.to_nat 4) with 4%nat. change (Z.to_nat 2) with 2%nat.
  rewrite <- !app_assoc. reflexivity.
Qed.

(** For a command of one of the four short cases, [lc] being its [Lc]
    byte (0 when it has none), and a response of at least 10 bytes,
    [GP211_check_R_MAC] reaches its comparison: the R-MAC it has computed
    covers the command header, [lc], the first [lc] bytes of the command,
    the length of the response less its status word, and the whole
    response; the other operand is the 8 bytes before the status word. *)
Lemma check_R_MAC_operands_defined {Mem} (apduCommand responseData : list Z)
    (si : GP211_SECURITY_INFO) (lc : Z) (s : Mem) :
  (C.len apduCommand = 4 /\ lc = 0) \/
  (C.len apduCommand = 5 /\ lc = 0) \/
  (C.load apduCommand 4 = Some lc /\ 0 <= lc <= 255 /\
   (lc + 5 = C.len apduCommand \/ lc + 5 + 1 = C.len apduCommand)) ->
  10 <= C.len responseData -> C.len responseData + lc + 6 < 2 ^ 31 ->
  16 <= C.len (R_MACSessionKey si) -> 8 <= C.len (lastR_MAC si) ->
  check_R_MAC_operands apduCommand responseData si s =
  Val (Spec.Retail_MAC (R_MACSessionKey si) (firstn 8 (lastR_MAC si))
         (firstn 4 apduCommand ++ [lc] ++ firstn (Z.to_nat lc) apduCommand
            ++ [(C.len responseData - 2) mod 256] ++ responseData),
       firstn 8 (skipn (Z.to_nat (C.len responseData - 10)) responseData)) s.
Proof.
  intros Hshape Hr Hsmall Hkey Hlast.
  unfold check_R_MAC_operands.
  assert (Hlc : (if C.len apduCommand =? 4 then ret 0
                 else if C.len apduCommand =? 5 then ret 0
                 else
                   lc <- defined (C.load apduCommand 4) ;;
                   if convert_byte lc + 5 =? C.len apduCommand then ret lc
                   else if convert_byte lc + 5 + 1 =? C.len apduCommand then ret lc
                   else fail OPGP_ERROR_UNRECOGNIZED_APDU_COMMAND) s
                = Val lc s
                /\ 0 <= lc <= 255 /\ 4 <= C.len apduCommand
                /\ lc <= C.len apduCommand).
  { destruct Hshape as [[H ->] | [[H ->] | (Hload & Hb & H)]].
    - rewrite H. repeat split; lia.
    - rewrite H. repeat split; lia.
    - destruct (C.len apduCommand =? 4) eqn:H4.
      { apply Z.eqb_eq in H4. exfalso.
        unfold C.load in Hload. change (0 <=? 4) with true in Hload.
        cbv iota in Hload.
        assert (Hn : nth_error apduCommand (Z.to_nat 4) <> None)
          by (rewrite Hload; discriminate).
        apply nth_error_Some in Hn. unfold C.len, Bytes.len in H4. lia. }
      destruct (C.len apduCommand =? 5) eqn:H5.
      { apply Z.eqb_eq in H5. assert (lc = 0) as -> by lia.
        repeat split; lia. }
      rewrite Hload. cbn [defined]. rewrite bind_ret.
      assert (Hcb : convert_byte lc = lc).
      { unfold convert_byte. change 255 with (Z.ones 8).
        rewrite Z.land_ones by lia. apply Z.mod_small. lia. }
      rewrite Hcb.
      destruct H as [H | H].
      + replace (lc + 5 =? C.len apduCommand) with true
          by (symmetry; apply Z.eqb_eq; exact H).
        repeat split; lia.
      + destruct (lc + 5 =? C.len apduCommand);
          [repeat split; lia|].
        replace (lc + 5 + 1 =? C.len apduCommand) with true
          by (symmetry; apply Z.eqb_eq; exact H).
        repeat split; lia. }
  destruct Hlc as (Hlc & Hb & H4 & Hle).
  rewrite (bind_val _ _ _ _ _ Hlc).
  set (n := C.len responseData) in *.
  rewrite (at_offset_skipn responseData (n - 2)) by (fold n; lia).
  cbn [defined]. rewrite bind_ret.
  assert (Hle' : C.DWORD (n - 2) = n - 2)
    by (unfold C.DWORD; apply Z.mod_small; lia).
  rewrite Hle'.
  assert (Hsw : C.len (skipn (Z.to_nat (n - 2)) responseData) = 2).
  { unfold C.len, Bytes.len. rewrite length_skipn.
    unfold n, C.len, Bytes.len in *. lia. }
  rewrite GP211_calculate_R_MAC_spec by (fold n; lia).
  rewrite bind_ret.
  rewrite (read_all (Spec.Retail_MAC _ _ _) 8)
    by (unfold C.len, Bytes.len; rewrite retail_mac_length; reflexivity).
  cbn [defined]. rewrite bind_ret.
  rewrite (at_offset_skipn responseData (n - 10)) by (fold n; lia).
  cbn [defined]. rewrite bind_ret.
  rewrite read_firstn.
  2:{ unfold C.len, Bytes.len. rewrite length_skipn.
      unfold n, C.len, Bytes.len in *. lia. }
  cbn [defined]. rewrite bind_ret. unfold ret.
  replace (C.BYTE lc) with lc by (unfold C.BYTE; rewrite Z.mod_small; lia).
  replace (C.BYTE ((n - 2) mod 256)) with ((n - 2) mod 256)
    by (unfold C.BYTE; rewrite Z.mod_mod; lia).
  rewrite (firstn_all2 (n := 2) (skipn (Z.to_nat (n - 2)) responseData))
    by (unfold C.len, Bytes.len in Hsw; lia).
  rewrite firstn_skipn.
  change (Z.to_nat 8) with 8%nat.
  reflexivity.
Qed.

(** What [GP211_check_R_MAC] compares.  Under a security level of SCP02
    with R-MAC, take a command of one of the four short cases, [lc] being
    its [Lc] byte (0 when it has none), and a response of at least 10
    bytes; [received] is the 8 bytes of the response before the status
    word and [computed] the MAC the function computes: the Retail-MAC,
    chained on [lastR_MAC], of the header, [lc], the first [lc] bytes of
    the command counted from its first byte, the length of the response
    less its status word, and the whole response, received MAC included.
    If the two differ, in any bit, [GP211_check_R_MAC] returns
    ValidationRMAC and the SecurityInfo, [lastR_MAC] included, is
    unchanged; if they are equal it succeeds and [lastR_MAC] is the
    computed MAC. *)
Theorem check_R_MAC_compares
    (apduCommand responseData : list Z) (si : GP211_SECURITY_INFO) (lc : Z) :
  In (securityLevel si)
     [GP211_SCP02_SECURITY_LEVEL_R_MAC; GP211_SCP02_SECURITY_LEVEL_C_MAC_R_MAC;
      GP211_SCP02_SECURITY_LEVEL_C_DEC_C_MAC_R_MAC] ->
  length (R_MACSessionKey si) = 16%nat ->
  length (lastR_MAC si) = 8%nat ->
  (C.len apduCommand = 4 /\ lc = 0) \/
  (C.len apduCommand = 5 /\ lc = 0) \/
  (C.load apduCommand 4 = Some lc /\ 0 <= lc <= 255 /\
   (lc + 5 = C.len apduCommand \/ lc + 5 + 1 = C.len apduCommand)) ->
  10 <= C.len responseData -> C.len responseData + lc + 6 < 2 ^ 31 ->
  let received :=
    firstn 8 (skipn (Z.to_nat (C.len responseData - 10)) responseData) in
  let computed :=
    Spec.Retail_MAC (R_MACSessionKey si) (lastR_MAC si)
      (firstn 4 apduCommand ++ [lc] ++ firstn (Z.to_nat lc) apduCommand
         ++ [(C.len responseData - 2) mod 256] ++ responseData) in
  (received <> computed ->
   GP211_check_R_MAC apduCommand responseData (Some si) =
     Failure GP211_ERROR_VALIDATION_R_MAC (Some si)) /\
  (received = computed ->
   GP211_check_R_MAC apduCommand responseData (Some si) =
     Success (Some (set_lastR_MAC si computed))).
Proof.
  intros Hlevel Hkey Hlast Hshape Hr Hsmall received computed.
  assert (Hops : check_R_MAC_operands apduCommand responseData si (Some si)
                 = Val (computed, received) (Some si)).
  { rewrite (check_R_MAC_operands_defined apduCommand responseData si lc)
      by (assumption || (unfold C.len, Bytes.len; lia)).
    rewrite (firstn_all2 (n := 8) (lastR_MAC si)) by lia.
    reflexivity. }
  assert (Hc : length computed = 8%nat) by apply retail_mac_length.
  assert (Hif : negb (securityLevel si =? GP211_SCP02_SECURITY_LEVEL_C_DEC_C_MAC_R_MAC)
                && negb (securityLevel si =? GP211_SCP02_SECURITY_LEVEL_R_MAC)
                && negb (securityLevel si =? GP211_SCP02_SECURITY_LEVEL_C_MAC_R_MAC)
                = false).
  { cbn [In] in Hlevel.
    destruct Hlevel as [<- | [<- | [<- | []]]]; reflexivity. }
  clearbody computed received.
  split; intros Hcmp; unfold GP211_check_R_MAC, returns; rewrite Hif;
    unfold bind at 1; rewrite Hops; cbn [fst snd].
  - replace (Bytes.eqb computed received) with false
      by (symmetry; apply bytes_eqb_neq; congruence).
    reflexivity.
  - subst received.
    replace (Bytes.eqb computed computed) with true
      by (symmetry; apply bytes_eqb_eq; reflexivity).
    cbn [negb]. rewrite store_whole by congruence.
    reflexivity.
Qed.

Lemma check_R_MAC_compares_witness :
  GP211_check_R_MAC Examples.get_data [1; 2; 3; 4; 5; 6; 7; 8; 0x90; 0x00]
    (Some Examples.SCP02_i15_R_MAC) =
  Failure GP211_ERROR_VALIDATION_R_MAC (Some Examples.SCP02_i15_R_MAC)
  /\ GP211_check_R_MAC Examples.get_data
       [0xAA; 0xBB; 0xF3; 0x54; 0x2A; 0x9E; 0x2C; 0x52; 0x9E; 0xC1;
        1; 2; 3; 4; 5; 6; 7; 8; 0x90; 0x00]
       (Some Examples.SCP02_i15_R_MAC) =
     Success (Some (set_lastR_MAC Examples.SCP02_i15_R_MAC
                      [1; 2; 3; 4; 5; 6; 7; 8])).
Proof.
  split.
  - destruct (check_R_MAC_compares Examples.get_data
                [1; 2; 3; 4; 5; 6; 7; 8; 0x90; 0x00] Examples.SCP02_i15_R_MAC 0)
      as [H _].
    + left. reflexivity.
    + reflexivity.
    + reflexivity.
    + left. split; reflexivity.
    + vm_compute. discriminate.
    + vm_compute. reflexivity.
    + apply H. vm_compute. discriminate.
  - destruct (check_R_MAC_compares Examples.get_data
                [0xAA; 0xBB; 0xF3; 0x54; 0x2A; 0x9E; 0x2C; 0x52; 0x9E; 0xC1;
                 1; 2; 3; 4; 5; 6; 7; 8; 0x90; 0x00]
                Examples.SCP02_i15_R_MAC 0)
      as [_ H].
    + left. reflexivity.
    + reflexivity.
    + reflexivity.
    + left. split; reflexivity.
    + vm_compute. discriminate.
    + vm_compute. reflexivity.
    + rewrite H by (vm_compute; reflexivity).
      vm_compute. reflexivity.
Defined.

(* ================================================================== *)
(** ** A response that carries the R-MAC of the specification *)

(** C7.  Two responses of a card that computes the R-MAC as the
    specification words it, under an SCP02 session at level R_MAC with
    [lastR_MAC] zero: the response [AA BB], R-MAC, [90 00] to the Case-3
    command STORE DATA [80 E2 00 00 08 01 .. 08], and the same response to
    the Case-1 command GET DATA [80 CA 00 66].  The received R-MAC is the
    R-MAC of the command and the response, and [GP211_check_R_MAC] answers
    ValidationRMAC to both.  It hands [GP211_calculate_R_MAC] the command
    from its first byte as the command data, so that the MAC covers
    [80 E2 00 00 08 01 02 03] and not [01 .. 08], and the response less its
    status word as the response data, so that the MAC covers the received
    R-MAC as well, under the length 10 and not 2. *)
Lemma check_R_MAC_rejects_the_R_MAC_of_the_specification :
  let si := Examples.SCP02_i15_R_MAC in
  let R_MAC_of header Lc data :=
    Spec.R_MAC (R_MACSessionKey si) (lastR_MAC si) header Lc data
      [0xAA; 0xBB] [0x90; 0x00] in
  let store_data_R_MAC :=
    R_MAC_of [0x80; 0xE2; 0x00; 0x00] 0x08 [1; 2; 3; 4; 5; 6; 7; 8] in
  let get_data_R_MAC := R_MAC_of [0x80; 0xCA; 0x00; 0x66] 0x00 [] in
  store_data_R_MAC = [0xCD; 0x7A; 0x11; 0xF0; 0xC0; 0xD4; 0x06; 0x16]
  /\ GP211_check_R_MAC Examples.store_data_8
       ([0xAA; 0xBB] ++ store_data_R_MAC ++ [0x90; 0x00]) (Some si) =
     Failure GP211_ERROR_VALIDATION_R_MAC (Some si)
  /\ get_data_R_MAC = [0x0B; 0xA8; 0x63; 0x9C; 0x81; 0x81; 0xFD; 0xA9]
  /\ GP211_check_R_MAC Examples.get_data
       ([0xAA; 0xBB] ++ get_data_R_MAC ++ [0x90; 0x00]) (Some si) =
     Failure GP211_ERROR_VALIDATION_R_MAC (Some si).
Proof.
  intros si R_MAC_of store_data_R_MAC get_data_R_MAC.
  split; [|split; [|split]]; vm_compute; reflexivity.
Qed.

(* ================================================================== *)
(** ** [wrap_command]: a Case-3 command under SCP02 with C_DEC_C_MAC *)

(** *** Reading and writing inside a buffer *)

Lemma len_cons (x : Z) (l : list Z) : C.len (x :: l) = 1 + C.len l.
Proof. unfold C.len, Bytes.len. cbn [length]. lia. Qed.

Lemma store_in_bounds (buf data : list Z) (off : Z) :
  0 <= off -> off + C.len data <= C.len buf ->
  C.store buf off data =
    Some (firstn (Z.to_nat off) buf ++ data
            ++ skipn (Z.to_nat (off + C.len data)) buf).
Proof.
  intros H0 H1. unfold C.store.
  replace (0 <=? off) with true by (symmetry; apply Z.leb_le; lia).
  replace (off + C.len data <=? C.len buf) with true
    by (symmetry; apply Z.leb_le; lia).
  reflexivity.
Qed.

(** Writing [data] over the bytes that follow the prefix [a]. *)
Lemma store_after (a b data : list Z) (off : Z) :
  off = C.len a -> C.len data <= C.len b ->
  C.store (a ++ b) off data = Some (a ++ data ++ skipn (length data) b).
Proof.
  intros -> H. pose proof (len_nonneg a). pose proof (len_nonneg data).
  rewrite store_in_bounds by (rewrite ?len_app; lia).
  unfold C.len, Bytes.len. rewrite <- Nat2Z.inj_add, !Nat2Z.id.
  rewrite firstn_app, Nat.sub_diag, firstn_all, firstn_O, app_nil_r.
  rewrite skipn_app, skipn_all2 by lia.
  replace (length a + length data - length a)%nat with (length data) by lia.
  reflexivity.
Qed.



(** *** The steps of [wrap_command] on a Case-3 command *)

Lemma classify_apdu_Case3 (cla ins p1 p2 : Z) (data : list Z) (m : wrap_mem) :
  1 <= C.len data <= 255 ->
  classify_apdu ([cla; ins; p1; p2; C.len data] ++ data) m =
  Val (Case3, C.len data + 5, 0, C.len data + 5) m.
Proof.
  intros Hn. unfold classify_apdu.
  assert (Hlen : C.len ([cla; ins; p1; p2; C.len data] ++ data) = C.len data + 5).
  { rewrite len_app. change (C.len [cla; ins; p1; p2; C.len data]) with 5. lia. }
  rewrite Hlen.
  replace (C.len data + 5 =? 4) with false by (symmetry; apply Z.eqb_neq; lia).
  replace (C.len data + 5 =? 5) with false by (symmetry; apply Z.eqb_neq; lia).
  change (C.load ([cla; ins; p1; p2; C.len data] ++ data) 4) with (Some (C.len data)).
  assert (Hc : convert_byte (C.len data) = C.len data).
  { unfold convert_byte. change 255 with (Z.ones 8).
    rewrite Z.land_ones by lia. apply Z.mod_small. lia. }
  cbn [defined]. rewrite bind_ret. rewrite Hc, Z.eqb_refl. reflexivity.
Qed.


Lemma peek_val (i v : Z) (buf : list Z) (si : GP211_SECURITY_INFO) :
  C.load buf i = Some v -> peek i (mkMem buf si) = Val v (mkMem buf si).
Proof. intros H. unfold peek. run. cbn [buffer]. rewrite H. reflexivity. Qed.

Lemma copy_out_val (off : Z) (data buf buf' : list Z) (si : GP211_SECURITY_INFO) :
  C.store buf off data = Some buf' ->
  copy_out off data (mkMem buf si) = Val tt (mkMem buf' si).
Proof. intros H. unfold copy_out. run. cbn [buffer]. rewrite H. reflexivity. Qed.

Lemma poke_val (i v : Z) (buf buf' : list Z) (si : GP211_SECURITY_INFO) :
  C.store buf i [v] = Some buf' ->
  poke i v (mkMem buf si) = Val tt (mkMem buf' si).
Proof. apply copy_out_val. Qed.

Lemma store_byte_0 (x v : Z) (l : list Z) : C.store (x :: l) 0 [v] = Some (v :: l).
Proof.
  pose proof (len_nonneg l).
  rewrite store_in_bounds by (rewrite ?len_cons; change (C.len []) with 0; lia).
  reflexivity.
Qed.

Lemma store_byte_4 (c0 c1 c2 c3 x v : Z) (l : list Z) :
  C.store (c0 :: c1 :: c2 :: c3 :: x :: l) 4 [v] = Some (c0 :: c1 :: c2 :: c3 :: v :: l).
Proof.
  pose proof (len_nonneg l).
  rewrite store_in_bounds by (rewrite ?len_cons; change (C.len []) with 0; lia).
  reflexivity.
Qed.

Lemma make_room_for_mac_Case3 (apduCommand : list Z) (avail : Z)
    (apduCommandLength wrappedLength : Z) (cla c0 c1 c2 c3 lc : Z)
    (rest : list Z) (si : GP211_SECURITY_INFO) :
  C.load apduCommand 0 = Some cla ->
  apduCommandLength + 8 <= avail ->
  make_room_for_mac apduCommand avail Case3 apduCommandLength wrappedLength
    (mkMem (c0 :: c1 :: c2 :: c3 :: lc :: rest) si) =
  Val (wrappedLength + 8)
      (mkMem (Z.lor cla 4 :: c1 :: c2 :: c3 :: C.BYTE (lc + 8) :: rest) si).
Proof.
  intros Hcla Havail. unfold make_room_for_mac.
  replace (avail <? apduCommandLength + 8) with false
    by (symmetry; apply Z.ltb_ge; lia).
  rewrite Hcla. cbn [defined].
  unfold bind at 1. unfold bind at 1.
  rewrite (peek_val 4 lc) by reflexivity.
  unfold bind at 1.
  rewrite (poke_val 4 _ _ _ _ (store_byte_4 _ _ _ _ _ _ _)).
  unfold ret at 1. unfold bind at 1. unfold ret at 1.
  unfold bind at 1.
  rewrite (poke_val 0 _ _ _ _ (store_byte_0 _ _ _)).
  reflexivity.
Qed.





(** *** The steps of [wrap_command] together *)





(* ================================================================== *)
(** ** The length check of [wrap_command] *)




(* ================================================================== *)
(** ** The cipher and MAC functions *)

(** *** Encryption with padding where it is needed *)

Lemma encrypt_blocks_ecb (c : OpenSSL.EVP_CIPHER) (key : list Z) (k : nat) :
  OpenSSL.chained c = false ->
  forall iv data,
    OpenSSL.encrypt_blocks k c key iv data =
    (Spec.ecb_encrypt (OpenSSL.encrypt_block c key) (Spec.blocks k data), iv).
Proof.
  intros Hc. induction k as [|k IH]; intros iv data; [reflexivity|].
  cbn [OpenSSL.encrypt_blocks Spec.blocks]. rewrite Hc, IH. reflexivity.
Qed.

Lemma ecb_encrypt_app enc (bs : list (list Z)) (b : list Z) :
  Spec.ecb_encrypt enc (bs ++ [b]) = Spec.ecb_encrypt enc bs ++ enc b.
Proof.
  unfold Spec.ecb_encrypt. rewrite map_app, concat_app. cbn [map concat].
  rewrite app_nil_r. reflexivity.
Qed.

Lemma ecb_encrypt_ext (f g : list Z -> list Z) (bs : list (list Z)) :
  (forall x, f x = g x) -> Spec.ecb_encrypt f bs = Spec.ecb_encrypt g bs.
Proof.
  intros H. unfold Spec.ecb_encrypt. f_equal. apply map_ext, H.
Qed.

Lemma ecb_encrypt_length enc (bs : list (list Z)) :
  (forall x, length (enc x) = 8%nat) ->
  length (Spec.ecb_encrypt enc bs) = (8 * length bs)%nat.
Proof.
  intros H. induction bs as [|b bs IH]; [reflexivity|].
  unfold Spec.ecb_encrypt in *. cbn [map concat length].
  rewrite length_app, H, IH. lia.
Qed.

(** The blocks of a message of [8k + r] bytes, [r < 8], padded where it
    does not end on a block. *)
Lemma pad_if_needed_blocks (m : list Z) (k r : nat) :
  length m = (8 * k + r)%nat -> (r < 8)%nat ->
  Spec.blocks_of (Spec.pad_if_needed m) =
  Spec.blocks k m ++
    match r with
    | O => []
    | S _ => [skipn (8 * k) m ++ firstn (8 - r) padding]
    end.
Proof.
  intros Hm Hr. unfold Spec.pad_if_needed.
  assert (Hmod : (length m mod 8 = r)%nat).
  { rewrite Hm. rewrite Nat.add_comm, Nat.mul_comm, Nat.Div0.mod_add.
    apply Nat.mod_small, Hr. }
  rewrite Hmod. destruct r as [|r'].
  - cbn [Nat.eqb]. unfold Spec.blocks_of. rewrite Hm.
    replace (8 * k + 0)%nat with (k * 8)%nat by lia.
    rewrite Nat.div_mul by discriminate. rewrite app_nil_r. reflexivity.
  - cbn [Nat.eqb]. apply pad_blocks; assumption.
Qed.

(** The end of such an encryption: the rest of the message and the
    padding complete one block, and nothing is added to a message that
    ends on a block. *)
Lemma encryption_tail_if_needed {B} (c : OpenSSL.EVP_CIPHER)
    (key iv message : list Z) (n : Z) (k r : nat) (encryption : list Z)
    (f : OpenSSL.EVP_CIPHER_CTX -> M (list Z) B) :
  (r < 8)%nat -> Z.rem n 8 = Z.of_nat r ->
  Z.of_nat k * 8 + Z.of_nat r <= C.len message ->
  (ctx <- (if negb (Z.rem n 8 =? 0)
           then
             ctx <- update_encryption (OpenSSL.mkCTX c key iv [])
                      (C.at_offset message (Z.of_nat k * 8)) (Z.rem n 8) ;;
             update_encryption ctx (Some padding) (8 - Z.rem n 8)
           else ret (OpenSSL.mkCTX c key iv [])) ;;
   f ctx) encryption =
  match r with
  | O => f (OpenSSL.mkCTX c key iv []) encryption
  | S _ =>
      let blk := firstn r (skipn (8 * k) message) ++ firstn (8 - r) padding in
      let ct := OpenSSL.encrypt_block c key
                  (if OpenSSL.chained c then Bytes.xor blk iv else blk) in
      f (OpenSSL.mkCTX c key (if OpenSSL.chained c then ct else iv) [])
        (encryption ++ ct)
  end.
Proof.
  intros Hr Hrem Hlen. rewrite Hrem.
  assert (Hpad : C.len padding = 8) by reflexivity.
  destruct r as [|r'].
  - change (negb (Z.of_nat 0 =? 0)) with false. reflexivity.
  - replace (negb (Z.of_nat (S r') =? 0)) with true
      by (symmetry; apply negb_true_iff, Z.eqb_neq; lia).
    run. rewrite at_offset_skipn by lia.
    rewrite EVP_EncryptUpdate_partial;
      [ | unfold C.len, Bytes.len in *; rewrite length_skipn; lia | lia ].
    run. rewrite app_nil_r.
    rewrite EVP_EncryptUpdate_block;
      [ | lia | rewrite length_firstn, length_skipn;
              unfold C.len, Bytes.len in *; lia ].
    run.
    rewrite Nat2Z.id.
    replace (Z.to_nat (Z.of_nat k * 8)) with (8 * k)%nat by lia.
    replace (Z.to_nat (8 - Z.of_nat (S r'))) with (8 - S r')%nat by lia.
    reflexivity.
Qed.

(** The ECB functions: every block of the message, padded where it does
    not end on a block, is encrypted on its own. *)
Lemma encrypt_padding_if_needed_ecb (c : OpenSSL.EVP_CIPHER)
    (key iv message : list Z) (n : Z) :
  OpenSSL.chained c = false ->
  0 <= n <= C.len message -> OpenSSL.key_length c <= C.len key ->
  encrypt_padding_if_needed c key iv message n =
  Success (Spec.ecb_encrypt
             (OpenSSL.encrypt_block c
                (firstn (Z.to_nat (OpenSSL.key_length c)) key))
             (Spec.blocks_of (Spec.pad_if_needed (firstn (Z.to_nat n) message)))).
Proof.
  intros Hc Hn Hkey.
  assert (Hkl : 0 <= OpenSSL.key_length c) by (destruct c; cbn; lia).
  destruct (length_split n ltac:(lia)) as (Hsplit & Hr & Hrem & Hk).
  set (k := whole_blocks n) in *. set (r := Z.to_nat (Z.rem n 8)) in *.
  assert (Hm : length (firstn (Z.to_nat n) message) = (8 * k + r)%nat).
  { rewrite length_firstn. unfold C.len, Bytes.len in Hn. lia. }
  rewrite (pad_if_needed_blocks _ k r Hm Hr).
  rewrite blocks_firstn by lia.
  rewrite skipn_firstn_comm. replace (Z.to_nat n - 8 * k)%nat with r by lia.
  unfold encrypt_padding_if_needed, OpenSSL.EVP_EncryptInit_ex, returns.
  rewrite Hc, (read_firstn key) by lia.
  fold k. cbn [evp]. rewrite bind_ret.
  unfold bind at 1. rewrite encryption_loop by lia.
  cbv zeta. change (Z.to_nat (0 * 8)) with 0%nat. rewrite skipn_O.
  rewrite encrypt_blocks_ecb by exact Hc. cbn [fst snd app].
  rewrite (encryption_tail_if_needed _ _ _ _ n k r) by (assumption || lia).
  destruct r as [|r'].
  - run. cbn [OpenSSL.EVP_EncryptFinal_ex OpenSSL.ctx_buf].
    rewrite !app_nil_r. reflexivity.
  - cbv zeta. rewrite Hc. run.
    cbn [OpenSSL.EVP_EncryptFinal_ex OpenSSL.ctx_buf].
    rewrite app_nil_r, ecb_encrypt_app. reflexivity.
Qed.

(** [calculate_enc_cbc]: triple DES in CBC mode from the zero ICV over the
    message, padded where it does not end on a block. *)
Lemma calculate_enc_cbc_blocks (key message : list Z) (n : Z) :
  0 <= n <= C.len message -> 16 <= C.len key ->
  calculate_enc_cbc key message n =
  Success (Spec.cbc_encrypt (DES.ede_encrypt_block key) icv
             (Spec.blocks_of (Spec.pad_if_needed (firstn (Z.to_nat n) message)))).
Proof.
  intros Hn Hkey.
  destruct (length_split n ltac:(lia)) as (Hsplit & Hr & Hrem & Hk).
  set (k := whole_blocks n) in *. set (r := Z.to_nat (Z.rem n 8)) in *.
  assert (Hm : length (firstn (Z.to_nat n) message) = (8 * k + r)%nat).
  { rewrite length_firstn. unfold C.len, Bytes.len in Hn. lia. }
  rewrite (pad_if_needed_blocks _ k r Hm Hr).
  rewrite blocks_firstn by lia.
  rewrite skipn_firstn_comm. replace (Z.to_nat n - 8 * k)%nat with r by lia.
  unfold calculate_enc_cbc, encrypt_padding_if_needed,
    OpenSSL.EVP_EncryptInit_ex, returns.
  change (OpenSSL.key_length OpenSSL.EVP_des_ede_cbc) with 16.
  cbn [OpenSSL.chained].
  rewrite (read_firstn key 16) by lia.
  rewrite (read_all icv 8) by reflexivity.
  change (Z.to_nat 16) with 16%nat.
  fold k. cbn [evp]. rewrite bind_ret.
  rewrite encryption_loop_then; [ | reflexivity | lia | lia ].
  cbv zeta. change (Z.to_nat (0 * 8)) with 0%nat. rewrite skipn_O.
  rewrite (encryption_tail_if_needed _ _ _ _ n k r) by (assumption || lia).
  rewrite (cbc_last_ext _ (DES.ede_encrypt_block key)) by (intros; apply ede_key_prefix).
  rewrite (cbc_encrypt_ext _ (DES.ede_encrypt_block key)) by (intros; apply ede_key_prefix).
  destruct r as [|r'].
  - run. cbn [OpenSSL.EVP_EncryptFinal_ex OpenSSL.ctx_buf app].
    rewrite !app_nil_r. reflexivity.
  - cbv zeta. cbn [OpenSSL.chained]. run.
    cbn [OpenSSL.EVP_EncryptFinal_ex OpenSSL.ctx_buf app].
    rewrite app_nil_r, cbc_encrypt_app.
    cbn [OpenSSL.encrypt_block]. rewrite ede_key_prefix. reflexivity.
Qed.

(** The number of bytes of a message padded where it does not end on a
    block. *)
Lemma blocks_of_pad_if_needed_length (message : list Z) (n : Z) :
  0 <= n <= C.len message ->
  Z.of_nat (length (Spec.blocks_of (Spec.pad_if_needed (firstn (Z.to_nat n) message))))
  = (n + 7) / 8.
Proof.
  intros Hn.
  destruct (length_split n ltac:(lia)) as (Hsplit & Hr & Hrem & Hk).
  set (k := whole_blocks n) in *. set (r := Z.to_nat (Z.rem n 8)) in *.
  assert (Hm : length (firstn (Z.to_nat n) message) = (8 * k + r)%nat).
  { rewrite length_firstn. unfold C.len, Bytes.len in Hn. lia. }
  rewrite (pad_if_needed_blocks _ k r Hm Hr).
  rewrite length_app, blocks_length.
  assert (Hn' : n = 8 * Z.of_nat k + Z.of_nat r) by lia.
  apply (Z.div_unique _ 8 _ (if (r =? 0)%nat then 7 else Z.of_nat r - 1)).
  - destruct r; cbn [Nat.eqb]; lia.
  - destruct r as [|r']; cbn [Nat.eqb length]; lia.
Qed.

(** X1. [calculate_enc_cbc] encrypts with triple DES in CBC mode from the zero
    ICV and pads the message only where it does not end on a block: the
    cipher text has the length of the message rounded up to a multiple
    of 8. *)
Theorem calculate_enc_cbc_pads_where_needed (key message : list Z) (n : Z) :
  0 <= n <= C.len message -> 16 <= C.len key ->
  let ct := Spec.cbc_encrypt (DES.ede_encrypt_block key) icv
              (Spec.blocks_of (Spec.pad_if_needed (firstn (Z.to_nat n) message))) in
  calculate_enc_cbc key message n = Success ct
  /\ C.len ct = 8 * ((n + 7) / 8).
Proof.
  intros Hn Hkey ct. split.
  - apply calculate_enc_cbc_blocks; assumption.
  - unfold ct, C.len, Bytes.len. rewrite cbc_encrypt_length by reflexivity.
    rewrite Nat2Z.inj_mul, blocks_of_pad_if_needed_length by assumption.
    reflexivity.
Qed.

Lemma calculate_enc_cbc_pads_where_needed_witness :
  calculate_enc_cbc Examples.key_40_4F [1; 2; 3; 4; 5; 6; 7; 8; 9; 10] 8 =
  Success (Spec.cbc_encrypt (DES.ede_encrypt_block Examples.key_40_4F) icv
             (Spec.blocks_of
                (Spec.pad_if_needed
                   (firstn (Z.to_nat 8) [1; 2; 3; 4; 5; 6; 7; 8; 9; 10])))).
Proof.
  destruct (calculate_enc_cbc_pads_where_needed Examples.key_40_4F
              [1; 2; 3; 4; 5; 6; 7; 8; 9; 10] 8) as [H _].
  - vm_compute. split; discriminate.
  - vm_compute. discriminate.
  - exact H.
Defined.

(** X2. [calculate_enc_ecb_two_key_triple_des] and [calculate_enc_ecb_single_des]
    encrypt each block of the message on its own, the first with two-key
    triple DES, the second with single DES under the first 8 bytes of the
    key; both pad the message only where it does not end on a block. *)
Theorem calculate_enc_ecb_blockwise (key message : list Z) (n : Z) :
  0 <= n <= C.len message -> 16 <= C.len key ->
  let bs := Spec.blocks_of (Spec.pad_if_needed (firstn (Z.to_nat n) message)) in
  calculate_enc_ecb_two_key_triple_des key message n =
    Success (Spec.ecb_encrypt (DES.ede_encrypt_block key) bs)
  /\ calculate_enc_ecb_single_des key message n =
    Success (Spec.ecb_encrypt (DES.encrypt_block (firstn 8 key)) bs)
  /\ C.len (Spec.ecb_encrypt (DES.ede_encrypt_block key) bs) = 8 * ((n + 7) / 8)
  /\ C.len (Spec.ecb_encrypt (DES.encrypt_block (firstn 8 key)) bs) = 8 * ((n + 7) / 8).
Proof.
  intros Hn Hkey bs. split; [|split; [|split]].
  - unfold calculate_enc_ecb_two_key_triple_des.
    rewrite (encrypt_padding_if_needed_ecb OpenSSL.EVP_des_ede key icv message n
               eq_refl Hn Hkey).
    fold bs. apply (f_equal Success). apply ecb_encrypt_ext. intros x.
    cbn [OpenSSL.encrypt_block OpenSSL.key_length].
    change (Z.to_nat 16) with 16%nat. apply ede_key_prefix.
  - unfold calculate_enc_ecb_single_des.
    rewrite (encrypt_padding_if_needed_ecb OpenSSL.EVP_des_ecb key [] message n
               eq_refl Hn ltac:(cbn [OpenSSL.key_length]; lia)).
    fold bs. cbn [OpenSSL.encrypt_block OpenSSL.key_length].
    change (Z.to_nat 8) with 8%nat. reflexivity.
  - unfold bs, C.len, Bytes.len. rewrite ecb_encrypt_length by reflexivity.
    rewrite Nat2Z.inj_mul, blocks_of_pad_if_needed_length by assumption.
    reflexivity.
  - unfold bs, C.len, Bytes.len. rewrite ecb_encrypt_length by reflexivity.
    rewrite Nat2Z.inj_mul, blocks_of_pad_if_needed_length by assumption.
    reflexivity.
Qed.

Lemma calculate_enc_ecb_blockwise_witness :
  calculate_enc_ecb_two_key_triple_des Examples.key_40_4F
    [1; 2; 3; 4; 5; 6; 7; 8; 9; 10] 10 =
  Success (Spec.ecb_encrypt (DES.ede_encrypt_block Examples.key_40_4F)
             (Spec.blocks_of
                (Spec.pad_if_needed
                   (firstn (Z.to_nat 10) [1; 2; 3; 4; 5; 6; 7; 8; 9; 10])))).
Proof.
  destruct (calculate_enc_ecb_blockwise Examples.key_40_4F
              [1; 2; 3; 4; 5; 6; 7; 8; 9; 10] 10) as [H _].
  - vm_compute. split; discriminate.
  - vm_compute. discriminate.
  - exact H.
Defined.

(** *** The MAC functions *)

(** The last block of a CBC encryption is the CBC-MAC. *)
Lemma cbc_encrypt_last_block enc (bs : list (list Z)) :
  (forall x, length (enc x) = 8%nat) ->
  forall iv, bs <> [] ->
  skipn (8 * (length bs - 1)) (Spec.cbc_encrypt enc iv bs) = Spec.cbc_last enc iv bs.
Proof.
  intros Henc. induction bs as [|b bs IH]; intros iv Hne; [contradiction|].
  destruct bs as [|b' bs'].
  - cbn [Spec.cbc_encrypt length Nat.sub Nat.mul skipn]. rewrite app_nil_r.
    reflexivity.
  - change (Spec.cbc_encrypt enc iv (b :: b' :: bs'))
      with (enc (Bytes.xor b iv)
              ++ Spec.cbc_encrypt enc (enc (Bytes.xor b iv)) (b' :: bs')).
    rewrite skipn_app, skipn_all2 by (rewrite Henc; cbn [length]; lia).
    rewrite Henc. cbn [app].
    replace (8 * (length (b :: b' :: bs') - 1) - 8)%nat
      with (8 * (length (b' :: bs') - 1))%nat by (cbn [length]; lia).
    rewrite IH by discriminate. reflexivity.
Qed.

(** X3. [calculate_MAC] returns the last block of the triple-DES CBC
    encryption, from [icv], of the first [messageLength] bytes of the
    message padded with [80 00 ..]: 8 bytes. *)
Theorem calculate_MAC_is_TDES_CBC_MAC (key message : list Z) (n : Z) (icv : list Z) :
  0 <= n <= C.len message -> 16 <= C.len key -> 8 <= C.len icv ->
  let mac := Spec.TDES_CBC_MAC key (firstn 8 icv) (firstn (Z.to_nat n) message) in
  calculate_MAC key message n icv = Success mac /\ length mac = 8%nat.
Proof.
  intros Hn Hkey Hicv mac. split.
  - apply calculate_MAC_spec; assumption.
  - unfold mac, Spec.TDES_CBC_MAC. apply cbc_last_length; [reflexivity|].
    apply length_firstn_exact. exact Hicv.
Qed.

Lemma calculate_MAC_is_TDES_CBC_MAC_witness :
  calculate_MAC Examples.key_40_4F [1; 2; 3; 4; 5; 6; 7; 8; 9; 10] 10 icv =
  Success (Spec.TDES_CBC_MAC Examples.key_40_4F (firstn 8 icv)
             (firstn (Z.to_nat 10) [1; 2; 3; 4; 5; 6; 7; 8; 9; 10])).
Proof.
  destruct (calculate_MAC_is_TDES_CBC_MAC Examples.key_40_4F
              [1; 2; 3; 4; 5; 6; 7; 8; 9; 10] 10 icv) as [H _].
  - vm_compute. split; discriminate.
  - vm_compute. discriminate.
  - vm_compute. discriminate.
  - exact H.
Defined.

(** X4. [calculate_MAC_des_3des] returns the Retail-MAC of the first
    [messageLength] bytes of the message: single DES in CBC mode under the
    first 8 bytes of the key from [initialICV] over the blocks before the
    last, triple DES over the last block, which always holds padding. *)
Theorem calculate_MAC_des_3des_is_Retail_MAC
    (key message : list Z) (n : Z) (initialICV : list Z) :
  0 <= n <= C.len message -> 16 <= C.len key -> 8 <= C.len initialICV ->
  let m := firstn (Z.to_nat n) message in
  let bs := Spec.blocks_of (Spec.pad m) in
  calculate_MAC_des_3des key message n initialICV =
  Success (DES.ede_encrypt_block key
             (Bytes.xor (last bs [])
                (Spec.cbc_last (DES.encrypt_block (firstn 8 key))
                   (firstn 8 initialICV) (removelast bs))))
  /\ Z.of_nat (length bs) = n / 8 + 1.
Proof.
  intros Hn Hkey Hicv m bs. split.
  - apply calculate_MAC_des_3des_spec; assumption.
  - destruct (length_split n ltac:(lia)) as (Hsplit & Hr & Hrem & Hk).
    set (k := whole_blocks n) in *. set (r := Z.to_nat (Z.rem n 8)) in *.
    assert (Hm : length m = (8 * k + r)%nat).
    { unfold m. rewrite length_firstn. unfold C.len, Bytes.len in Hn. lia. }
    unfold bs. rewrite (pad_blocks _ k r Hm Hr).
    rewrite length_app, blocks_length. cbn [length].
    assert (Hq : n / 8 = Z.of_nat k).
    { unfold k, whole_blocks. rewrite Z.quot_div_nonneg by lia.
      rewrite Z2Nat.id; [reflexivity | apply Z.div_pos; lia]. }
    rewrite Hq. lia.
Qed.

Lemma calculate_MAC_des_3des_is_Retail_MAC_witness :
  calculate_MAC_des_3des Examples.key_40_4F [1; 2; 3; 4; 5; 6; 7; 8; 9; 10] 10 icv =
  Success (Spec.Retail_MAC Examples.key_40_4F (firstn 8 icv)
             (firstn (Z.to_nat 10) [1; 2; 3; 4; 5; 6; 7; 8; 9; 10])).
Proof.
  destruct (calculate_MAC_des_3des_is_Retail_MAC Examples.key_40_4F
              [1; 2; 3; 4; 5; 6; 7; 8; 9; 10] 10 icv) as [H _].
  - vm_compute. split; discriminate.
  - vm_compute. discriminate.
  - vm_compute. discriminate.
  - exact H.
Defined.

(** X5. [calculate_enc_cbc_SCP02] always pads: a message that ends on a block
    gets a whole block of padding, so the cipher text is longer than the
    message, by 1 to 8 bytes.  The MAC [calculate_MAC] computes from the
    zero ICV is its last block. *)
Theorem calculate_enc_cbc_SCP02_always_pads (key message : list Z) (n : Z) :
  0 <= n <= C.len message -> 16 <= C.len key ->
  exists ct mac,
    calculate_enc_cbc_SCP02 key message n = Success ct
    /\ C.len ct = 8 * (n / 8 + 1)
    /\ n < C.len ct <= n + 8
    /\ calculate_MAC key message n icv = Success mac
    /\ mac = skipn (Z.to_nat (C.len ct - 8)) ct.
Proof.
  intros Hn Hkey.
  destruct (calculate_enc_cbc_SCP02_spec key message n Hn Hkey) as [Hct Hlen].
  set (m := firstn (Z.to_nat n) message) in *.
  exists (Spec.SCP02_CBC_encrypt key m), (Spec.TDES_CBC_MAC key icv m).
  split; [exact Hct|]. split; [exact Hlen|]. split.
  - rewrite Hlen. pose proof (Z.div_mod n 8 ltac:(lia)).
    pose proof (Z.mod_pos_bound n 8 ltac:(lia)). lia.
  - split.
    + rewrite calculate_MAC_spec by (assumption || (vm_compute; discriminate)).
      reflexivity.
    + unfold Spec.TDES_CBC_MAC, Spec.SCP02_CBC_encrypt in *.
      change (repeat 0 8) with icv in *.
      set (bs := Spec.blocks_of (Spec.pad m)) in *.
      assert (Hbs : C.len (Spec.cbc_encrypt (DES.ede_encrypt_block key) icv bs)
                    = 8 * Z.of_nat (length bs)).
      { unfold C.len, Bytes.len. rewrite cbc_encrypt_length by reflexivity. lia. }
      assert (Hne : bs <> []).
      { intros E. rewrite Hlen, E in Hbs. cbn [length] in Hbs.
        pose proof (Z.div_pos n 8 ltac:(lia) ltac:(lia)). lia. }
      rewrite <- (cbc_encrypt_last_block _ bs) by (reflexivity || exact Hne).
      f_equal. rewrite Hbs. destruct bs; [contradiction|]. cbn [length]. lia.
Qed.

Lemma calculate_enc_cbc_SCP02_always_pads_witness :
  exists ct mac,
    calculate_enc_cbc_SCP02 Examples.key_40_4F [1; 2; 3; 4; 5; 6; 7; 8] 8
      = Success ct
    /\ C.len ct = 8 * (8 / 8 + 1)
    /\ 8 < C.len ct <= 8 + 8
    /\ calculate_MAC Examples.key_40_4F [1; 2; 3; 4; 5; 6; 7; 8] 8 icv
       = Success mac
    /\ mac = skipn (Z.to_nat (C.len ct - 8)) ct.
Proof.
  apply (calculate_enc_cbc_SCP02_always_pads Examples.key_40_4F
           [1; 2; 3; 4; 5; 6; 7; 8] 8).
  - vm_compute. split; discriminate.
  - vm_compute. discriminate.
Defined.

Lemma xor_icv (blk : list Z) : length blk = 8%nat -> Bytes.xor blk icv = blk.
Proof.
  intros H. do 9 (destruct blk as [|? blk]; try discriminate H).
  unfold icv. cbn [Bytes.xor]. rewrite !Z.lxor_0_r. reflexivity.
Qed.

(** X6. [calculate_MAC_right_des_3des] starts its triple DES from the zero ICV
    again, not from the block the single DES under the right half of the
    key has reached: the MAC is the triple-DES encryption of the padded
    rest of the message after its last whole block, and the whole blocks
    do not enter it. *)
Theorem calculate_MAC_right_des_3des_ignores_whole_blocks
    (key message : list Z) (n : Z) :
  0 <= n <= C.len message -> 16 <= C.len key ->
  let rest := skipn (8 * Z.to_nat (n / 8)) (firstn (Z.to_nat n) message) in
  calculate_MAC_right_des_3des key message n =
    Success (DES.ede_encrypt_block key
               (rest ++ firstn (8 - length rest) padding))
  /\ length rest = Z.to_nat (n mod 8).
Proof.
  intros Hn Hkey rest.
  destruct (length_split n ltac:(lia)) as (Hsplit & Hr & Hrem & Hk).
  set (k := whole_blocks n) in *. set (r := Z.to_nat (Z.rem n 8)) in *.
  assert (Hq : Z.to_nat (n / 8) = k).
  { unfold k, whole_blocks. rewrite Z.quot_div_nonneg by lia. reflexivity. }
  assert (Hrest : rest = firstn r (skipn (8 * k) message)).
  { unfold rest. rewrite Hq, skipn_firstn_comm. f_equal. lia. }
  assert (Hlrest : length rest = r).
  { rewrite Hrest, length_firstn, length_skipn.
    unfold C.len, Bytes.len in Hn. lia. }
  split.
  2:{ rewrite Hlrest. unfold r. rewrite Z.rem_mod_nonneg by lia. reflexivity. }
  rewrite Hlrest, Hrest.
  unfold calculate_MAC_right_des_3des, returns.
  rewrite (at_offset_skipn key 8) by lia.
  cbn [defined]. rewrite bind_ret.
  rewrite (read_firstn (skipn (Z.to_nat 8) key) 8)
    by (unfold C.len, Bytes.len in *; rewrite length_skipn; lia).
  cbn [defined]. rewrite bind_ret.
  set (right := firstn (Z.to_nat 8) (skipn (Z.to_nat 8) key)).
  assert (Hright : C.len right = 8).
  { unfold right, C.len, Bytes.len. rewrite length_firstn, length_skipn.
    unfold C.len, Bytes.len in Hkey. lia. }
  unfold OpenSSL.EVP_EncryptInit_ex at 1.
  change (OpenSSL.key_length OpenSSL.EVP_des_cbc) with 8. cbn [OpenSSL.chained].
  rewrite (read_all right 8) by (symmetry; exact Hright).
  rewrite (read_all icv 8) by reflexivity.
  cbn [evp]. rewrite bind_ret. fold k.
  rewrite mac_loop_then; [ | reflexivity | lia | lia | cbn [length]; lia ].
  cbv zeta. change (Z.to_nat (0 * 8)) with 0%nat. rewrite skipn_O.
  cbn [OpenSSL.EVP_EncryptFinal_ex OpenSSL.ctx_buf evp].
  rewrite bind_ret. unfold bind at 1. cbn [get].
  unfold bind at 1. cbn [put]. rewrite overwrite_nothing.
  unfold OpenSSL.EVP_EncryptInit_ex.
  change (OpenSSL.key_length OpenSSL.EVP_des_ede_cbc) with 16. cbn [OpenSSL.chained].
  rewrite (read_firstn key 16) by lia.
  rewrite (read_all icv 8) by reflexivity.
  change (Z.to_nat 16) with 16%nat.
  cbn [evp]. rewrite bind_ret.
  rewrite (mac_tail _ _ _ _ n k r); [ | reflexivity | assumption | assumption | | ].
  - cbv zeta. run. cbn [OpenSSL.EVP_EncryptFinal_ex OpenSSL.ctx_buf].
    rewrite overwrite_nothing. cbn [OpenSSL.encrypt_block].
    rewrite ede_key_prefix. rewrite xor_icv; [reflexivity|].
    rewrite length_app, !length_firstn, length_skipn.
    unfold C.len, Bytes.len in Hn. cbn [length padding]. lia.
  - lia.
  - destruct k; [cbn [length]; lia|].
    rewrite cbc_last_length; [lia | apply encrypt_block_length | reflexivity].
Qed.

Lemma calculate_MAC_right_des_3des_ignores_whole_blocks_witness :
  calculate_MAC_right_des_3des Examples.key_40_4F
    [1; 2; 3; 4; 5; 6; 7; 8; 9; 10] 10 =
  Success (DES.ede_encrypt_block Examples.key_40_4F
             [9; 10; 0x80; 0; 0; 0; 0; 0]).
Proof.
  destruct (calculate_MAC_right_des_3des_ignores_whole_blocks Examples.key_40_4F
              [1; 2; 3; 4; 5; 6; 7; 8; 9; 10] 10) as [H _].
  - vm_compute. split; discriminate.
  - vm_compute. discriminate.
  - exact H.
Defined.

(* ================================================================== *)
(** ** Cryptograms and session keys *)

(** *** The cryptograms and session keys of SCP01 and SCP02 *)

(** X7. The two cryptograms of SCP01 are the triple-DES CBC-MAC, from the zero
    ICV, of the two challenges: host challenge first for the card
    cryptogram, card challenge first for the host cryptogram, so that the
    host cryptogram is the card cryptogram of the challenges exchanged. *)
Theorem cryptograms_SCP01 (S_ENCSessionKey cardChallenge hostChallenge : list Z) :
  length S_ENCSessionKey = 16%nat ->
  length cardChallenge = 8%nat ->
  length hostChallenge = 8%nat ->
  calculate_card_cryptogram_SCP01 S_ENCSessionKey cardChallenge hostChallenge =
    Success (Spec.TDES_CBC_MAC S_ENCSessionKey icv (hostChallenge ++ cardChallenge))
  /\ calculate_host_cryptogram_SCP01 S_ENCSessionKey cardChallenge hostChallenge =
    Success (Spec.TDES_CBC_MAC S_ENCSessionKey icv (cardChallenge ++ hostChallenge))
  /\ calculate_host_cryptogram_SCP01 S_ENCSessionKey cardChallenge hostChallenge =
     calculate_card_cryptogram_SCP01 S_ENCSessionKey hostChallenge cardChallenge.
Proof.
  intros Hkey Hcc Hhc.
  assert (Hlen : C.len S_ENCSessionKey = 16)
    by (unfold C.len, Bytes.len; rewrite Hkey; reflexivity).
  elements cardChallenge Hcc. elements hostChallenge Hhc.
  split; [|split].
  - cbv -[calculate_MAC call_out Spec.TDES_CBC_MAC].
    rewrite calculate_MAC_spec; [ reflexivity | cbn; lia | lia | cbn; lia ].
  - cbv -[calculate_MAC call_out Spec.TDES_CBC_MAC].
    rewrite calculate_MAC_spec; [ reflexivity | cbn; lia | lia | cbn; lia ].
  - reflexivity.
Qed.

Lemma cryptograms_SCP01_witness :
  calculate_host_cryptogram_SCP01 Examples.key_40_4F
    [8; 9; 10; 11; 12; 13; 14; 15] [0; 1; 2; 3; 4; 5; 6; 7] =
  calculate_card_cryptogram_SCP01 Examples.key_40_4F
    [0; 1; 2; 3; 4; 5; 6; 7] [8; 9; 10; 11; 12; 13; 14; 15].
Proof.
  destruct (cryptograms_SCP01 Examples.key_40_4F
              [8; 9; 10; 11; 12; 13; 14; 15] [0; 1; 2; 3; 4; 5; 6; 7]
              eq_refl eq_refl eq_refl) as (_ & _ & H).
  exact H.
Defined.

(** X8. The host cryptogram of SCP02 is the triple-DES CBC-MAC, from the zero
    ICV, of the sequence counter, the card challenge and the host
    challenge, in this order. *)
Theorem host_cryptogram_SCP02_is_TDES_CBC_MAC
    (S_ENCSessionKey sequenceCounter cardChallenge hostChallenge : list Z) :
  length S_ENCSessionKey = 16%nat ->
  length sequenceCounter = 2%nat ->
  length cardChallenge = 6%nat ->
  length hostChallenge = 8%nat ->
  calculate_host_cryptogram_SCP02 S_ENCSessionKey sequenceCounter
    cardChallenge hostChallenge =
  Success (Spec.TDES_CBC_MAC S_ENCSessionKey icv
             (sequenceCounter ++ cardChallenge ++ hostChallenge)).
Proof.
  intros Hkey Hseq Hcc Hhc.
  assert (Hlen : C.len S_ENCSessionKey = 16)
    by (unfold C.len, Bytes.len; rewrite Hkey; reflexivity).
  elements sequenceCounter Hseq. elements cardChallenge Hcc.
  elements hostChallenge Hhc.
  cbv -[calculate_MAC call_out Spec.TDES_CBC_MAC].
  rewrite calculate_MAC_spec; [ reflexivity | cbn; lia | lia | cbn; lia ].
Qed.

Lemma host_cryptogram_SCP02_is_TDES_CBC_MAC_witness :
  calculate_host_cryptogram_SCP02 Examples.key_40_4F [0x00; 0x01]
    [0x08; 0x09; 0x0A; 0x0B; 0x0C; 0x0D] [0; 1; 2; 3; 4; 5; 6; 7] =
  Success (Spec.TDES_CBC_MAC Examples.key_40_4F icv
             ([0x00; 0x01] ++ [0x08; 0x09; 0x0A; 0x0B; 0x0C; 0x0D]
                ++ [0; 1; 2; 3; 4; 5; 6; 7])).
Proof.
  exact (host_cryptogram_SCP02_is_TDES_CBC_MAC Examples.key_40_4F
           [0x00; 0x01] [0x08; 0x09; 0x0A; 0x0B; 0x0C; 0x0D]
           [0; 1; 2; 3; 4; 5; 6; 7] eq_refl eq_refl eq_refl eq_refl).
Defined.

(** X9. The session key of SCP01: the two-key triple-DES encryption, block by
    block, of the second half of the card challenge with the first half of
    the host challenge, then of the first half of the card challenge with
    the second half of the host challenge. *)
Theorem create_session_key_SCP01_blocks (key cardChallenge hostChallenge : list Z) :
  length key = 16%nat ->
  length cardChallenge = 8%nat ->
  length hostChallenge = 8%nat ->
  create_session_key_SCP01 key cardChallenge hostChallenge =
  Success (DES.ede_encrypt_block key (skipn 4 cardChallenge ++ firstn 4 hostChallenge)
             ++ DES.ede_encrypt_block key
                  (firstn 4 cardChallenge ++ skipn 4 hostChallenge)).
Proof.
  intros Hkey Hcc Hhc.
  assert (Hlen : 16 <= C.len key)
    by (unfold C.len, Bytes.len; rewrite Hkey; lia).
  elements cardChallenge Hcc. elements hostChallenge Hhc.
  match goal with |- _ = ?R => set (rhs := R) end.
  cbv -[calculate_enc_ecb_two_key_triple_des call_out icv rhs].
  unfold calculate_enc_ecb_two_key_triple_des.
  rewrite (encrypt_padding_if_needed_ecb OpenSSL.EVP_des_ede key icv _ 16 eq_refl)
    by (cbn; lia).
  unfold call_out. cbv [bind get put C.overwrite]. rewrite skipn_nil, app_nil_r.
  apply (f_equal Success).
  match goal with
  | |- Spec.ecb_encrypt _ (Spec.blocks_of (Spec.pad_if_needed (firstn _
         [?a; ?b; ?c; ?d; ?e; ?f; ?g; ?h; ?i; ?j; ?k; ?l; ?m; ?n; ?o; ?p]))) = _ =>
      change (Spec.blocks_of (Spec.pad_if_needed (firstn (Z.to_nat 16)
                [a; b; c; d; e; f; g; h; i; j; k; l; m; n; o; p])))
        with [[a; b; c; d; e; f; g; h]; [i; j; k; l; m; n; o; p]]
  end.
  unfold Spec.ecb_encrypt. cbn [map concat OpenSSL.encrypt_block OpenSSL.key_length].
  change (Z.to_nat 16) with 16%nat.
  rewrite !ede_key_prefix, app_nil_r. reflexivity.
Qed.

Lemma create_session_key_SCP01_blocks_witness :
  create_session_key_SCP01 Examples.key_40_4F
    [8; 9; 10; 11; 12; 13; 14; 15] [0; 1; 2; 3; 4; 5; 6; 7] =
  Success (DES.ede_encrypt_block Examples.key_40_4F [12; 13; 14; 15; 0; 1; 2; 3]
             ++ DES.ede_encrypt_block Examples.key_40_4F
                  [8; 9; 10; 11; 4; 5; 6; 7]).
Proof.
  exact (create_session_key_SCP01_blocks Examples.key_40_4F
           [8; 9; 10; 11; 12; 13; 14; 15] [0; 1; 2; 3; 4; 5; 6; 7]
           eq_refl eq_refl eq_refl).
Defined.

(** X10. The session key of SCP02: the triple-DES CBC encryption, from the zero
    ICV and without padding, of the constant, the sequence counter and 12
    zero bytes.  Its second block is zero, so the second half of the
    session key is the encryption of the first half. *)
Theorem create_session_key_SCP02_blocks (key constant sequenceCounter : list Z) :
  length key = 16%nat ->
  length constant = 2%nat ->
  length sequenceCounter = 2%nat ->
  let left := DES.ede_encrypt_block key
                (constant ++ sequenceCounter ++ [0; 0; 0; 0]) in
  create_session_key_SCP02 key constant sequenceCounter =
  Success (left ++ DES.ede_encrypt_block key left).
Proof.
  intros Hkey Hc Hs left.
  assert (Hlen : 16 <= C.len key)
    by (unfold C.len, Bytes.len; rewrite Hkey; lia).
  assert (Hleft : length left = 8%nat) by reflexivity.
  elements constant Hc. elements sequenceCounter Hs.
  match goal with |- _ = ?R => set (rhs := R) end.
  cbv -[calculate_enc_cbc call_out icv rhs left].
  rewrite calculate_enc_cbc_blocks by (cbn; lia).
  unfold call_out. cbv [bind get put C.overwrite]. rewrite skipn_nil, app_nil_r.
  apply (f_equal Success).
  match goal with
  | |- Spec.cbc_encrypt _ _ (Spec.blocks_of (Spec.pad_if_needed (firstn _
         [?a; ?b; ?c; ?d; ?e; ?f; ?g; ?h; ?i; ?j; ?k; ?l; ?m; ?n; ?o; ?p]))) = _ =>
      change (Spec.blocks_of (Spec.pad_if_needed (firstn (Z.to_nat 16)
                [a; b; c; d; e; f; g; h; i; j; k; l; m; n; o; p])))
        with [[a; b; c; d; e; f; g; h]; [i; j; k; l; m; n; o; p]]
  end.
  cbn [Spec.cbc_encrypt]. rewrite app_nil_r.
  rewrite (xor_icv [z; z0; z1; z2; 0; 0; 0; 0]) by reflexivity.
  change (DES.ede_encrypt_block key [z; z0; z1; z2; 0; 0; 0; 0]) with left.
  replace (Bytes.xor [0; 0; 0; 0; 0; 0; 0; 0] left) with left; [reflexivity|].
  clearbody left. clear rhs.
  do 9 (destruct left as [|? left]; try discriminate Hleft).
  reflexivity.
Qed.

Lemma create_session_key_SCP02_blocks_witness :
  create_session_key_SCP02 Examples.key_40_4F [0x01; 0x82] [0x00; 0x01] =
  Success (DES.ede_encrypt_block Examples.key_40_4F
             ([0x01; 0x82] ++ [0x00; 0x01] ++ [0; 0; 0; 0])
           ++ DES.ede_encrypt_block Examples.key_40_4F
                (DES.ede_encrypt_block Examples.key_40_4F
                   ([0x01; 0x82] ++ [0x00; 0x01] ++ [0; 0; 0; 0]))).
Proof.
  exact (create_session_key_SCP02_blocks Examples.key_40_4F
           [0x01; 0x82] [0x00; 0x01] eq_refl eq_refl eq_refl).
Defined.

(** *** The cryptograms and the card challenge of SCP03 *)

(** [calculate_MAC_aes] is the AES-128 CMAC of the first [messageLength]
    bytes of the message under the first 16 bytes of the key. *)
Lemma calculate_MAC_aes_cmac (key message : list Z) (n : Z) :
  0 <= n <= C.len message -> n < 2 ^ 31 -> 16 <= C.len key ->
  calculate_MAC_aes key message n =
  Success (AES.cmac (firstn 16 key) (firstn (Z.to_nat n) message)).
Proof.
  intros Hn Hsmall Hkey. unfold calculate_MAC_aes, returns.
  unfold OpenSSL.CMAC_Init. rewrite (read_firstn key 16) by lia.
  change (Z.to_nat 16) with 16%nat. cbn [evp]. rewrite bind_ret.
  unfold OpenSSL.CMAC_Update.
  replace (C.to_size_t n) with n
    by (unfold C.to_size_t; rewrite Z.mod_small; lia).
  rewrite (read_firstn message n) by lia.
  cbn [evp OpenSSL.cmac_key OpenSSL.cmac_data app]. rewrite bind_ret.
  reflexivity.
Qed.

(** X11. The card and the host cryptogram of SCP03 are the first 8 bytes of the
    AES-128 CMAC of the same 32 bytes but one: 11 zero bytes, the constant
    [00] for the card and [01] for the host, [00 00 40 01], the host
    challenge and the card challenge. *)
Theorem cryptograms_SCP03 (S_MACSessionKey cardChallenge hostChallenge : list Z) :
  length S_MACSessionKey = 16%nat ->
  length cardChallenge = 8%nat ->
  length hostChallenge = 8%nat ->
  let data constant :=
    repeat 0 11 ++ [constant; 0x00; 0x00; 0x40; 0x01]
      ++ hostChallenge ++ cardChallenge in
  calculate_card_cryptogram_SCP03 S_MACSessionKey cardChallenge hostChallenge =
    Success (firstn 8 (AES.cmac S_MACSessionKey (data 0x00)))
  /\ calculate_host_cryptogram_SCP03 S_MACSessionKey cardChallenge hostChallenge =
    Success (firstn 8 (AES.cmac S_MACSessionKey (data 0x01)))
  /\ length (firstn 8 (AES.cmac S_MACSessionKey (data 0x00))) = 8%nat
  /\ length (firstn 8 (AES.cmac S_MACSessionKey (data 0x01))) = 8%nat.
Proof.
  intros Hkey Hcc Hhc data.
  assert (Hlen : 16 <= C.len S_MACSessionKey)
    by (unfold C.len, Bytes.len; rewrite Hkey; lia).
  assert (Hk16 : firstn 16 S_MACSessionKey = S_MACSessionKey)
    by (apply firstn_all2; lia).
  assert (Hmac : forall m, length (firstn 8 (AES.cmac S_MACSessionKey m)) = 8%nat).
  { intros m. rewrite length_firstn, cmac_length by exact Hkey. reflexivity. }
  split; [|split; [|split; apply Hmac]].
  - unfold data. elements cardChallenge Hcc. elements hostChallenge Hhc.
    match goal with |- _ = ?R => set (rhs := R) end.
    cbv -[calculate_MAC_aes first_8_bytes_of_MAC_aes rhs].
    unfold first_8_bytes_of_MAC_aes.
    rewrite calculate_MAC_aes_cmac by (cbn; lia).
    rewrite Hk16. cbn [call]. rewrite bind_ret.
    rewrite read_firstn.
    2:{ unfold C.len, Bytes.len. rewrite cmac_length by exact Hkey. lia. }
    cbn [defined]. rewrite bind_ret. cbv [bind get put C.overwrite].
    rewrite skipn_nil, app_nil_r. reflexivity.
  - unfold data. elements cardChallenge Hcc. elements hostChallenge Hhc.
    match goal with |- _ = ?R => set (rhs := R) end.
    cbv -[calculate_MAC_aes first_8_bytes_of_MAC_aes rhs].
    unfold first_8_bytes_of_MAC_aes.
    rewrite calculate_MAC_aes_cmac by (cbn; lia).
    rewrite Hk16. cbn [call]. rewrite bind_ret.
    rewrite read_firstn.
    2:{ unfold C.len, Bytes.len. rewrite cmac_length by exact Hkey. lia. }
    cbn [defined]. rewrite bind_ret. cbv [bind get put C.overwrite].
    rewrite skipn_nil, app_nil_r. reflexivity.
Qed.

Lemma cryptograms_SCP03_witness :
  calculate_card_cryptogram_SCP03 Examples.key_40_4F
    [8; 9; 10; 11; 12; 13; 14; 15] [0; 1; 2; 3; 4; 5; 6; 7] =
  Success (firstn 8 (AES.cmac Examples.key_40_4F
                       (repeat 0 11 ++ [0x00; 0x00; 0x00; 0x40; 0x01]
                          ++ [0; 1; 2; 3; 4; 5; 6; 7]
                          ++ [8; 9; 10; 11; 12; 13; 14; 15]))).
Proof.
  destruct (cryptograms_SCP03 Examples.key_40_4F
              [8; 9; 10; 11; 12; 13; 14; 15] [0; 1; 2; 3; 4; 5; 6; 7]
              eq_refl eq_refl eq_refl) as [H _].
  exact H.
Defined.

(** The 19 bytes [calculate_card_challenge_SCP03] has written when it
    copies the AID. *)
Lemma card_challenge_prefix {Mem} (s0 s1 s2 : Z)
    (B : Type) (k : C.block -> M Mem B) :
  (derivation_data <- defined (C.block_store (C.malloc 35) 0 (repeat 0 11)) ;;
   derivation_data <- defined (C.block_store derivation_data 11 [0x02]) ;;
   derivation_data <- defined (C.block_store derivation_data 12 [0x00]) ;;
   derivation_data <- defined (C.block_store derivation_data 13 [0x00]) ;;
   derivation_data <- defined (C.block_store derivation_data 14 [0x40]) ;;
   derivation_data <- defined (C.block_store derivation_data 15 [0x01]) ;;
   derivation_data <- memcpy_block derivation_data 16 [s0; s1; s2] 3 ;;
   k derivation_data) =
  k (map Some (repeat 0 11 ++ [0x02; 0x00; 0x00; 0x40; 0x01] ++ [s0; s1; s2])
       ++ repeat None 16).
Proof. reflexivity. Qed.

(** X12. [calculate_card_challenge_SCP03]: the first 8 bytes of the AES-128 CMAC
    of 11 zero bytes, [02 00 00 40 01], the sequence counter and the AID,
    for an AID of at most 16 bytes; a longer AID is copied past the end of
    [derivation_data]. *)
Theorem calculate_card_challenge_SCP03_cmac
    (S_ENC sequenceCounter invokingAID : list Z) :
  length S_ENC = 16%nat ->
  length sequenceCounter = 3%nat ->
  (C.len invokingAID <= 16 ->
   calculate_card_challenge_SCP03 S_ENC sequenceCounter invokingAID =
   Success (firstn 8 (AES.cmac S_ENC
                        (repeat 0 11 ++ [0x02; 0x00; 0x00; 0x40; 0x01]
                           ++ sequenceCounter ++ invokingAID))))
  /\ (16 < C.len invokingAID ->
      calculate_card_challenge_SCP03 S_ENC sequenceCounter invokingAID = Undefined).
Proof.
  intros Hkey Hs.
  assert (Hlen : 16 <= C.len S_ENC)
    by (unfold C.len, Bytes.len; rewrite Hkey; lia).
  assert (Hk16 : firstn 16 S_ENC = S_ENC) by (apply firstn_all2; lia).
  pose proof (len_nonneg invokingAID) as Ha0.
  elements sequenceCounter Hs.
  set (prefix := repeat 0 11 ++ [0x02; 0x00; 0x00; 0x40; 0x01] ++ [z; z0; z1]).
  assert (Hp : C.len prefix = 19) by reflexivity.
  split; intros Ha; unfold calculate_card_challenge_SCP03, returns;
    rewrite card_challenge_prefix; fold prefix.
  - rewrite (bind_val _ _ _ _ _
               (memcpy_block_next prefix invokingAID 16 19 (C.len invokingAID) _
                  eq_refl ltac:(lia) ltac:(lia))).
    rewrite (firstn_all2 (n := Z.to_nat (C.len invokingAID)) invokingAID)
      by (unfold C.len, Bytes.len; lia).
    assert (Hpa : C.len (prefix ++ invokingAID) = 19 + C.len invokingAID)
      by (rewrite len_app, Hp; reflexivity).
    assert (Hd : C.DWORD (19 + C.len invokingAID) = C.len (prefix ++ invokingAID))
      by (rewrite Hpa; unfold C.DWORD; apply Z.mod_small; lia).
    rewrite Hd.
    assert (Hint : C.to_int (C.len (prefix ++ invokingAID))
                   = C.len (prefix ++ invokingAID)).
    { rewrite <- Hd at 1. rewrite to_int_small by lia. symmetry. exact Hpa. }
    rewrite Hint.
    replace (Z.to_nat (C.len (prefix ++ invokingAID)))
      with (length (map Some (prefix ++ invokingAID)))
      by (rewrite length_map; unfold C.len, Bytes.len; lia).
    rewrite firstn_app, firstn_all, Nat.sub_diag, firstn_O, app_nil_r.
    rewrite block_bytes_written. cbn [defined]. rewrite bind_ret.
    unfold first_8_bytes_of_MAC_aes.
    rewrite (calculate_MAC_aes_cmac S_ENC (prefix ++ invokingAID)
               (C.len (prefix ++ invokingAID))
               ltac:(lia) ltac:(lia) Hlen).
    rewrite Hk16. unfold C.len, Bytes.len. rewrite Nat2Z.id, firstn_all.
    cbn [call]. rewrite bind_ret.
    rewrite read_firstn.
    2:{ unfold C.len, Bytes.len. rewrite cmac_length by exact Hkey. lia. }
    cbn [defined]. rewrite bind_ret. cbv [bind get put C.overwrite].
    rewrite skipn_nil, app_nil_r.
    unfold prefix. rewrite <- !app_assoc. reflexivity.
  - unfold memcpy_block. rewrite read_all by reflexivity.
    cbn [defined]. rewrite bind_ret.
    unfold C.block_store.
    replace (19 + C.len invokingAID
               <=? Z.of_nat (length (map Some prefix ++ repeat None 16)))
      with false; [reflexivity|].
    symmetry. apply Z.leb_gt. rewrite length_app, length_map, repeat_length.
    unfold C.len, Bytes.len in Hp. lia.
Qed.

Lemma calculate_card_challenge_SCP03_cmac_witness :
  calculate_card_challenge_SCP03 Examples.key_40_4F [0; 0; 1]
    [0xA0; 0x00; 0x00; 0x01; 0x51] =
  Success (firstn 8 (AES.cmac Examples.key_40_4F
                       (repeat 0 11 ++ [0x02; 0x00; 0x00; 0x40; 0x01]
                          ++ [0; 0; 1] ++ [0xA0; 0x00; 0x00; 0x01; 0x51])))
  /\ calculate_card_challenge_SCP03 Examples.key_40_4F [0; 0; 1] (repeat 0 17)
     = Undefined.
Proof.
  split.
  - apply (calculate_card_challenge_SCP03_cmac Examples.key_40_4F [0; 0; 1]
             [0xA0; 0x00; 0x00; 0x01; 0x51] eq_refl eq_refl).
    vm_compute. discriminate.
  - apply (calculate_card_challenge_SCP03_cmac Examples.key_40_4F [0; 0; 1]
             (repeat 0 17) eq_refl eq_refl).
    vm_compute. reflexivity.
Defined.

(* ================================================================== *)
(** ** The data field of a key *)

Lemma write_field_val (i : Z) (data buf buf' : list Z) (l : Z) (c : list Z) :
  C.store buf i data = Some buf' ->
  write_field i data (mkKeyField buf l c) = Val tt (mkKeyField buf' l c).
Proof.
  intros H. unfold write_field. run. cbn [field_bytes field_length check_value].
  rewrite H. reflexivity.
Qed.

(** The key check value: the triple-DES encryption of 8 zero bytes under
    the key itself. *)
Lemma key_check_value_block {Mem} (keyData : list Z) (s : Mem) :
  16 <= C.len keyData ->
  call_into 16
    (calculate_enc_ecb_two_key_triple_des keyData [0; 0; 0; 0; 0; 0; 0; 0] 8) s =
  Val (DES.ede_encrypt_block keyData [0; 0; 0; 0; 0; 0; 0; 0]) s.
Proof.
  intros Hk. unfold call_into, calculate_enc_ecb_two_key_triple_des.
  rewrite (encrypt_padding_if_needed_ecb OpenSSL.EVP_des_ede keyData icv
             [0; 0; 0; 0; 0; 0; 0; 0] 8 eq_refl)
    by (cbn; lia).
  change (Spec.blocks_of (Spec.pad_if_needed (firstn (Z.to_nat 8) [0; 0; 0; 0; 0; 0; 0; 0])))
    with [[0; 0; 0; 0; 0; 0; 0; 0]].
  unfold Spec.ecb_encrypt. cbn [map concat OpenSSL.encrypt_block OpenSSL.key_length call].
  change (Z.to_nat 16) with 16%nat.
  rewrite ede_key_prefix, app_nil_r, bind_ret.
  replace (C.len (DES.ede_encrypt_block keyData [0; 0; 0; 0; 0; 0; 0; 0]) >? 16)
    with false; [reflexivity|].
  unfold C.len, Bytes.len.
  rewrite (encrypt_block_length OpenSSL.EVP_des_ede keyData). reflexivity.
Qed.

Lemma write_field_after (a b data : list Z) (i l : Z) (c : list Z) :
  i = C.len a -> C.len data <= C.len b ->
  write_field i data (mkKeyField (a ++ b) l c) =
  Val tt (mkKeyField ((a ++ data) ++ skipn (length data) b) l c).
Proof.
  intros Hi Hb. apply write_field_val.
  rewrite <- app_assoc. apply store_after; assumption.
Qed.

Lemma len_skipn (k : nat) (l : list Z) :
  C.len (skipn k l) = C.len l - Z.min (Z.of_nat k) (C.len l).
Proof. unfold C.len, Bytes.len. rewrite length_skipn. lia. Qed.

Lemma DWORD_eq (x y : Z) : x = y -> 0 <= y < 2 ^ 32 -> C.DWORD x = y.
Proof. intros -> H. unfold C.DWORD. apply Z.mod_small. exact H. Qed.

Lemma write_field_outside (i : Z) (data buf : list Z) (l : Z) (c : list Z) :
  C.len buf < i + C.len data ->
  write_field i data (mkKeyField buf l c) = Undef.
Proof.
  intros H. unfold write_field. run. cbn [field_bytes].
  unfold C.store.
  replace (i + C.len data <=? C.len buf) with false
    by (symmetry; apply Z.leb_gt; lia).
  rewrite andb_false_r. reflexivity.
Qed.

(** A write into the buffer is outside of it or leaves its size, the
    length and the check value as they are. *)
Lemma write_field_cases (i : Z) (data buf : list Z) (l : Z) (c : list Z) :
  write_field i data (mkKeyField buf l c) = Undef
  \/ exists buf', write_field i data (mkKeyField buf l c) = Val tt (mkKeyField buf' l c)
                  /\ C.len buf' = C.len buf.
Proof.
  unfold write_field. run. cbn [field_bytes field_length check_value].
  destruct (C.store buf i data) as [buf'|] eqn:H; [right|left; reflexivity].
  exists buf'. split; [reflexivity|].
  unfold C.store in H.
  destruct ((0 <=? i) && (i + C.len data <=? C.len buf)) eqn:Hb; [|discriminate].
  apply andb_prop in Hb. destruct Hb as [H0 H1].
  apply Z.leb_le in H0, H1. injection H as <-.
  pose proof (len_nonneg data).
  rewrite !len_app, len_skipn. unfold C.len at 1, Bytes.len at 1.
  rewrite length_firstn. unfold C.len, Bytes.len in *. lia.
Qed.

Lemma key_check_value_length (keyData : list Z) :
  length (firstn 3 (DES.ede_encrypt_block keyData [0; 0; 0; 0; 0; 0; 0; 0])) = 3%nat.
Proof.
  rewrite length_firstn.
  rewrite (encrypt_block_length OpenSSL.EVP_des_ede keyData). reflexivity.
Qed.

(** The end of the field, in a buffer with room for it. *)
Lemma write_key_check_value_val (keyData a b : list Z) (i l : Z) (c : list Z) :
  16 <= C.len keyData -> i = C.len a -> 4 <= C.len b -> i + 4 < 2 ^ 32 ->
  3 <= C.len c ->
  let kcv := firstn 3 (DES.ede_encrypt_block keyData [0; 0; 0; 0; 0; 0; 0; 0]) in
  write_key_check_value keyData i (mkKeyField (a ++ b) l c) =
  Val tt (mkKeyField (a ++ [0x03] ++ kcv ++ skipn 4 b) (i + 4) (kcv ++ skipn 3 c)).
Proof.
  intros Hk Hi Hb Hsmall Hc kcv.
  pose proof (key_check_value_length keyData) as Hkcv. fold kcv in Hkcv.
  assert (Hkcv' : C.len kcv = 3) by (unfold C.len, Bytes.len; rewrite Hkcv; reflexivity).
  pose proof (len_nonneg a).
  assert (Hd : forall x, 0 <= x <= 4 -> C.DWORD (i + x) = i + x)
    by (intros x Hx; unfold C.DWORD; apply Z.mod_small; lia).
  unfold write_key_check_value.
  rewrite (bind_val _ _ _ _ _
             (write_field_after a b [0x03] i _ _ Hi
                ltac:(change (C.len [0x03]) with 1; lia))).
  set (b1 := skipn (length [0x03]) b).
  assert (H1 : C.len b1 = C.len b - 1)
    by (unfold b1; rewrite len_skipn; cbn [length]; lia).
  rewrite Hd by lia.
  rewrite (bind_val _ _ _ _ _ (key_check_value_block keyData _ Hk)).
  rewrite (read_firstn _ 3)
    by (unfold C.len, Bytes.len;
        rewrite (encrypt_block_length OpenSSL.EVP_des_ede keyData); lia).
  change (Z.to_nat 3) with 3%nat. fold kcv.
  cbn [defined]. rewrite bind_ret.
  rewrite (bind_val _ _ _ _ _
             (write_field_after (a ++ [0x03]) b1 kcv (i + 1) _ _
                ltac:(rewrite len_app; change (C.len [0x03]) with 1; lia)
                ltac:(lia))).
  unfold bind at 1. cbn [get check_value field_bytes].
  rewrite store_at_start by lia.
  cbn [defined]. rewrite bind_ret. unfold put.
  replace (i + 1 + 3) with (i + 4) by lia. rewrite Hd by lia.
  rewrite Hkcv. unfold b1. rewrite skipn_skipn. cbn [length Nat.add].
  rewrite <- !app_assoc. reflexivity.
Qed.

(** The end of the field, in a buffer without room for it. *)
Lemma write_key_check_value_outside (keyData buf : list Z) (i l : Z)
    (c : list Z) :
  16 <= C.len keyData -> 0 <= i -> i + 4 < 2 ^ 32 -> C.len buf < i + 4 ->
  write_key_check_value keyData i (mkKeyField buf l c) = Undef.
Proof.
  intros Hk Hi Hsmall Hb.
  pose proof (key_check_value_length keyData) as Hkcv.
  unfold write_key_check_value.
  destruct (write_field_cases i [0x03] buf l c) as [H|(buf' & H & Hlen)].
  - unfold bind at 1. rewrite H. reflexivity.
  - rewrite (bind_val _ _ _ _ _ H).
    rewrite (bind_val _ _ _ _ _ (key_check_value_block keyData _ Hk)).
    rewrite (read_firstn _ 3)
      by (unfold C.len, Bytes.len;
          rewrite (encrypt_block_length OpenSSL.EVP_des_ede keyData); lia).
    change (Z.to_nat 3) with 3%nat.
    cbn [defined]. rewrite bind_ret.
    unfold bind at 1. rewrite write_field_outside; [reflexivity|].
    unfold C.len at 2, Bytes.len. rewrite Hkcv.
    replace (C.DWORD (i + 1)) with (i + 1)
      by (symmetry; apply DWORD_eq; lia).
    lia.
Qed.

(** The two bytes at the head of the field. *)
Lemma write_key_type_and_length (keyType n : Z) (field : list Z) (l : Z)
    (c : list Z) {B} (f : M key_field B) :
  2 <= C.len field ->
  (write_field 0 [keyType] ;; write_field (0 + 1) [C.BYTE n] ;; f)
    (mkKeyField field l c) =
  f (mkKeyField ([keyType; C.BYTE n] ++ skipn 2 field) l c).
Proof.
  intros H.
  change field with ([] ++ field) at 1.
  rewrite (bind_val _ _ _ _ _
             (write_field_after [] field [keyType] 0 _ _ eq_refl
                ltac:(change (C.len [keyType]) with 1; lia))).
  rewrite (bind_val _ _ _ _ _
             (write_field_after ([] ++ [keyType]) (skipn (length [keyType]) field)
                [C.BYTE n] (0 + 1) _ _ eq_refl
                ltac:(rewrite len_skipn; change (C.len [C.BYTE n]) with 1;
                      cbn [length]; lia))).
  rewrite skipn_skipn. reflexivity.
Qed.

(** X13. A key that is not sensitive is copied as it is: the field holds the key
    type, the length of the key, the key, [03] and the key check value, the
    first 3 bytes of the triple-DES encryption of 8 zero bytes under the
    key; it is 6 bytes longer than the key.  The key check value is
    returned in [keyCheckValue] as well. *)
Theorem get_key_data_field_not_sensitive_layout
    (secInfo : option GP211_SECURITY_INFO)
    (keyData : list Z) (keyType : Z) (field : list Z) (fieldLength : Z)
    (check : list Z) :
  let n := C.len keyData in
  let kcv := firstn 3 (DES.ede_encrypt_block keyData [0; 0; 0; 0; 0; 0; 0; 0]) in
  16 <= n -> n + 3 <= fieldLength -> n + 6 <= C.len field ->
  C.len field < 2 ^ 32 -> 3 <= C.len check ->
  get_key_data_field secInfo keyData keyType 0 field fieldLength check =
  Success (mkKeyField
             ([keyType; C.BYTE n] ++ keyData ++ [0x03] ++ kcv
                ++ skipn (Z.to_nat (n + 6)) field)
             (n + 6)
             (kcv ++ skipn 3 check)).
Proof.
  intros n kcv Hk Hlen Hroom Hsmall Hcheck.
  unfold get_key_data_field, returns. fold n.
  change (negb (0 =? 0)) with false. cbv iota.
  unfold bind at 1. cbn [get field_length].
  replace (C.DWORD (1 + 1 + n + 1)) with (n + 3)
    by (symmetry; apply DWORD_eq; lia).
  replace (n + 3 >? fieldLength) with false
    by (symmetry; rewrite Z.gtb_ltb; apply Z.ltb_ge; lia).
  rewrite write_key_type_and_length by lia.
  rewrite (read_all keyData n) by reflexivity.
  cbn [defined]. rewrite bind_ret.
  assert (H2 : C.len (skipn 2 field) = C.len field - 2)
    by (rewrite len_skipn; lia).
  rewrite (bind_val _ _ _ _ _
             (write_field_after [keyType; C.BYTE n] (skipn 2 field) keyData
                (0 + 1 + 1) _ _ eq_refl ltac:(fold n; lia))).
  replace (C.DWORD (0 + 1 + 1 + n)) with (n + 2)
    by (symmetry; apply DWORD_eq; lia).
  set (b := skipn (length keyData) (skipn 2 field)).
  assert (Hb : C.len b = C.len field - 2 - n).
  { unfold b. rewrite len_skipn. change (Z.of_nat (length keyData)) with n. lia. }
  rewrite (write_key_check_value_val keyData ([keyType; C.BYTE n] ++ keyData) b
             (n + 2) _ _ Hk
             ltac:(rewrite len_app; fold n; change (C.len [keyType; C.BYTE n]) with 2; lia)
             ltac:(lia) ltac:(lia) Hcheck).
  fold kcv. replace (n + 2 + 4) with (n + 6) by lia.
  apply (f_equal Success). f_equal.
  rewrite <- !app_assoc. cbn [app]. do 2 f_equal.
  apply (f_equal (app keyData)). apply (f_equal (cons 3)). apply (f_equal (app kcv)).
  unfold b. rewrite !skipn_skipn. f_equal. unfold n, C.len, Bytes.len. lia.
Qed.

Lemma get_key_data_field_not_sensitive_layout_witness :
  get_key_data_field None Examples.key_40_4F 0x80 0 (repeat 0 22) 22 [0; 0; 0] =
  Success (mkKeyField
             ([0x80; C.BYTE (C.len Examples.key_40_4F)] ++ Examples.key_40_4F
                ++ [0x03]
                ++ firstn 3 (DES.ede_encrypt_block Examples.key_40_4F
                               [0; 0; 0; 0; 0; 0; 0; 0])
                ++ skipn (Z.to_nat (C.len Examples.key_40_4F + 6)) (repeat 0 22))
             (C.len Examples.key_40_4F + 6)
             (firstn 3 (DES.ede_encrypt_block Examples.key_40_4F
                          [0; 0; 0; 0; 0; 0; 0; 0]) ++ skipn 3 [0; 0; 0])).
Proof.
  apply (get_key_data_field_not_sensitive_layout None Examples.key_40_4F 0x80 (repeat 0 22) 22
           [0; 0; 0]); vm_compute; (discriminate || reflexivity).
Defined.

(** X14. For a key that is not sensitive the size check leaves the key check
    value out: it accepts a length of 3 bytes more than the key, and the
    field takes 6.  In a buffer of fewer than 6 bytes more than the key the
    function then writes past the end. *)
Theorem get_key_data_field_size_check_too_small
    (secInfo : option GP211_SECURITY_INFO)
    (keyData : list Z) (keyType : Z) (field : list Z) (fieldLength : Z)
    (check : list Z) :
  let n := C.len keyData in
  16 <= n -> n + 6 < 2 ^ 32 ->
  n + 3 <= fieldLength -> C.len field < n + 6 ->
  get_key_data_field secInfo keyData keyType 0 field fieldLength check =
  Undefined.
Proof.
  intros n Hk Hsmall Hlen Hroom.
  unfold get_key_data_field, returns. fold n.
  change (negb (0 =? 0)) with false. cbv iota.
  unfold bind at 1. cbn [get field_length].
  replace (C.DWORD (1 + 1 + n + 1)) with (n + 3)
    by (symmetry; apply DWORD_eq; lia).
  replace (n + 3 >? fieldLength) with false
    by (symmetry; rewrite Z.gtb_ltb; apply Z.ltb_ge; lia).
  destruct (write_field_cases 0 [keyType] field fieldLength check)
    as [H|(b1 & H & H1)]; [unfold bind at 1; rewrite H; reflexivity|].
  rewrite (bind_val _ _ _ _ _ H).
  destruct (write_field_cases (0 + 1) [C.BYTE n] b1 fieldLength check)
    as [H'|(b2 & H' & H2)]; [unfold bind at 1; rewrite H'; reflexivity|].
  rewrite (bind_val _ _ _ _ _ H').
  rewrite (read_all keyData n) by reflexivity.
  cbn [defined]. rewrite bind_ret.
  destruct (write_field_cases (0 + 1 + 1) keyData b2 fieldLength check)
    as [H''|(b3 & H'' & H3)]; [unfold bind at 1; rewrite H''; reflexivity|].
  rewrite (bind_val _ _ _ _ _ H'').
  replace (C.DWORD (0 + 1 + 1 + n)) with (n + 2)
    by (symmetry; apply DWORD_eq; lia).
  rewrite write_key_check_value_outside by lia.
  reflexivity.
Qed.

Lemma get_key_data_field_size_check_too_small_witness :
  get_key_data_field None Examples.key_40_4F 0x80 0 (repeat 0 19) 19 [0; 0; 0] =
  Undefined.
Proof.
  apply (get_key_data_field_size_check_too_small None Examples.key_40_4F 0x80
           (repeat 0 19) 19 [0; 0; 0]); vm_compute; (discriminate || reflexivity).
Defined.

Lemma to_int_len (x : Z) : 0 <= x < 2 ^ 31 -> C.to_int x = x.
Proof.
  intros H. unfold C.to_int. rewrite Z.mod_small by lia.
  replace (x <? 2 ^ 31) with true by (symmetry; apply Z.ltb_lt; lia).
  reflexivity.
Qed.

(** A key of whole blocks, cut into them. *)
Lemma whole_blocks_of_key (keyData : list Z) :
  C.len keyData mod 8 = 0 ->
  let k := whole_blocks (C.len keyData) in
  length keyData = (8 * k + 0)%nat
  /\ Spec.blocks_of keyData = Spec.blocks k keyData.
Proof.
  intros Hmod k.
  pose proof (len_nonneg keyData) as H0.
  destruct (length_split (C.len keyData) H0) as (Hsplit & _ & Hrem & _).
  fold k in Hsplit.
  rewrite Z.rem_mod_nonneg, Hmod in Hsplit by lia.
  unfold C.len, Bytes.len in Hsplit. rewrite Nat2Z.id in Hsplit.
  change (Z.to_nat 0) with 0%nat in Hsplit.
  split; [exact Hsplit|].
  unfold Spec.blocks_of. rewrite Hsplit.
  replace (8 * k + 0)%nat with (k * 8)%nat by lia.
  rewrite Nat.div_mul by discriminate. reflexivity.
Qed.

(** The sensitive key as [get_key_data_field] encrypts it: the cipher text
    fits [encrypted_key] and starts with the encryption of the blocks of
    the key. *)
Lemma encrypted_key_val {Mem} (si : GP211_SECURITY_INFO) (keyData : list Z)
    (s : Mem) :
  let n := C.len keyData in
  let dek := dataEncryptionSessionKey si in
  let enc :=
    if key_encrypted_cbc si
    then Spec.cbc_encrypt (DES.ede_encrypt_block dek) icv (Spec.blocks_of keyData)
    else Spec.ecb_encrypt (DES.ede_encrypt_block dek) (Spec.blocks_of keyData) in
  16 <= C.len dek -> n mod 8 = 0 ->
  n <= (if key_encrypted_cbc si then 16 else 24) ->
  exists full,
    call_into 24
      (if key_encrypted_cbc si
       then calculate_enc_cbc_SCP02 dek keyData (C.to_int n)
       else calculate_enc_ecb_two_key_triple_des dek keyData (C.to_int n)) s =
    Val full s
    /\ C.read full n = Some enc /\ C.len enc = n.
Proof.
  intros n dek enc Hdek Hmod Hn.
  pose proof (len_nonneg keyData) as H0. fold n in H0.
  assert (Hn24 : n <= 24) by (destruct (key_encrypted_cbc si); lia).
  destruct (whole_blocks_of_key keyData Hmod) as [Hlen Hblocks].
  fold n in Hlen, Hblocks. set (k := whole_blocks n) in *.
  assert (Hk : n = Z.of_nat (8 * k)).
  { unfold n, C.len, Bytes.len. rewrite Hlen. f_equal. lia. }
  assert (Hall : firstn (Z.to_nat n) keyData = keyData).
  { apply firstn_all2. unfold n, C.len, Bytes.len. lia. }
  rewrite to_int_len by lia.
  unfold enc, call_into. rewrite Hblocks.
  destruct (key_encrypted_cbc si).
  - destruct (calculate_enc_cbc_SCP02_spec dek keyData n ltac:(fold n; lia) Hdek)
      as [Henc Hct].
    rewrite Henc, Hall in *. cbn [call]. rewrite bind_ret.
    exists (Spec.SCP02_CBC_encrypt dek keyData).
    rewrite Hct.
    replace (8 * (n / 8 + 1) >? 24) with false.
    2:{ symmetry. rewrite Z.gtb_ltb. apply Z.ltb_ge.
        assert (n / 8 <= 2) by (apply Z.div_le_upper_bound; lia). lia. }
    split; [reflexivity|].
    assert (Hx : C.len (Spec.cbc_encrypt (DES.ede_encrypt_block dek) icv
                          (Spec.blocks k keyData)) = n).
    { unfold C.len at 1, Bytes.len.
      rewrite cbc_encrypt_length
        by (intros x; apply (encrypt_block_length OpenSSL.EVP_des_ede dek)).
      rewrite blocks_length. symmetry. exact Hk. }
    split; [|exact Hx].
    unfold Spec.SCP02_CBC_encrypt.
    rewrite (pad_blocks keyData k 0 Hlen ltac:(lia)).
    change (repeat 0 8) with icv.
    rewrite cbc_encrypt_app. apply read_app. symmetry. exact Hx.
  - unfold calculate_enc_ecb_two_key_triple_des.
    rewrite (encrypt_padding_if_needed_ecb OpenSSL.EVP_des_ede dek icv keyData n
               eq_refl ltac:(fold n; lia) Hdek).
    rewrite Hall, (pad_if_needed_blocks keyData k 0 Hlen ltac:(lia)), app_nil_r.
    cbn [call OpenSSL.encrypt_block OpenSSL.key_length].
    change (Z.to_nat 16) with 16%nat.
    rewrite (ecb_encrypt_ext _ (DES.ede_encrypt_block dek))
      by (intros x; apply ede_key_prefix).
    rewrite bind_ret.
    assert (Hx : C.len (Spec.ecb_encrypt (DES.ede_encrypt_block dek)
                          (Spec.blocks k keyData)) = n).
    { unfold C.len at 1, Bytes.len.
      rewrite ecb_encrypt_length
        by (intros x; apply (encrypt_block_length OpenSSL.EVP_des_ede dek)).
      rewrite blocks_length. symmetry. exact Hk. }
    exists (Spec.ecb_encrypt (DES.ede_encrypt_block dek) (Spec.blocks k keyData)).
    split; [|split; [apply read_all; symmetry; exact Hx | exact Hx]].
    rewrite Hx.
    replace (n >? 24) with false
      by (symmetry; rewrite Z.gtb_ltb; apply Z.ltb_ge; lia).
    reflexivity.
Qed.

(** X15. A sensitive key of whole blocks is encrypted under the data encryption
    session key, with triple DES in CBC mode from the zero ICV under the
    options i0A, i0B, i1A and i1B and in ECB mode under the others; the
    cipher text takes the place of the key in the field.  The key check
    value is that of the key itself. *)
Theorem get_key_data_field_sensitive_layout
    (si : GP211_SECURITY_INFO)
    (keyData : list Z) (keyType isSensitive : Z) (field : list Z)
    (fieldLength : Z) (check : list Z) :
  let n := C.len keyData in
  let dek := dataEncryptionSessionKey si in
  let enc :=
    if key_encrypted_cbc si
    then Spec.cbc_encrypt (DES.ede_encrypt_block dek) icv (Spec.blocks_of keyData)
    else Spec.ecb_encrypt (DES.ede_encrypt_block dek) (Spec.blocks_of keyData) in
  let kcv := firstn 3 (DES.ede_encrypt_block keyData [0; 0; 0; 0; 0; 0; 0; 0]) in
  isSensitive <> 0 -> 16 <= C.len dek ->
  16 <= n -> n mod 8 = 0 -> n <= (if key_encrypted_cbc si then 16 else 24) ->
  n + 6 <= fieldLength -> n + 6 <= C.len field -> 3 <= C.len check ->
  get_key_data_field (Some si) keyData keyType isSensitive field fieldLength
    check =
  Success (mkKeyField
             ([keyType; C.BYTE n] ++ enc ++ [0x03] ++ kcv
                ++ skipn (Z.to_nat (n + 6)) field)
             (n + 6)
             (kcv ++ skipn 3 check)).
Proof.
  intros n dek enc kcv Hs Hdek Hk Hmod Hn Hlen Hroom Hcheck.
  assert (Hn24 : n <= 24) by (destruct (key_encrypted_cbc si); lia).
  unfold get_key_data_field, returns. fold n.
  replace (negb (isSensitive =? 0)) with true
    by (symmetry; apply negb_true_iff, Z.eqb_neq; exact Hs).
  cbv iota.
  unfold bind at 1. cbn [get field_length].
  replace (C.DWORD (1 + 1 + n + 1)) with (n + 3)
    by (symmetry; apply DWORD_eq; lia).
  replace (C.DWORD (n + 3 + 3)) with (n + 6)
    by (symmetry; apply DWORD_eq; lia).
  replace (n + 6 >? fieldLength) with false
    by (symmetry; rewrite Z.gtb_ltb; apply Z.ltb_ge; lia).
  rewrite write_key_type_and_length by lia.
  cbn [defined]. rewrite bind_ret.
  destruct (encrypted_key_val si keyData
              (mkKeyField ([keyType; C.BYTE n] ++ skipn 2 field) fieldLength check)
              Hdek Hmod Hn) as (full & Hfull & Hread & Henc).
  fold n dek enc in Hfull, Hread, Henc.
  unfold bind at 1. unfold bind at 1. fold dek. rewrite Hfull.
  rewrite Hread. cbn [defined]. rewrite bind_ret.
  assert (H2 : C.len (skipn 2 field) = C.len field - 2)
    by (rewrite len_skipn; lia).
  rewrite (write_field_after [keyType; C.BYTE n] (skipn 2 field) enc
             (0 + 1 + 1) _ _ eq_refl ltac:(lia)).
  replace (C.DWORD (0 + 1 + 1 + n)) with (n + 2)
    by (symmetry; apply DWORD_eq; lia).
  set (b := skipn (length enc) (skipn 2 field)).
  assert (Hb : C.len b = C.len field - 2 - n).
  { unfold b. rewrite len_skipn. fold (Bytes.len enc). fold (C.len enc). lia. }
  rewrite (write_key_check_value_val keyData ([keyType; C.BYTE n] ++ enc) b
             (n + 2) _ _ Hk
             ltac:(rewrite len_app; change (C.len [keyType; C.BYTE n]) with 2; lia)
             ltac:(lia) ltac:(lia) Hcheck).
  fold kcv. replace (n + 2 + 4) with (n + 6) by lia.
  apply (f_equal Success). f_equal.
  rewrite <- !app_assoc. cbn [app]. do 2 f_equal.
  apply (f_equal (app enc)). apply (f_equal (cons 3)). apply (f_equal (app kcv)).
  unfold b. rewrite !skipn_skipn. f_equal.
  unfold C.len, Bytes.len in Henc. lia.
Qed.

Lemma get_key_data_field_sensitive_layout_witness :
  let si := Examples.session 0 GP211_SCP02 GP211_SCP02_IMPL_i1A in
  let keyData := Examples.key_40_4F in
  let field := repeat 0 22 in
  get_key_data_field (Some si) keyData 0x80 1 field 22 [0; 0; 0] =
  Success (mkKeyField
             ([0x80; C.BYTE (C.len keyData)]
                ++ (if key_encrypted_cbc si
                    then Spec.cbc_encrypt
                           (DES.ede_encrypt_block (dataEncryptionSessionKey si))
                           icv (Spec.blocks_of keyData)
                    else Spec.ecb_encrypt
                           (DES.ede_encrypt_block (dataEncryptionSessionKey si))
                           (Spec.blocks_of keyData))
                ++ [0x03]
                ++ firstn 3 (DES.ede_encrypt_block keyData [0; 0; 0; 0; 0; 0; 0; 0])
                ++ skipn (Z.to_nat (C.len keyData + 6)) field)
             (C.len keyData + 6)
             (firstn 3 (DES.ede_encrypt_block keyData [0; 0; 0; 0; 0; 0; 0; 0])
                ++ skipn 3 [0; 0; 0])).
Proof.
  intros si keyData field.
  apply (get_key_data_field_sensitive_layout si keyData 0x80 1 field 22 [0; 0; 0]);
    vm_compute; (discriminate || reflexivity).
Defined.

(** X16. A sensitive key too long for [encrypted_key]: the cipher text of a key
    of 24 bytes or more in CBC mode, which always adds a block of padding,
    and of more than 24 bytes in ECB mode, is written past the end of the
    24-byte array. *)
Theorem get_key_data_field_encrypted_key_overflow
    (si : GP211_SECURITY_INFO)
    (keyData : list Z) (keyType isSensitive : Z) (field : list Z)
    (fieldLength : Z) (check : list Z) :
  let n := C.len keyData in
  isSensitive <> 0 -> 16 <= C.len (dataEncryptionSessionKey si) ->
  (if key_encrypted_cbc si then 24 <= n else 24 < n) -> n < 2 ^ 31 ->
  n + 6 <= fieldLength -> n + 6 <= C.len field ->
  get_key_data_field (Some si) keyData keyType isSensitive field fieldLength
    check =
  Undefined.
Proof.
  intros n Hs Hdek Hn Hsmall Hlen Hroom.
  assert (Hn24 : 24 <= n) by (destruct (key_encrypted_cbc si); lia).
  unfold get_key_data_field, returns. fold n.
  replace (negb (isSensitive =? 0)) with true
    by (symmetry; apply negb_true_iff, Z.eqb_neq; exact Hs).
  cbv iota.
  unfold bind at 1. cbn [get field_length].
  replace (C.DWORD (1 + 1 + n + 1)) with (n + 3)
    by (symmetry; apply DWORD_eq; lia).
  replace (C.DWORD (n + 3 + 3)) with (n + 6)
    by (symmetry; apply DWORD_eq; lia).
  replace (n + 6 >? fieldLength) with false
    by (symmetry; rewrite Z.gtb_ltb; apply Z.ltb_ge; lia).
  rewrite write_key_type_and_length by lia.
  cbn [defined]. rewrite bind_ret.
  rewrite to_int_len by lia.
  unfold bind at 1. unfold bind at 1. unfold call_into.
  destruct (key_encrypted_cbc si).
  - destruct (calculate_enc_cbc_SCP02_spec (dataEncryptionSessionKey si) keyData n
                ltac:(fold n; lia) Hdek) as [Henc Hct].
    rewrite Henc. cbn [call]. rewrite bind_ret, Hct.
    replace (8 * (n / 8 + 1) >? 24) with true; [reflexivity|].
    symmetry. apply Z.gtb_lt.
    assert (3 <= n / 8) by (apply Z.div_le_lower_bound; lia). lia.
  - unfold calculate_enc_ecb_two_key_triple_des.
    rewrite (encrypt_padding_if_needed_ecb OpenSSL.EVP_des_ede
               (dataEncryptionSessionKey si) icv keyData n
               eq_refl ltac:(fold n; lia) Hdek).
    cbn [call]. rewrite bind_ret.
    unfold C.len at 1, Bytes.len.
    rewrite ecb_encrypt_length
      by (intros x; apply (encrypt_block_length OpenSSL.EVP_des_ede)).
    rewrite Nat2Z.inj_mul, (blocks_of_pad_if_needed_length keyData n)
      by (fold n; lia).
    change (Z.of_nat 8) with 8.
    replace (8 * ((n + 7) / 8) >? 24) with true; [reflexivity|].
    symmetry. apply Z.gtb_lt.
    assert (4 <= (n + 7) / 8) by (apply Z.div_le_lower_bound; lia). lia.
Qed.

Lemma get_key_data_field_encrypted_key_overflow_witness :
  get_key_data_field
    (Some (Examples.session 0 GP211_SCP02 GP211_SCP02_IMPL_i1A))
    (Examples.key_40_4F ++ firstn 8 Examples.key_40_4F) 0x80 1
    (repeat 0 30) 30 [0; 0; 0] =
  Undefined.
Proof.
  apply (get_key_data_field_encrypted_key_overflow
           (Examples.session 0 GP211_SCP02 GP211_SCP02_IMPL_i1A)
           (Examples.key_40_4F ++ firstn 8 Examples.key_40_4F) 0x80 1
           (repeat 0 30) 30 [0; 0; 0]);
    vm_compute; (discriminate || reflexivity).
Defined.

(* ================================================================== *)
(** ** Receipts *)

(** X17. [validate_receipt] accepts a receipt whose first 8 bytes are the
    Retail-MAC of the validation data under the receipt key, from the zero
    ICV, and answers ValidationFailed to every other receipt; the bytes of
    the receipt after the first 8 do not count. *)
Theorem validate_receipt_decides
    (validationData : list Z) (n : Z) (receipt receiptKey : list Z) :
  let mac := Spec.Retail_MAC receiptKey icv (firstn (Z.to_nat n) validationData) in
  0 <= n <= C.len validationData -> n < 2 ^ 31 ->
  16 <= C.len receiptKey -> 8 <= C.len receipt ->
  (firstn 8 receipt = mac ->
   validate_receipt validationData n receipt receiptKey = Success tt)
  /\ (firstn 8 receipt <> mac ->
      validate_receipt validationData n receipt receiptKey =
      Failure OPGP_ERROR_VALIDATION_FAILED tt).
Proof.
  intros mac Hn Hsmall Hkey Hreceipt.
  assert (H : validate_receipt validationData n receipt receiptKey =
              if Bytes.eqb mac (firstn 8 receipt) then Success tt
              else Failure OPGP_ERROR_VALIDATION_FAILED tt).
  { unfold validate_receipt, returns.
    rewrite to_int_len by lia.
    rewrite (calculate_MAC_des_3des_spec receiptKey validationData n icv Hn Hkey
               ltac:(unfold C.len, Bytes.len; cbn [icv length]; lia)).
    change (firstn 8 icv) with icv. fold mac.
    cbn [call]. rewrite bind_ret.
    rewrite (read_all mac 8)
      by (unfold C.len, Bytes.len, mac; rewrite retail_mac_length; reflexivity).
    cbn [defined]. rewrite bind_ret.
    rewrite (read_firstn receipt 8) by lia.
    cbn [defined]. rewrite bind_ret.
    change (Z.to_nat 8) with 8%nat.
    destruct (Bytes.eqb mac (firstn 8 receipt)); reflexivity. }
  rewrite H. split; intros Hm.
  - replace (Bytes.eqb mac (firstn 8 receipt)) with true; [reflexivity|].
    symmetry. apply bytes_eqb_eq. symmetry. exact Hm.
  - replace (Bytes.eqb mac (firstn 8 receipt)) with false; [reflexivity|].
    symmetry. apply bytes_eqb_neq. intros Heq. apply Hm. symmetry. exact Heq.
Qed.

Lemma validate_receipt_decides_witness :
  validate_receipt [1; 2; 3; 4; 5; 6; 7; 8; 9; 10] 10
    (Spec.Retail_MAC Examples.key_40_4F icv [1; 2; 3; 4; 5; 6; 7; 8; 9; 10]
       ++ [0xFF])
    Examples.key_40_4F =
  Success tt
  /\ validate_receipt [1; 2; 3; 4; 5; 6; 7; 8; 9; 10] 10
       (repeat 0 16) Examples.key_40_4F =
     Failure OPGP_ERROR_VALIDATION_FAILED tt.
Proof.
  split.
  - apply (validate_receipt_decides [1; 2; 3; 4; 5; 6; 7; 8; 9; 10] 10
             (Spec.Retail_MAC Examples.key_40_4F icv
                [1; 2; 3; 4; 5; 6; 7; 8; 9; 10] ++ [0xFF])
             Examples.key_40_4F);
      vm_compute; (discriminate || reflexivity || (split; discriminate)).
  - apply (validate_receipt_decides [1; 2; 3; 4; 5; 6; 7; 8; 9; 10] 10
             (repeat 0 16) Examples.key_40_4F);
      vm_compute; (discriminate || reflexivity || (split; discriminate)).
Defined.

(** *** Bytes of a block that are never written *)

Lemma block_store_elsewhere (b b' : C.block) (off : Z) (data : list Z) (j : nat) :
  C.block_store b off data = Some b' ->
  Z.of_nat j < off \/ off + C.len data <= Z.of_nat j ->
  nth_error b' j = nth_error b j.
Proof.
  unfold C.block_store.
  destruct ((0 <=? off) && (off + C.len data <=? Z.of_nat (length b))) eqn:Hb;
    [|discriminate].
  apply andb_prop in Hb. destruct Hb as [H0 H1]. apply Z.leb_le in H0, H1.
  intros [= <-] Hj. unfold C.len, Bytes.len in *.
  assert (Hf : length (firstn (Z.to_nat off) b) = Z.to_nat off)
    by (rewrite length_firstn; lia).
  destruct Hj as [Hj|Hj].
  - rewrite nth_error_app1 by lia.
    rewrite nth_error_firstn.
    replace (j <? Z.to_nat off)%nat with true; [reflexivity|].
    symmetry. apply Nat.ltb_lt. lia.
  - rewrite nth_error_app2 by lia.
    rewrite nth_error_app2 by (rewrite length_map; lia).
    rewrite nth_error_skipn. f_equal. rewrite Hf, length_map. lia.
Qed.

Lemma block_bytes_unwritten (b : C.block) (j : nat) :
  nth_error b j = Some None -> C.block_bytes b = None.
Proof.
  revert j. induction b as [|x b IH]; intros [|j] H; try discriminate.
  - cbn in H. injection H as ->. reflexivity.
  - cbn [nth_error] in H. cbn [C.block_bytes].
    destruct x; [|reflexivity]. rewrite (IH j H). reflexivity.
Qed.

Lemma malloc_unwritten (n : Z) (j : nat) :
  Z.of_nat j < n -> nth_error (C.malloc n) j = Some None.
Proof.
  intros H. unfold C.malloc. apply nth_error_repeat. lia.
Qed.

(** A write elsewhere leaves an unwritten byte of the block unwritten: if
    the rest of the function, from any such block, reads an unwritten
    byte, so does the function from here. *)
Lemma block_store_step {Mem A} (b : C.block) (off : Z) (data : list Z) (j : nat)
    (f : C.block -> M Mem A) (s : Mem) :
  nth_error b j = Some None ->
  Z.of_nat j < off \/ off + C.len data <= Z.of_nat j ->
  (forall b', nth_error b' j = Some None -> f b' s = Undef) ->
  bind (defined (C.block_store b off data)) f s = Undef.
Proof.
  intros Hb Hj Hf.
  destruct (C.block_store b off data) as [b'|] eqn:Hs; [|reflexivity].
  cbn [defined]. rewrite bind_ret. apply Hf.
  rewrite (block_store_elsewhere b b' off data j Hs Hj). exact Hb.
Qed.

Lemma memcpy_block_step {Mem A} (b : C.block) (off : Z) (src : list Z) (n : Z)
    (j : nat) (f : C.block -> M Mem A) (s : Mem) :
  nth_error b j = Some None ->
  Z.of_nat j < off \/ off + n <= Z.of_nat j ->
  (forall b', nth_error b' j = Some None -> f b' s = Undef) ->
  bind (memcpy_block b off src n) f s = Undef.
Proof.
  intros Hb Hj Hf. unfold memcpy_block.
  destruct (C.read src n) as [bytes|] eqn:Hr; [|reflexivity].
  cbn [defined]. rewrite bind_ret.
  assert (Hlen : C.len bytes = n).
  { pose proof (read_length src n bytes Hr) as Hl.
    unfold C.read in Hr. destruct (0 <=? n) eqn:H0; [|discriminate].
    apply Z.leb_le in H0. unfold C.len, Bytes.len. lia. }
  destruct (C.block_store b off bytes) as [b'|] eqn:Hs; [|reflexivity].
  unfold bind. cbn [defined]. unfold ret. apply Hf.
  rewrite (block_store_elsewhere b b' off bytes j Hs) by (rewrite Hlen; exact Hj).
  exact Hb.
Qed.

Lemma bind_assoc {Mem A B C} (m : M Mem A) (f : A -> M Mem B) (g : B -> M Mem C)
    (s : Mem) :
  bind (bind m f) g s = bind m (fun a => bind (f a) g) s.
Proof. unfold bind. destruct (m s); reflexivity. Qed.

Lemma reads_unwritten {Mem A} (b : C.block) (j : nat) (f : list Z -> M Mem A)
    (s : Mem) :
  nth_error b j = Some None ->
  bind (ret b) (fun b => bind (defined (C.block_bytes b)) f) s = Undef.
Proof.
  intros H. rewrite bind_ret, (block_bytes_unwritten b j H). reflexivity.
Qed.

Ltac outside_write :=
  unfold C.len, Bytes.len in *; cbn [length] in *; lia.

(** The validation data of a delete receipt, of byte [j] never written. *)
Lemma delete_receipt_validation_data_unwritten {Mem A}
    (confirmationCounter : Z) (cardUniqueData AID : list Z) (j : nat)
    (f : list Z -> M Mem A) (s : Mem) :
  5 + C.len cardUniqueData + C.len AID < 2 ^ 32 ->
  4 <= Z.of_nat j < 5 + C.len cardUniqueData + C.len AID ->
  C.len cardUniqueData <= Z.of_nat j -> C.len AID <= Z.of_nat j ->
  Z.of_nat j <> 4 + C.len cardUniqueData ->
  bind (delete_receipt_validation_data confirmationCounter cardUniqueData AID)
    (fun b => bind (defined (C.block_bytes b)) f) s = Undef.
Proof.
  intros Hsmall Hj Hc Ha Hne.
  pose proof (len_nonneg cardUniqueData) as Hc0.
  pose proof (len_nonneg AID) as Ha0.
  unfold delete_receipt_validation_data.
  replace (C.DWORD (1 + 2 + 1 + C.len cardUniqueData + 1 + C.len AID))
    with (5 + C.len cardUniqueData + C.len AID)
    by (symmetry; apply DWORD_eq; lia).
  replace (C.DWORD (0 + 1 + 1 + 1 + 1 + C.len cardUniqueData))
    with (4 + C.len cardUniqueData)
    by (symmetry; apply DWORD_eq; lia).
  pose proof (malloc_unwritten (5 + C.len cardUniqueData + C.len AID) j
                ltac:(lia)) as Hb.
  rewrite bind_assoc.
  apply (block_store_step _ _ _ j); [exact Hb | outside_write | clear Hb; intros b Hb].
  rewrite bind_assoc.
  apply (block_store_step _ _ _ j); [exact Hb | outside_write | clear b Hb; intros b Hb].
  rewrite bind_assoc.
  apply (block_store_step _ _ _ j); [exact Hb | outside_write | clear b Hb; intros b Hb].
  rewrite bind_assoc.
  apply (block_store_step _ _ _ j); [exact Hb | outside_write | clear b Hb; intros b Hb].
  rewrite bind_assoc.
  apply (memcpy_block_step _ _ _ _ j); [exact Hb | outside_write | clear b Hb; intros b Hb].
  rewrite bind_assoc.
  apply (block_store_step _ _ _ j); [exact Hb | outside_write | clear b Hb; intros b Hb].
  rewrite bind_assoc.
  apply (memcpy_block_step _ _ _ _ j); [exact Hb | outside_write | clear b Hb; intros b Hb].
  apply (reads_unwritten b j). exact Hb.
Qed.

(** X18. The validation data of a delete receipt is complete only when the card
    data and the AID are both empty; then it is the tag [02], the counter
    and two zero lengths.  Both [memcpy] calls write at the start of the
    block, so with card data or an AID a byte of the block is never
    written, and the MAC is taken over it. *)
Theorem validate_delete_receipt_incomplete_data
    (confirmationCounter : Z) (cardUniqueData receiptKey receipt AID : list Z) :
  5 + C.len cardUniqueData + C.len AID < 2 ^ 32 ->
  (cardUniqueData <> [] \/ AID <> [] ->
   validate_delete_receipt confirmationCounter cardUniqueData receiptKey
     receipt AID = Undefined)
  /\ validate_delete_receipt confirmationCounter [] receiptKey receipt [] =
     validate_receipt
       [2; C.BYTE (Z.shiftr (Z.land confirmationCounter 0xFF00) 8);
        C.BYTE (Z.land confirmationCounter 0xFF); 0; 0] 5 receipt receiptKey.
Proof.
  intros Hsmall. split.
  - intros Hne. unfold validate_delete_receipt, returns.
    pose proof (len_nonneg cardUniqueData) as Hc0.
    pose proof (len_nonneg AID) as Ha0.
    assert (Hj : exists j : nat,
               4 <= Z.of_nat j < 5 + C.len cardUniqueData + C.len AID
               /\ C.len cardUniqueData <= Z.of_nat j /\ C.len AID <= Z.of_nat j
               /\ Z.of_nat j <> 4 + C.len cardUniqueData).
    { destruct AID as [|a AID].
      - destruct cardUniqueData as [|c cardUniqueData]; [tauto|].
        exists (3 + length (c :: cardUniqueData))%nat.
        unfold C.len, Bytes.len in *. cbn [length] in *. lia.
      - exists (4 + length cardUniqueData + length (a :: AID))%nat.
        unfold C.len, Bytes.len in *. cbn [length] in *. lia. }
    destruct Hj as (j & Hj & Hc & Ha & Hn).
    rewrite (delete_receipt_validation_data_unwritten confirmationCounter
               cardUniqueData AID j _ tt Hsmall Hj Hc Ha Hn).
    reflexivity.
  - unfold validate_delete_receipt, returns.
    assert (H : delete_receipt_validation_data (Mem := unit)
                  confirmationCounter [] [] tt =
                Val [Some 2;
                     Some (C.BYTE (Z.shiftr (Z.land confirmationCounter 0xFF00) 8));
                     Some (C.BYTE (Z.land confirmationCounter 0xFF));
                     Some 0; Some 0] tt) by reflexivity.
    rewrite (bind_val _ _ _ _ _ H).
    cbn [C.block_bytes defined]. rewrite bind_ret.
    change (C.DWORD (1 + 2 + 1 + C.len [] + 1 + C.len [])) with 5.
    destruct (validate_receipt _ 5 receipt receiptKey) as [[]|e []|]; reflexivity.
Qed.

Lemma validate_delete_receipt_incomplete_data_witness :
  validate_delete_receipt 0x0102 [0xA1] Examples.key_40_4F (repeat 0 8) [] =
  Undefined.
Proof.
  apply (validate_delete_receipt_incomplete_data 0x0102 [0xA1]
           Examples.key_40_4F (repeat 0 8) []).
  - vm_compute. reflexivity.
  - left. discriminate.
Defined.

(** The validation data of an install receipt, of byte [j] never written. *)
Lemma install_receipt_validation_data_unwritten {Mem A}
    (confirmationCounter : Z)
    (cardUniqueData executableLoadFileAID applicationAID : list Z) (j : nat)
    (f : list Z -> M Mem A) (s : Mem) :
  let c := C.len cardUniqueData in
  let e := C.len executableLoadFileAID in
  let a := C.len applicationAID in
  6 + c + e + a < 2 ^ 32 ->
  4 <= Z.of_nat j < 6 + c + e + a ->
  c <= Z.of_nat j -> e <= Z.of_nat j -> a <= Z.of_nat j ->
  Z.of_nat j <> 4 + c -> Z.of_nat j <> 5 + c + e ->
  bind (install_receipt_validation_data confirmationCounter cardUniqueData
          executableLoadFileAID applicationAID)
    (fun b => bind (defined (C.block_bytes b)) f) s = Undef.
Proof.
  intros c e a Hsmall Hj Hc He Ha Hn1 Hn2.
  pose proof (len_nonneg cardUniqueData) as Hc0.
  pose proof (len_nonneg executableLoadFileAID) as He0.
  pose proof (len_nonneg applicationAID) as Ha0.
  fold c in Hc0. fold e in He0. fold a in Ha0.
  unfold install_receipt_validation_data. fold c e a.
  replace (C.DWORD (1 + 2 + 1 + c + 1 + e + 1 + a)) with (6 + c + e + a)
    by (symmetry; apply DWORD_eq; lia).
  replace (C.DWORD (0 + 1 + 1 + 1 + 1 + c)) with (4 + c)
    by (symmetry; apply DWORD_eq; lia).
  replace (C.DWORD (4 + c + 1)) with (5 + c)
    by (symmetry; apply DWORD_eq; lia).
  replace (C.DWORD (5 + c + e)) with (5 + c + e)
    by (symmetry; apply DWORD_eq; lia).
  pose proof (malloc_unwritten (6 + c + e + a) j ltac:(lia)) as Hb.
  rewrite bind_assoc.
  apply (block_store_step _ _ _ j); [exact Hb | outside_write | clear Hb; intros b Hb].
  rewrite bind_assoc.
  apply (block_store_step _ _ _ j); [exact Hb | outside_write | clear b Hb; intros b Hb].
  rewrite bind_assoc.
  apply (block_store_step _ _ _ j); [exact Hb | outside_write | clear b Hb; intros b Hb].
  rewrite bind_assoc.
  apply (block_store_step _ _ _ j); [exact Hb | outside_write | clear b Hb; intros b Hb].
  rewrite bind_assoc.
  apply (memcpy_block_step _ _ _ _ j); [exact Hb | lia | clear b Hb; intros b Hb].
  rewrite bind_assoc.
  apply (block_store_step _ _ _ j); [exact Hb | outside_write | clear b Hb; intros b Hb].
  rewrite bind_assoc.
  apply (memcpy_block_step _ _ _ _ j); [exact Hb | lia | clear b Hb; intros b Hb].
  rewrite bind_assoc.
  apply (block_store_step _ _ _ j); [exact Hb | outside_write | clear b Hb; intros b Hb].
  rewrite bind_assoc.
  apply (memcpy_block_step _ _ _ _ j); [exact Hb | lia | clear b Hb; intros b Hb].
  apply (reads_unwritten b j). exact Hb.
Qed.

(** A byte of the validation data that no write reaches, when one of the
    three fields is not empty. *)
Lemma unwritten_byte_exists (c e a : list Z) :
  c <> [] \/ e <> [] \/ a <> [] ->
  exists j : nat,
    4 <= Z.of_nat j < 6 + C.len c + C.len e + C.len a
    /\ C.len c <= Z.of_nat j /\ C.len e <= Z.of_nat j /\ C.len a <= Z.of_nat j
    /\ Z.of_nat j <> 4 + C.len c /\ Z.of_nat j <> 5 + C.len c + C.len e.
Proof.
  intros H. destruct a as [|a0 a].
  - destruct e as [|e0 e].
    + destruct c as [|c0 c]; [tauto|].
      exists (3 + length (c0 :: c))%nat.
      unfold C.len, Bytes.len. cbn [length]. lia.
    + exists (4 + length c + length (e0 :: e))%nat.
      unfold C.len, Bytes.len. cbn [length]. lia.
  - exists (5 + length c + length e + length (a0 :: a))%nat.
    unfold C.len, Bytes.len. cbn [length]. lia.
Qed.

(** X19. [validate_install_receipt] and [validate_load_receipt] copy the card
    data and the two AIDs to the start of the block as well: with one of
    the three not empty, a byte of the validation data is never written and
    the MAC is taken over it. *)
Theorem validate_install_and_load_receipt_incomplete_data
    (confirmationCounter : Z)
    (cardUniqueData receiptKey receipt executableLoadFileAID AID : list Z) :
  6 + C.len cardUniqueData + C.len executableLoadFileAID + C.len AID < 2 ^ 32 ->
  cardUniqueData <> [] \/ executableLoadFileAID <> [] \/ AID <> [] ->
  validate_install_receipt confirmationCounter cardUniqueData receiptKey
    receipt executableLoadFileAID AID = Undefined
  /\ validate_load_receipt confirmationCounter cardUniqueData receiptKey
       receipt executableLoadFileAID AID = Undefined.
Proof.
  intros Hsmall Hne.
  destruct (unwritten_byte_exists cardUniqueData executableLoadFileAID AID Hne)
    as (j & Hj & Hc & He & Ha & Hn1 & Hn2).
  split.
  - unfold validate_install_receipt, returns.
    rewrite (install_receipt_validation_data_unwritten confirmationCounter
               cardUniqueData executableLoadFileAID AID j _ tt
               Hsmall Hj Hc He Ha Hn1 Hn2).
    reflexivity.
  - unfold validate_load_receipt, returns.
    change (load_receipt_validation_data confirmationCounter cardUniqueData
              executableLoadFileAID AID)
      with (install_receipt_validation_data (Mem := unit) confirmationCounter
              cardUniqueData executableLoadFileAID AID).
    rewrite (install_receipt_validation_data_unwritten confirmationCounter
               cardUniqueData executableLoadFileAID AID j _ tt
               Hsmall Hj Hc He Ha Hn1 Hn2).
    reflexivity.
Qed.

Lemma validate_install_and_load_receipt_incomplete_data_witness :
  validate_install_receipt 0x0102 [] Examples.key_40_4F (repeat 0 8)
    [0xA0; 0x00] [0xB1] = Undefined
  /\ validate_load_receipt 0x0102 [] Examples.key_40_4F (repeat 0 8)
       [0xA0; 0x00] [0xB1] = Undefined.
Proof.
  apply (validate_install_and_load_receipt_incomplete_data 0x0102 []
           Examples.key_40_4F (repeat 0 8) [0xA0; 0x00] [0xB1]).
  - vm_compute. reflexivity.
  - right. left. discriminate.
Defined.

(* ================================================================== *)
(** ** The R-MAC: its data, and the commands and responses it is not
       computed for *)

(** X20. [GP211_calculate_R_MAC] returns the Retail-MAC, under the R-MAC session
    key and chained on [lastR_MAC], of the 4 bytes of the command header,
    the length of the command data as one byte, the command data, the
    length of the response data modulo 256, the response data and the
    2 bytes of the status word. *)
Theorem GP211_calculate_R_MAC_data
    (commandHeader commandData : list Z) (commandDataLength : Z)
    (responseData : list Z) (responseDataLength : Z) (statusWord : list Z)
    (si : GP211_SECURITY_INFO) :
  4 <= C.len commandHeader ->
  0 <= commandDataLength <= C.len commandData ->
  0 <= responseDataLength <= C.len responseData ->
  2 <= C.len statusWord ->
  commandDataLength + responseDataLength + 8 < 2 ^ 31 ->
  16 <= C.len (R_MACSessionKey si) -> 8 <= C.len (lastR_MAC si) ->
  let data :=
    firstn 4 commandHeader ++ [commandDataLength mod 256]
      ++ firstn (Z.to_nat commandDataLength) commandData
      ++ [responseDataLength mod 256]
      ++ firstn (Z.to_nat responseDataLength) responseData
      ++ firstn 2 statusWord in
  GP211_calculate_R_MAC commandHeader commandData commandDataLength
    responseData responseDataLength statusWord si =
  Success (Spec.Retail_MAC (R_MACSessionKey si) (firstn 8 (lastR_MAC si)) data)
  /\ C.len data = commandDataLength + responseDataLength + 8.
Proof.
  intros Hh Hc Hr Hs Hsmall Hkey Hlast data. split.
  - rewrite GP211_calculate_R_MAC_spec by assumption.
    unfold data, C.BYTE. rewrite Z.mod_mod by lia. reflexivity.
  - unfold data, C.len, Bytes.len in *.
    rewrite !length_app, !length_firstn. cbn [length]. lia.
Qed.

Lemma GP211_calculate_R_MAC_data_witness :
  GP211_calculate_R_MAC Examples.get_data [0xA0; 0x00] 2 [1; 2; 3] 3
    [0x90; 0x00] Examples.SCP02_i15_R_MAC =
  Success
    (Spec.Retail_MAC (R_MACSessionKey Examples.SCP02_i15_R_MAC)
       (firstn 8 (lastR_MAC Examples.SCP02_i15_R_MAC))
       (firstn 4 Examples.get_data ++ [2 mod 256]
          ++ firstn (Z.to_nat 2) [0xA0; 0x00]
          ++ [3 mod 256] ++ firstn (Z.to_nat 3) [1; 2; 3]
          ++ firstn 2 [0x90; 0x00])).
Proof.
  destruct (GP211_calculate_R_MAC_data Examples.get_data [0xA0; 0x00] 2
              [1; 2; 3] 3 [0x90; 0x00] Examples.SCP02_i15_R_MAC) as [H _].
  - vm_compute. discriminate.
  - vm_compute. split; discriminate.
  - vm_compute. split; discriminate.
  - vm_compute. discriminate.
  - vm_compute. reflexivity.
  - vm_compute. discriminate.
  - vm_compute. discriminate.
  - exact H.
Defined.

Lemma R_MAC_level_checked (si : GP211_SECURITY_INFO) :
  In (securityLevel si)
     [GP211_SCP02_SECURITY_LEVEL_R_MAC; GP211_SCP02_SECURITY_LEVEL_C_MAC_R_MAC;
      GP211_SCP02_SECURITY_LEVEL_C_DEC_C_MAC_R_MAC] ->
  negb (securityLevel si =? GP211_SCP02_SECURITY_LEVEL_C_DEC_C_MAC_R_MAC)
  && negb (securityLevel si =? GP211_SCP02_SECURITY_LEVEL_R_MAC)
  && negb (securityLevel si =? GP211_SCP02_SECURITY_LEVEL_C_MAC_R_MAC) = false.
Proof.
  intros Hlevel. cbn [In] in Hlevel.
  destruct Hlevel as [<- | [<- | [<- | []]]]; reflexivity.
Qed.

(** X21. Under a level with R-MAC, a command of 6 bytes or more whose fifth
    byte fits neither Case 3 nor Case 4 is answered UnrecognizedApdu
    before the response is looked at; the SecurityInfo is unchanged. *)
Theorem check_R_MAC_unrecognized_command
    (apduCommand responseData : list Z) (si : GP211_SECURITY_INFO) (lc : Z) :
  In (securityLevel si)
     [GP211_SCP02_SECURITY_LEVEL_R_MAC; GP211_SCP02_SECURITY_LEVEL_C_MAC_R_MAC;
      GP211_SCP02_SECURITY_LEVEL_C_DEC_C_MAC_R_MAC] ->
  6 <= C.len apduCommand ->
  C.load apduCommand 4 = Some lc ->
  convert_byte lc + 5 <> C.len apduCommand ->
  convert_byte lc + 5 + 1 <> C.len apduCommand ->
  GP211_check_R_MAC apduCommand responseData (Some si) =
  Failure OPGP_ERROR_UNRECOGNIZED_APDU_COMMAND (Some si).
Proof.
  intros Hlevel Hlen Hload H3 H4.
  unfold GP211_check_R_MAC, returns.
  rewrite (R_MAC_level_checked si Hlevel).
  unfold check_R_MAC_operands.
  replace (C.len apduCommand =? 4) with false
    by (symmetry; apply Z.eqb_neq; lia).
  replace (C.len apduCommand =? 5) with false
    by (symmetry; apply Z.eqb_neq; lia).
  rewrite Hload. cbn [defined].
  unfold bind at 1. unfold bind at 1. unfold bind at 1. unfold ret at 1.
  replace (convert_byte lc + 5 =? C.len apduCommand) with false
    by (symmetry; apply Z.eqb_neq; exact H3).
  replace (convert_byte lc + 5 + 1 =? C.len apduCommand) with false
    by (symmetry; apply Z.eqb_neq; exact H4).
  reflexivity.
Qed.

Lemma check_R_MAC_unrecognized_command_witness :
  GP211_check_R_MAC [0x80; 0xE2; 0x00; 0x00; 0x08; 1; 2; 3]
    [1; 2; 3; 4; 5; 6; 7; 8; 0x90; 0x00] (Some Examples.SCP02_i15_R_MAC) =
  Failure OPGP_ERROR_UNRECOGNIZED_APDU_COMMAND (Some Examples.SCP02_i15_R_MAC).
Proof.
  apply (check_R_MAC_unrecognized_command [0x80; 0xE2; 0x00; 0x00; 0x08; 1; 2; 3]
           [1; 2; 3; 4; 5; 6; 7; 8; 0x90; 0x00] Examples.SCP02_i15_R_MAC 0x08).
  - left. reflexivity.
  - vm_compute. discriminate.
  - reflexivity.
  - vm_compute. discriminate.
  - vm_compute. discriminate.
Defined.

(** X22. [GP211_check_R_MAC] never checks the length of the response.
    Under a level with R-MAC, for a command of one of the four short cases
    and a response of fewer than 10 bytes, which has no room for an R-MAC
    and a status word, the 8 bytes compared with the computed MAC are
    those at [responseData + responseDataLength - 10], before the start of
    the response: the call reads outside of the buffer. *)
Theorem check_R_MAC_short_response
    (apduCommand responseData : list Z) (si : GP211_SECURITY_INFO) :
  In (securityLevel si)
     [GP211_SCP02_SECURITY_LEVEL_R_MAC; GP211_SCP02_SECURITY_LEVEL_C_MAC_R_MAC;
      GP211_SCP02_SECURITY_LEVEL_C_DEC_C_MAC_R_MAC] ->
  C.len apduCommand = 4 \/ C.len apduCommand = 5 \/
  (exists lc, C.load apduCommand 4 = Some lc /\
              (convert_byte lc + 5 = C.len apduCommand
               \/ convert_byte lc + 5 + 1 = C.len apduCommand)) ->
  C.len responseData < 10 ->
  C.at_offset responseData (C.len responseData - 10) = None
  /\ GP211_check_R_MAC apduCommand responseData (Some si) = Undefined.
Proof.
  intros Hlevel Hshape Hshort.
  assert (Hbefore : C.at_offset responseData (C.len responseData - 10) = None).
  { unfold C.at_offset.
    replace (0 <=? C.len responseData - 10) with false
      by (symmetry; apply Z.leb_gt; lia).
    reflexivity. }
  split; [exact Hbefore|].
  unfold GP211_check_R_MAC, returns.
  rewrite (R_MAC_level_checked si Hlevel).
  unfold check_R_MAC_operands.
  match goal with
  | |- context [bind (bind ?m ?f) ?g] => set (pick := m); set (rest := f)
  end.
  assert (Hlc : exists lc, pick (Some si) = Val lc (Some si)).
  { unfold pick.
    destruct Hshape as [H | [H | (lc & Hload & H)]].
    - rewrite H. exists 0. reflexivity.
    - rewrite H. exists 0. reflexivity.
    - destruct (C.len apduCommand =? 4); [exists 0; reflexivity|].
      destruct (C.len apduCommand =? 5); [exists 0; reflexivity|].
      rewrite Hload. cbn [defined]. rewrite bind_ret. exists lc.
      destruct H as [H | H].
      + replace (convert_byte lc + 5 =? C.len apduCommand) with true
          by (symmetry; apply Z.eqb_eq; exact H).
        reflexivity.
      + destruct (convert_byte lc + 5 =? C.len apduCommand); [reflexivity|].
        replace (convert_byte lc + 5 + 1 =? C.len apduCommand) with true
          by (symmetry; apply Z.eqb_eq; exact H).
        reflexivity. }
  destruct Hlc as [lc Hlc].
  rewrite bind_assoc, (bind_val _ _ _ _ _ Hlc).
  unfold rest. rewrite Hbefore.
  unfold bind at 1. unfold bind at 1.
  destruct (C.at_offset responseData (C.len responseData - 2)) as [sw|];
    [|reflexivity].
  cbn [defined]. unfold ret at 1. unfold bind at 1.
  destruct (GP211_calculate_R_MAC apduCommand apduCommand lc responseData
              (C.DWORD (C.len responseData - 2)) sw si) as [mac|e mac|];
    [ | | reflexivity ];
    unfold ret at 1; unfold bind at 1;
    (destruct (C.read mac 8) as [computed|]; [|reflexivity]);
    reflexivity.
Qed.

Lemma check_R_MAC_short_response_witness :
  C.at_offset [1; 2; 3; 4; 5; 6; 7; 0x90; 0x00]
    (C.len [1; 2; 3; 4; 5; 6; 7; 0x90; 0x00] - 10) = None
  /\ GP211_check_R_MAC Examples.get_data [1; 2; 3; 4; 5; 6; 7; 0x90; 0x00]
       (Some Examples.SCP02_i15_R_MAC) = Undefined.
Proof.
  apply (check_R_MAC_short_response Examples.get_data
           [1; 2; 3; 4; 5; 6; 7; 0x90; 0x00] Examples.SCP02_i15_R_MAC).
  - left. reflexivity.
  - left. reflexivity.
  - vm_compute. reflexivity.
Defined.

(* ================================================================== *)
(** ** [wrap_command] at the levels without encryption *)

Lemma convert_byte_range (b : Z) : 0 <= convert_byte b <= 255.
Proof.
  assert (H : convert_byte b = b mod 2 ^ 8)
    by (unfold convert_byte; apply (Z.land_ones b 8); lia).
  rewrite H. pose proof (Z.mod_pos_bound b (2 ^ 8) eq_refl) as Hb.
  change (2 ^ 8) with 256 in *. lia.
Qed.

(** A command with a data field has at most 255 data bytes: the length
    that is checked is at most 260, for Case 3 and for Case 4. *)
Lemma classify_apdu_length (apduCommand : list Z) (m m' : wrap_mem)
    (caseAPDU : apdu_case) (wrappedLength le apduCommandLength : Z) :
  classify_apdu apduCommand m =
    Val (caseAPDU, wrappedLength, le, apduCommandLength) m' ->
  caseAPDU = Case3 \/ caseAPDU = Case4 -> apduCommandLength <= 260.
Proof.
  unfold classify_apdu.
  destruct (C.len apduCommand =? 4);
    [intros [= <- _ _ _ _] [H|H]; discriminate H|].
  destruct (C.len apduCommand =? 5).
  { destruct (C.load apduCommand 4); [|discriminate].
    cbn [defined]. rewrite bind_ret. intros [= <- _ _ _ _] [H|H]; discriminate H. }
  destruct (C.load apduCommand 4) as [lc|]; [|discriminate].
  cbn [defined]. rewrite bind_ret.
  pose proof (convert_byte_range lc) as Hb.
  destruct (convert_byte lc + 5 =? C.len apduCommand) eqn:H3.
  { apply Z.eqb_eq in H3. intros [= _ _ _ <- _] _. lia. }
  destruct (convert_byte lc + 5 + 1 =? C.len apduCommand) eqn:H4; [|discriminate].
  apply Z.eqb_eq in H4.
  destruct (C.load apduCommand (C.len apduCommand - 1)); [|discriminate].
  cbn [defined]. rewrite bind_ret. intros [= _ _ _ <- _] _. lia.
Qed.

Lemma classify_apdu_raises :
  forall apduCommand,
    raises (fun e => e = OPGP_ERROR_UNRECOGNIZED_APDU_COMMAND)
      (classify_apdu apduCommand).
Proof.
  intros apduCommand. unfold classify_apdu. repeat raises_step. reflexivity.
Qed.

Lemma bind_fail_inv {Mem A B} (m : M Mem A) (f : A -> M Mem B) (s s' : Mem)
    (e : error_code) :
  bind m f s = Fail e s' ->
  m s = Fail e s' \/ exists a s1, m s = Val a s1 /\ f a s1 = Fail e s'.
Proof.
  unfold bind. destruct (m s) as [a s1|e1 s1|]; try discriminate.
  - intros H. right. exists a, s1. split; [reflexivity | exact H].
  - intros [= -> ->]. left. reflexivity.
Qed.

(** X23. At a level without encryption [wrap_command] never answers
    CommandSecureMessagingTooLarge: the limits its check compares with,
    260 bytes for Case 3 and 261 for Case 4, are the longest commands a
    one-byte [Lc] allows.  A command whose data field leaves no room for
    the 8 bytes of the MAC is not refused. *)
Theorem wrap_command_too_large_only_with_encryption
    (apduCommand wrappedApduCommand : list Z) (si : GP211_SECURITY_INFO)
    (w : wrapped) :
  (securityLevel si =? GP211_SCP01_SECURITY_LEVEL_C_DEC_C_MAC)
  || (securityLevel si =? GP211_SCP02_SECURITY_LEVEL_C_DEC_C_MAC)
  || (securityLevel si =? GP211_SCP02_SECURITY_LEVEL_C_DEC_C_MAC_R_MAC)
  || (securityLevel si =? GP211_SCP03_SECURITY_LEVEL_C_DEC_C_MAC) = false ->
  wrap_command apduCommand wrappedApduCommand (Some si) <>
  Failure OPGP_ERROR_COMMAND_SECURE_MESSAGING_TOO_LARGE w.
Proof.
  intros Hlevel. unfold wrap_command.
  destruct (C.len wrappedApduCommand <? C.len apduCommand); [discriminate|].
  destruct (C.store wrappedApduCommand 0 apduCommand) as [copied|];
    [|discriminate].
  destruct (no_secure_messaging si); [discriminate|].
  destruct ((secureChannelProtocol si =? GP211_SCP03)
            && (securityLevel si =? GP211_SCP03_SECURITY_LEVEL_C_DEC_C_MAC));
    [discriminate|].
  cbn [negb].
  match goal with
  | |- match ?m ?s with _ => _ end <> _ =>
      destruct (m s) as [v s1|e s1|] eqn:E; try discriminate
  end.
  intros [= -> _].
  apply bind_fail_inv in E.
  destruct E as [E | ([[[caseAPDU wrappedLength] le] apduCommandLength]
                      & s2 & Hshape & E)].
  - apply classify_apdu_raises in E. discriminate E.
  - apply wrap_secured_too_large in E.
    pose proof (classify_apdu_length _ _ _ _ _ _ _ Hshape) as Hlen.
    unfold check_max_length in E. rewrite Hlevel in E.
    rewrite bind_ret in E.
    destruct ((securityLevel si =? GP211_SCP01_SECURITY_LEVEL_C_MAC)
              || (securityLevel si =? GP211_SCP02_SECURITY_LEVEL_C_MAC)
              || (securityLevel si =? GP211_SCP02_SECURITY_LEVEL_C_MAC_R_MAC)
              || (securityLevel si =? GP211_SCP03_SECURITY_LEVEL_C_MAC));
      [|discriminate E].
    destruct caseAPDU; try discriminate E.
    + replace (apduCommandLength >? 247 + 8 + 5) with false in E;
        [discriminate E|].
      symmetry. rewrite Z.gtb_ltb. apply Z.ltb_ge.
      specialize (Hlen (or_introl eq_refl)). lia.
    + replace (apduCommandLength >? 247 + 8 + 5 + 1) with false in E;
        [discriminate E|].
      symmetry. rewrite Z.gtb_ltb. apply Z.ltb_ge.
      specialize (Hlen (or_intror eq_refl)). lia.
Qed.

Lemma wrap_command_too_large_only_with_encryption_witness :
  wrap_command (Examples.store_data 255) (repeat 0 300)
    (Some Examples.SCP02_i15_C_MAC) <>
  Failure OPGP_ERROR_COMMAND_SECURE_MESSAGING_TOO_LARGE
    (mkWrapped (repeat 0 300) 300 (Some Examples.SCP02_i15_C_MAC)).
Proof.
  apply (wrap_command_too_large_only_with_encryption (Examples.store_data 255)
           (repeat 0 300) Examples.SCP02_i15_C_MAC).
  reflexivity.
Defined.

(** *** A Case-3 command under SCP02 with C-MAC only *)





(* ================================================================== *)
(** ** The ICV of the C-MAC in [wrap_command] *)




(* ================================================================== *)
(** ** The C-MAC of SCP03 *)

Lemma calculate_CMAC_aes_val (sMacKey message : list Z) (n : Z)
    (chainingValue : list Z) :
  16 <= C.len sMacKey -> 16 <= C.len chainingValue ->
  0 <= n <= C.len message -> n < 2 ^ 31 ->
  calculate_CMAC_aes sMacKey message n chainingValue =
  Success (AES.cmac (firstn 16 sMacKey)
             (firstn 16 chainingValue ++ firstn (Z.to_nat n) message)).
Proof.
  intros Hkey Hchain Hn Hsmall. unfold calculate_CMAC_aes, returns.
  unfold OpenSSL.CMAC_Init. rewrite (read_firstn sMacKey 16) by lia.
  change (Z.to_nat 16) with 16%nat. cbn [evp]. rewrite bind_ret.
  unfold OpenSSL.CMAC_Update at 1.
  rewrite (read_firstn chainingValue 16) by lia.
  change (Z.to_nat 16) with 16%nat.
  cbn [evp OpenSSL.cmac_key OpenSSL.cmac_data app]. rewrite bind_ret.
  unfold OpenSSL.CMAC_Update.
  replace (C.to_size_t n) with n
    by (unfold C.to_size_t; rewrite Z.mod_small; lia).
  rewrite (read_firstn message n) by lia.
  cbn [evp OpenSSL.cmac_key OpenSSL.cmac_data app]. rewrite bind_ret.
  reflexivity.
Qed.

(** X25. [calculate_CMAC_aes] is the AES-128 CMAC of the 16 bytes of the
    chaining value followed by the message: what [calculate_MAC_aes]
    returns for the two put together.  The tag has 16 bytes. *)
Theorem calculate_CMAC_aes_chains (sMacKey message : list Z) (n : Z)
    (chainingValue : list Z) :
  length sMacKey = 16%nat -> 16 <= C.len chainingValue ->
  0 <= n <= C.len message -> n + 16 < 2 ^ 31 ->
  let input := firstn 16 chainingValue ++ firstn (Z.to_nat n) message in
  calculate_CMAC_aes sMacKey message n chainingValue =
    Success (AES.cmac sMacKey input)
  /\ calculate_MAC_aes sMacKey input (16 + n) = Success (AES.cmac sMacKey input)
  /\ length (AES.cmac sMacKey input) = 16%nat.
Proof.
  intros Hkey Hchain Hn Hsmall input.
  assert (Hk : 16 <= C.len sMacKey) by (unfold C.len, Bytes.len; lia).
  assert (Hk16 : firstn 16 sMacKey = sMacKey) by (apply firstn_all2; lia).
  assert (Hin : C.len input = 16 + n).
  { unfold input, C.len, Bytes.len in *.
    rewrite length_app, !length_firstn. lia. }
  split; [|split].
  - rewrite calculate_CMAC_aes_val by (assumption || lia).
    rewrite Hk16. reflexivity.
  - rewrite calculate_MAC_aes_cmac by lia.
    rewrite Hk16. rewrite firstn_all2; [reflexivity|].
    unfold C.len, Bytes.len in Hin. lia.
  - apply cmac_length. exact Hkey.
Qed.

Lemma calculate_CMAC_aes_chains_witness :
  calculate_CMAC_aes Examples.key_40_4F [1; 2; 3; 4; 5] 5 (repeat 0 16) =
  Success (AES.cmac Examples.key_40_4F
             (firstn 16 (repeat 0 16) ++ firstn (Z.to_nat 5) [1; 2; 3; 4; 5])).
Proof.
  destruct (calculate_CMAC_aes_chains Examples.key_40_4F [1; 2; 3; 4; 5] 5
              (repeat 0 16)) as [H _].
  - reflexivity.
  - vm_compute. discriminate.
  - vm_compute. split; discriminate.
  - vm_compute. reflexivity.
  - exact H.
Defined.

Lemma save_lastC_MAC_16 (mac buf : list Z) (si : GP211_SECURITY_INFO) :
  length mac = 16%nat -> length (lastC_MAC si) = 16%nat ->
  save_lastC_MAC mac 16 (mkMem buf si) = Val tt (mkMem buf (set_lastC_MAC si mac)).
Proof.
  intros Hm Hl. unfold save_lastC_MAC. run. cbn [buffer sec].
  rewrite read_all by (unfold C.len, Bytes.len; lia).
  rewrite store_whole by lia. reflexivity.
Qed.

Lemma compute_C_MAC_SCP03 (si si' : GP211_SECURITY_INFO) (wrappedLength : Z)
    (C_MAC_ICV buf : list Z) :
  secureChannelProtocol si = GP211_SCP03 ->
  securityLevel si = GP211_SCP03_SECURITY_LEVEL_C_MAC ->
  16 <= C.len (C_MACSessionKey si) -> 16 <= C.len (lastC_MAC si) ->
  8 <= wrappedLength <= C.len buf + 8 -> wrappedLength < 2 ^ 31 ->
  compute_C_MAC si wrappedLength C_MAC_ICV (mkMem buf si') =
  Val (AES.cmac (firstn 16 (C_MACSessionKey si))
         (firstn 16 (lastC_MAC si)
            ++ firstn (Z.to_nat (wrappedLength - 8)) buf))
      (mkMem buf si').
Proof.
  intros Hp Hl Hk Hc Hw Hw'. unfold compute_C_MAC. unfold bind at 1. cbn [get].
  rewrite Hp, Hl.
  change (GP211_SCP03 =? GP211_SCP02) with false.
  change (GP211_SCP03 =? GP211_SCP01) with false.
  change (GP211_SCP03 =? GP211_SCP03) with true.
  change (GP211_SCP03_SECURITY_LEVEL_C_MAC =? GP211_SCP03_SECURITY_LEVEL_C_MAC)
    with true.
  cbv iota. rewrite to_int_small by lia. cbn [buffer].
  rewrite calculate_CMAC_aes_val by lia.
  reflexivity.
Qed.

(** X26. What [wrap_command] answers for a Case-3 command under SCP03 (option
    i00) at level C_MAC: the class byte marked, [Lc] raised by 8 in one
    byte, the data, and the first 8 bytes of the AES-128 CMAC of the
    chaining value followed by that header and the data; all 16 bytes of
    the CMAC are the new chaining value. *)
Theorem wrap_command_SCP03_C_MAC_Case3
    (cla ins p1 p2 : Z) (data out : list Z) (si : GP211_SECURITY_INFO) :
  secureChannelProtocol si = GP211_SCP03 ->
  securityLevel si = GP211_SCP03_SECURITY_LEVEL_C_MAC ->
  secureChannelProtocolImpl si = GP211_SCP03_IMPL_i00 ->
  length (C_MACSessionKey si) = 16%nat ->
  length (lastC_MAC si) = 16%nat ->
  1 <= C.len data <= 255 ->
  C.len data + 13 <= C.len out ->
  let n := C.len data in
  let header := [Z.lor cla 4; ins; p1; p2; C.BYTE (n + 8)] in
  let mac := AES.cmac (C_MACSessionKey si) (lastC_MAC si ++ header ++ data) in
  wrap_command ([cla; ins; p1; p2; n] ++ data) out (Some si) =
  Success
    (mkWrapped
       (header ++ data ++ firstn 8 mac ++ skipn (Z.to_nat (n + 13)) out)
       (n + 13)
       (Some (set_lastC_MAC si mac))).
Proof.
  intros Hproto Hlevel Himpl Hckey Hlast Hn Hout n header mac.
  fold n in Hn, Hout.
  set (apdu := [cla; ins; p1; p2; n] ++ data).
  assert (Hapdu : C.len apdu = n + 5).
  { unfold apdu. rewrite len_app. change (C.len [cla; ins; p1; p2; n]) with 5.
    fold n. lia. }
  assert (Hnsm : no_secure_messaging si = false)
    by (unfold no_secure_messaging; rewrite Hlevel; reflexivity).
  assert (Hmod : mac_on_modified_apdu si = true)
    by (unfold mac_on_modified_apdu; rewrite Himpl, Hproto; reflexivity).
  assert (Hunmod : mac_on_unmodified_apdu si = false)
    by (unfold mac_on_unmodified_apdu; rewrite Himpl; reflexivity).
  unfold wrap_command. rewrite Hapdu.
  replace (C.len out <? n + 5) with false by (symmetry; apply Z.ltb_ge; lia).
  rewrite store_at_start by lia.
  rewrite Hnsm, Hproto, Hlevel.
  change ((GP211_SCP03 =? GP211_SCP03)
          && (GP211_SCP03_SECURITY_LEVEL_C_MAC
              =? GP211_SCP03_SECURITY_LEVEL_C_DEC_C_MAC)) with false.
  cbv iota.
  unfold apdu at 1. unfold n at 1.
  rewrite (bind_val _ _ _ _ _ (classify_apdu_Case3 cla ins p1 p2 data _ Hn)).
  cbn [negb]. fold n. fold apdu.
  unfold wrap_secured. rewrite Hmod, Hunmod.
  assert (Hcheck : forall m, check_max_length si Case3 (n + 5) m = Val tt m).
  { intros m. unfold check_max_length. rewrite Hlevel.
    cbn [orb Z.eqb GP211_SCP03_SECURITY_LEVEL_C_MAC
         GP211_SCP01_SECURITY_LEVEL_C_DEC_C_MAC
         GP211_SCP02_SECURITY_LEVEL_C_DEC_C_MAC
         GP211_SCP02_SECURITY_LEVEL_C_DEC_C_MAC_R_MAC
         GP211_SCP03_SECURITY_LEVEL_C_DEC_C_MAC
         GP211_SCP01_SECURITY_LEVEL_C_MAC Pos.eqb].
    rewrite bind_ret.
    replace (n + 5 >? 247 + 8 + 5) with false; [reflexivity|].
    symmetry. rewrite Z.gtb_ltb. apply Z.ltb_ge. lia. }
  rewrite (bind_val _ _ _ _ _ (Hcheck _)).
  set (rest0 := skipn (length apdu) out).
  assert (Hrest0 : C.len rest0 = C.len out - (n + 5)).
  { unfold rest0, C.len, Bytes.len in *. rewrite length_skipn. lia. }
  pose proof (len_nonneg data) as Hd0. pose proof (len_nonneg rest0) as Hr0.
  assert (Hbuf : apdu ++ rest0 = cla :: ins :: p1 :: p2 :: n :: (data ++ rest0))
    by (unfold apdu; rewrite <- app_assoc; reflexivity).
  rewrite Hbuf.
  rewrite (bind_val _ _ _ _ _
             (make_room_for_mac_Case3 apdu (C.len out) (n + 5) (n + 5)
                cla cla ins p1 p2 n (data ++ rest0) si eq_refl ltac:(lia))).
  change (Z.lor cla 4 :: ins :: p1 :: p2 :: C.BYTE (n + 8) :: data ++ rest0)
    with (header ++ data ++ rest0).
  unfold compute_C_MAC_ICV. rewrite Hproto.
  change (GP211_SCP03 =? GP211_SCP02) with false.
  change (GP211_SCP03 =? GP211_SCP01) with false. cbv iota.
  rewrite bind_ret.
  assert (Hh : C.len header = 5) by reflexivity.
  rewrite (bind_val _ _ _ _ _
             (compute_C_MAC_SCP03 si si (n + 5 + 8) [] (header ++ data ++ rest0)
                Hproto Hlevel
                ltac:(unfold C.len, Bytes.len; lia)
                ltac:(unfold C.len, Bytes.len; lia)
                ltac:(rewrite !len_app, Hh; fold n; lia)
                ltac:(lia))).
  replace (n + 5 + 8 - 8) with (n + 5) by lia.
  rewrite (firstn_all2 (n := 16) (C_MACSessionKey si)) by lia.
  rewrite (firstn_all2 (n := 16) (lastC_MAC si)) by lia.
  replace (firstn (Z.to_nat (n + 5)) (header ++ data ++ rest0))
    with (header ++ data).
  2:{ rewrite (app_assoc header data rest0), firstn_app.
      replace (Z.to_nat (n + 5)) with (length (header ++ data))
        by (rewrite length_app; unfold n, C.len, Bytes.len; cbn [length header]; lia).
      rewrite firstn_all, Nat.sub_diag, firstn_O, app_nil_r. reflexivity. }
  fold mac. rewrite bind_ret.
  assert (Hmac : length mac = 16%nat) by (apply cmac_length; exact Hckey).
  rewrite Hlevel.
  change (negb (GP211_SCP03 =? GP211_SCP03)) with false.
  change (GP211_SCP03_SECURITY_LEVEL_C_MAC =? GP211_SCP03_SECURITY_LEVEL_C_MAC)
    with true.
  cbv iota.
  rewrite (bind_val _ _ _ _ _ (save_lastC_MAC_16 mac _ si Hmac Hlast)).
  rewrite (read_firstn mac 8) by (unfold C.len, Bytes.len; lia).
  change (Z.to_nat 8) with 8%nat.
  unfold defined at 1. rewrite bind_ret.
  assert (Hmac8 : length (firstn 8 mac) = 8%nat)
    by (rewrite length_firstn; lia).
  replace (n + 5 + 8 - 8) with (C.len (header ++ data))
    by (rewrite len_app, Hh; fold n; lia).
  rewrite (app_assoc header data rest0).
  rewrite (bind_val _ _ _ _ _
             (copy_out_val _ _ _ _ (set_lastC_MAC si mac)
                (store_after (header ++ data) rest0 (firstn 8 mac) _ eq_refl
                   ltac:(unfold C.len, Bytes.len in *; lia)))).
  rewrite Hmac8. rewrite bind_ret.
  change ((GP211_SCP03_SECURITY_LEVEL_C_MAC =? GP211_SCP01_SECURITY_LEVEL_C_DEC_C_MAC)
          || (GP211_SCP03_SECURITY_LEVEL_C_MAC =? GP211_SCP02_SECURITY_LEVEL_C_DEC_C_MAC)
          || (GP211_SCP03_SECURITY_LEVEL_C_MAC
              =? GP211_SCP02_SECURITY_LEVEL_C_DEC_C_MAC_R_MAC)) with false.
  cbv iota. unfold ret. cbn [buffer sec].
  replace (n + 5 + 8) with (n + 13) by lia.
  apply (f_equal Success). f_equal.
  rewrite <- app_assoc. apply (f_equal (app header)). apply (f_equal (app data)).
  apply (f_equal (app (firstn 8 mac))).
  unfold rest0. rewrite skipn_skipn. f_equal.
  unfold C.len, Bytes.len in Hapdu. lia.
Qed.

Lemma wrap_command_SCP03_C_MAC_Case3_witness :
  let si :=
    Examples.session GP211_SCP03_SECURITY_LEVEL_C_MAC GP211_SCP03
      GP211_SCP03_IMPL_i00 in
  let data := [1; 2; 3; 4; 5; 6; 7; 8] in
  let header := [Z.lor 0x80 4; 0xE2; 0x00; 0x00; C.BYTE (C.len data + 8)] in
  let mac := AES.cmac (C_MACSessionKey si) (lastC_MAC si ++ header ++ data) in
  wrap_command ([0x80; 0xE2; 0x00; 0x00; C.len data] ++ data) (repeat 0 21)
    (Some si) =
  Success
    (mkWrapped
       (header ++ data ++ firstn 8 mac
          ++ skipn (Z.to_nat (C.len data + 13)) (repeat 0 21))
       (C.len data + 13)
       (Some (set_lastC_MAC si mac))).
Proof.
  intros si data header mac.
  apply (wrap_command_SCP03_C_MAC_Case3 0x80 0xE2 0x00 0x00 data (repeat 0 21) si).
  - reflexivity.
  - reflexivity.
  - reflexivity.
  - reflexivity.
  - reflexivity.
  - vm_compute. split; discriminate.
  - vm_compute. discriminate.
Defined.
